(** * pier-client-ethereum: the transaction relay and confirmation engine

    A shallow embedding of the Go sources of the Ethereum appchain plugin
    (client.go, event.go and the header pool) together with the properties
    of the submission, confirmation, header synchronisation and off-chain
    reassembly paths.

    Conventions.
    - A Go [uint64] is a [Z] in [0, 2^64); arithmetic on it wraps and the
      wrap is written out ([uint64_sub], [uint64_add]).  A Go [int] /
      [int64] is a [Z] in [-2^63, 2^63).
    - [[]byte] is [list byte], [string] is [string].
    - A Go function with effects is a state transformer over an explicit
      world that holds the answers the ledger node will give and the record
      of the calls performed; a run-time panic and a call that never returns
      are outcomes of their own. *)

From Stdlib Require Import ZArith Lia Bool List Ascii String DecimalString.
From Stdlib.Strings Require Import Byte.
From stdpp Require Import base option list strings gmap.

Local Open Scope string_scope.
Local Open Scope Z_scope.
Local Open Scope list_scope.

(* ===================================================================== *)
(** * Go primitives used by the sources *)
(* ===================================================================== *)

Module Go.

Abbreviation bytes := (list byte).

(** A Go pair [(value, err)]: either the value or the text of the error. *)
Inductive result (A : Type) : Type :=
| Ok (a : A)
| Err (e : string).
Arguments Ok {A} a.
Arguments Err {A} e.

Definition two64 : Z := 2 ^ 64.
Definition two63 : Z := 2 ^ 63.

(** Truncation of a mathematical integer to a [uint64]. *)
Definition uint64 (z : Z) : Z := z mod two64.

(** [a - b] and [a + b] on [uint64]: the result wraps around. *)
Definition uint64_sub (a b : Z) : Z := uint64 (a - b).
Definition uint64_add (a b : Z) : Z := uint64 (a + b).

(** Conversions [int64(x)] / [int(x)] (64-bit platform) of a [uint64]:
    the bit pattern is reinterpreted in two's complement. *)
Definition int64 (z : Z) : Z :=
  let u := uint64 z in if u <? two63 then u else u - two64.

(** [a + b] on [int]. *)
Definition int_add (a b : Z) : Z := int64 (a + b).

(** [a % b] on [int]: the remainder of the truncated division; a zero
    divisor is a run-time panic ([None]). *)
Definition int_rem (a b : Z) : option Z :=
  if b =? 0 then None else Some (Z.rem a b).

Definition byteZ (b : byte) : Z := Z.of_N (Byte.to_N b).

(** [binary.BigEndian.Uint64(b)]: the first eight bytes, most significant
    first; fewer than eight bytes is a run-time panic ([None]). *)
Definition BigEndian_Uint64 (b : bytes) : option Z :=
  match b with
  | b0 :: b1 :: b2 :: b3 :: b4 :: b5 :: b6 :: b7 :: _ =>
      Some (Z.lor (byteZ b7)
           (Z.lor (Z.shiftl (byteZ b6) 8)
           (Z.lor (Z.shiftl (byteZ b5) 16)
           (Z.lor (Z.shiftl (byteZ b4) 24)
           (Z.lor (Z.shiftl (byteZ b3) 32)
           (Z.lor (Z.shiftl (byteZ b2) 40)
           (Z.lor (Z.shiftl (byteZ b1) 48)
                  (Z.shiftl (byteZ b0) 56))))))))
  | _ => None
  end.

(** [binary.BigEndian.PutUint64]: the eight bytes of a [uint64]. *)
Definition byte_at (v : Z) (k : Z) : byte :=
  match Byte.of_N (Z.to_N (Z.land (Z.shiftr v k) 255)) with
  | Some b => b
  | None => x00
  end.

Definition PutUint64 (v : Z) : bytes :=
  [byte_at v 56; byte_at v 48; byte_at v 40; byte_at v 32;
   byte_at v 24; byte_at v 16; byte_at v 8; byte_at v 0].

(** [[]byte(s)] and [string(b)]. *)
Definition bytes_of_string (s : string) : bytes := list_byte_of_string s.
Definition string_of_bytes (b : bytes) : string := string_of_list_byte b.

(** [strings.Contains(s, substr)]. *)
Fixpoint strings_Contains (s substr : string) : bool :=
  if String.prefix substr s then true
  else match s with
       | EmptyString => false
       | String _ rest => strings_Contains rest substr
       end.

(** [strings.Split(s, sep)] for a separator of one character: the pieces
    between the separators, in order; a string without separator is its
    own single piece (also the empty string). *)
Fixpoint strings_Split (s : string) (sep : ascii) : list string :=
  match s with
  | EmptyString => [EmptyString]
  | String ch rest =>
      if Ascii.eqb ch sep then EmptyString :: strings_Split rest sep
      else match strings_Split rest sep with
           | piece :: pieces => String ch piece :: pieces
           | [] => [String ch EmptyString]
           end
  end.

(** [strings.EqualFold] on ASCII text (addresses are hexadecimal text):
    equality up to the case of the letters. *)
Definition lower (ch : ascii) : ascii :=
  let n := nat_of_ascii ch in
  if (Nat.leb 65 n && Nat.leb n 90)%bool then ascii_of_nat (n + 32) else ch.

Fixpoint strings_EqualFold (s t : string) : bool :=
  match s, t with
  | EmptyString, EmptyString => true
  | String a s', String b t' =>
      (Ascii.eqb (lower a) (lower b) && strings_EqualFold s' t')%bool
  | _, _ => false
  end.

(** The verb [%d] of [fmt] on a [uint64]. *)
Definition fmt_d (n : Z) : string := NilZero.string_of_uint (N.to_uint (Z.to_N n)).

(** [len(x)] as an [int]. *)
Definition len {A} (l : list A) : Z := Z.of_nat (length l).

(** The slice expression [s[lo:hi]] on a slice whose capacity equals its
    length; out of range bounds are a run-time panic ([None]). *)
Definition slice {A} (s : list A) (lo hi : Z) : option (list A) :=
  if (0 <=? lo) && (lo <=? hi) && (hi <=? len s)
  then Some (take (Z.to_nat (hi - lo)) (drop (Z.to_nat lo) s))
  else None.

(** ** Outcomes and the state monad *)

(** How a call ends: it returns, it panics, or it never returns (the loop
    is still running when the fuel is spent, the other side never answers,
    or a send blocks on a full channel that nothing in the run receives
    from). *)
Inductive Outcome (A : Type) : Type :=
| Returns (a : A)
| Panics (msg : string)
| Hangs.
Arguments Returns {A} a.
Arguments Panics {A} msg.
Arguments Hangs {A}.

(** A Go function with effects on a state [S]. *)
Definition M (S A : Type) : Type := S -> Outcome A * S.

Definition ret {S A} (a : A) : M S A := fun w => (Returns a, w).
Definition panic {S A} (msg : string) : M S A := fun w => (Panics msg, w).
Definition hang {S A} : M S A := fun w => (Hangs, w).

Definition bind {S A B} (m : M S A) (k : A -> M S B) : M S B :=
  fun w =>
    match m w with
    | (Returns a, w') => k a w'
    | (Panics msg, w') => (Panics msg, w')
    | (Hangs, w') => (Hangs, w')
    end.

(** A pure computation that may panic. *)
Definition lift {S A} (o : Outcome A) : M S A := fun w => (o, w).

(** [s[i]]: an index out of range panics. *)
Definition index {S A} (s : list A) (i : nat) : M S A :=
  match s !! i with
  | Some a => ret a
  | None => panic "index out of range"
  end.

End Go.

Notation "'do' x <- m ; k" := (Go.bind m (fun x => k))
  (at level 10, x pattern, m at level 100, k at level 200).

(* ===================================================================== *)
(** * The messages of bitxhub-model/pb that the client handles *)
(* ===================================================================== *)

Module pb.

Import Go.

(** [pb.Content]. *)
Record Content := mkContent {
  SrcContractId : string;
  DstContractId : string;
  Func : string;
  Args : list bytes;
  Callback : string;
  ArgsCb : list bytes;
  Rollback : string;
  ArgsRb : list bytes
}.

(** [pb.BxhProof]; [TxStatus] is the number of the enum value. *)
Record BxhProof := mkBxhProof {
  TxStatus : Z;
  MultiSign : list bytes
}.

(** [pb.ResultRes] and [pb.Result]. *)
Record ResultRes := mkResultRes { ResData : list bytes }.

Record Result := mkResult {
  Data : list ResultRes;
  MultiStatus : list bool
}.

(** [pb.SubmitIBTPResponse]. *)
Record SubmitIBTPResponse := mkResponse {
  Status : bool;
  Message : string
}.

(** [pb.IBTP], with the fields that the event conversion fills. *)
Record IBTP := mkIBTP {
  From : string;
  To : string;
  Index : Z;
  Type_ : Z;
  Timestamp : Z;
  Proof_ : bytes;
  Payload : bytes
}.

(** [pb.ShardTag], with the field that the reassembly reads. *)
Record ShardTag := mkShardTag { ShardSize : Z }.

(** [pb.GetDataResponse]; [RespShardTag] is the pointer field [ShardTag],
    [None] for nil. *)
Record GetDataResponse := mkGetDataResponse {
  RespType : Z;
  RespMsg : string;
  RespFrom : string;
  RespTo : string;
  RespIndex : Z;
  RespData : bytes;
  RespShardTag : option ShardTag
}.

End pb.

(* ===================================================================== *)
(** * event.go: conversion of a ledger event into an IBTP *)
(* ===================================================================== *)

Module Event.

Import Go pb.

(** [BrokerThrowEvent]; the addresses are kept as their text. *)
Record BrokerThrowEvent := mkEvent {
  ev_Index : Z;
  ev_To : string;
  ev_Fid : string;
  ev_Tid : string;
  ev_Funcs : string;
  ev_Args : string
}.

Definition comma : ascii := ","%char.

(** [handleArgs]. *)
Definition handleArgs (args : string) : list bytes :=
  let argsBytes : list bytes := [] in
  let as_ := strings_Split args comma in
  fold_left (fun (acc : list bytes) a => (acc ++ [bytes_of_string a])%list)
            as_ argsBytes.

(** The content object that [encryptPayload] builds before it serialises
    it, or the format error. *)
Definition encryptPayload_content (ev : BrokerThrowEvent) : result Content :=
  let funcs := strings_Split (ev_Funcs ev) comma in
  match funcs with
  | [f0; f1; f2] =>
      Ok {| SrcContractId := ev_Fid ev;
             DstContractId := ev_Tid ev;
             Func := f0;
             Args := handleArgs (ev_Args ev);
             Callback := f1;
             ArgsCb := handleArgs (ev_Args ev);
             Rollback := f2;
             ArgsRb := handleArgs (ev_Args ev) |}
  | _ => Err ("expected 3 functions, cur: " +:+ ev_Funcs ev)
  end.

Section Marshal.
(** The protobuf serialisers of [pb.Content] and [pb.Payload]. *)
Variable Content_Marshal : Content -> result bytes.
Variable Payload_Marshal : bytes -> result bytes.

(** [encryptPayload]. *)
Definition encryptPayload (ev : BrokerThrowEvent) : result bytes :=
  match encryptPayload_content ev with
  | Err e => Err e
  | Ok content =>
      match Content_Marshal content with
      | Err e => Err e
      | Ok data => Payload_Marshal data
      end
  end.

(** [Convert2IBTP]; [now] is the clock reading, and a failed payload is
    fatal ([None]). *)
Definition Convert2IBTP (now : Z) (ev : BrokerThrowEvent) (from : string)
    (ibtpType : Z) : option IBTP :=
  match encryptPayload ev with
  | Err _ => None
  | Ok pd =>
      Some {| From := from; To := ev_To ev; Index := ev_Index ev;
              Type_ := ibtpType; Timestamp := now;
              Proof_ := bytes_of_string "1"; Payload := pd |}
  end.
End Marshal.

End Event.

(* ===================================================================== *)
(** * client.go: submission, retry and confirmation *)
(* ===================================================================== *)

Module Client.

Import Go pb.

(** A run of the model is one call of one goroutine: [c.lock], which only
    serialises the submissions of concurrent callers, and the logger calls,
    which change nothing that is returned, are left out.  [time.Sleep] passes
    the time and does nothing else. *)

(** ** The ledger node as the client sees it *)

(** [types.Receipt]: the status word and the transaction hash. *)
Record Receipt := mkReceipt {
  ReceiptStatus : Z;
  ReceiptTxHash : string
}.

(** [types.ReceiptStatusSuccessful]. *)
Definition ReceiptStatusSuccessful : Z := 1.

(** Which of [c.session] and [c.sessionDirect] is set: [Initialize] sets
    exactly one of them, [c.session == nil] selects the direct one. *)
Inductive Mode : Type := Relay | Direct.

(** The options of [c.config.Ether] that the modelled functions read. *)
Record Config := mkConfig {
  OffChainAddr : string;
  OffChainPath : string;
  MinConfirm : Z
}.

Record Client := mkClient {
  config : Config;
  mode : Mode
}.

(** The request built by [constructReq] from its four arguments. *)
Record OffChainReq := mkOffChainReq {
  req_index : Z;
  req_key : string;
  req_peer : string;
  req_arg : bytes
}.

(** Constants of [pb] and helpers of the plugin whose text is not part of
    the modelled sources; the functions below take them as given. *)
Record Deps := mkDeps {
  IBTP_Multi : Z;
  TransactionStatus_BEGIN : Z;
  CheckInterchainOffChain : Content -> bool;
  CheckReceiptOffChain : IBTP -> Result -> result bool
}.

(** A call on the ledger session or on the node. *)
Inductive Call : Type :=
| GetChainID_call (m : Mode)
| GetOutMessage_call (servicePair : string) (idx : Z)
| InvokeInterchain_call (m : Mode) (srcFullID destAddr : string)
    (index reqType : Z) (callFunc : string) (args : list bytes)
    (txStatus : Z) (multiSign : list bytes) (encrypt : bool)
| InvokeMultiInterchain_call (m : Mode) (srcFullID destAddr : string)
    (index reqType : Z) (callFunc : string) (args : list (list bytes))
    (txStatus : Z) (multiSign : list bytes) (encrypt : bool)
| InvokeReceipt_call (m : Mode) (srcAddr dstFullID : string)
    (index reqType : Z) (results : list (list bytes))
    (txStatus : Z) (multiSign : list bytes)
| InvokeMultiReceipt_call (m : Mode) (srcAddr dstFullID : string)
    (index reqType : Z) (results : list (list bytes))
    (multiStatus : list bool) (txStatus : Z) (multiSign : list bytes)
| InvokeInterchains_call (from serviceID : list string) (index typ : list Z)
    (callFunc : list string) (args : list (list bytes)) (txStatus : list Z)
    (sign : list (list bytes)) (isEncrypted : list bool)
| BlockNumber_call (answer : result Z)
| TransactionReceipt_call (hash : string).

(** The world of one run: the answers the node gives to the successive
    calls of each kind (an empty list: the node never answers), the calls
    performed so far, oldest first, and the off-chain request channel. *)
Record World := mkWorld {
  tx_answers : list (result string);
  block_answers : list (result Z);
  receipt_answers : list (result Receipt);
  chainid_answers : list (result (string * string));
  outmsg_answers : list (result IBTP);
  trace : list Call;
  reqCh : list OffChainReq
}.

Definition record (c : Call) (w : World) : World :=
  mkWorld (tx_answers w) (block_answers w) (receipt_answers w)
          (chainid_answers w) (outmsg_answers w) (trace w ++ [c]) (reqCh w).

Definition with_tx (a : list (result string)) (w : World) : World :=
  mkWorld a (block_answers w) (receipt_answers w)
          (chainid_answers w) (outmsg_answers w) (trace w) (reqCh w).

Definition with_block (a : list (result Z)) (w : World) : World :=
  mkWorld (tx_answers w) a (receipt_answers w)
          (chainid_answers w) (outmsg_answers w) (trace w) (reqCh w).

Definition with_receipt (a : list (result Receipt)) (w : World) : World :=
  mkWorld (tx_answers w) (block_answers w) a
          (chainid_answers w) (outmsg_answers w) (trace w) (reqCh w).

Definition with_chainid (a : list (result (string * string))) (w : World) : World :=
  mkWorld (tx_answers w) (block_answers w) (receipt_answers w)
          a (outmsg_answers w) (trace w) (reqCh w).

Definition with_outmsg (a : list (result IBTP)) (w : World) : World :=
  mkWorld (tx_answers w) (block_answers w) (receipt_answers w)
          (chainid_answers w) a (trace w) (reqCh w).

Definition enqueue (r : OffChainReq) (w : World) : World :=
  mkWorld (tx_answers w) (block_answers w) (receipt_answers w)
          (chainid_answers w) (outmsg_answers w) (trace w) (reqCh w ++ [r]).

Abbreviation M := (Go.M World).

(** [binary.BigEndian.Uint64(b)]. *)
Definition decode (b : bytes) : M Z :=
  match BigEndian_Uint64 b with
  | Some v => ret v
  | None => panic "index out of range"
  end.

(** ** Calls on the node *)

Definition transact (c : Call) : M (result string) :=
  fun w =>
    match tx_answers w with
    | [] => (Hangs, record c w)
    | a :: rest => (Returns a, with_tx rest (record c w))
    end.

Definition BlockNumber : M (result Z) :=
  fun w =>
    match block_answers w with
    | [] => (Hangs, w)
    | a :: rest => (Returns a, with_block rest (record (BlockNumber_call a) w))
    end.

Definition TransactionReceipt (hash : string) : M (result Receipt) :=
  fun w =>
    match receipt_answers w with
    | [] => (Hangs, record (TransactionReceipt_call hash) w)
    | a :: rest =>
        (Returns a, with_receipt rest (record (TransactionReceipt_call hash) w))
    end.

(** ** github.com/Rican7/retry *)

(** [retry.Retry(action, strategy.Wait(d))] and [retry.Retry(action)]: the
    wait strategy sleeps and always allows the next attempt, so the action
    is repeated until it returns [nil].  The variables that the closure
    captures and assigns are the local state [L]. *)
Fixpoint Retry {L} (fuel : nat) (action : L -> M (option string * L)) (l : L)
    : M (option string * L) :=
  match fuel with
  | O => hang
  | S fuel' =>
      do (err, l') <- action l ;
      match err with
      | None => ret (None, l')
      | Some _ => Retry fuel' action l'
      end
  end.

(** ** github.com/hashicorp/go-hclog *)

(** An argument of a logger call after the message: a string, a bool, or a
    transaction hash. *)
Inductive LogArg : Type :=
| LogString (s : string)
| LogBool (b : bool)
| LogHash (h : string).

(** The key/value pairs of a call [logger.Warn(msg, key, value, ...)] or
    [logger.Info(...)], as the go-hclog of go.mod writes them.  The logger
    is created at level [Trace], so every call is written; the key of each
    pair is taken with the type assertion [args[i].(string)], which panics
    on a key that is not a string. *)
Fixpoint hclog_pairs (pairs : list (LogArg * LogArg)) : Outcome unit :=
  match pairs with
  | [] => Returns tt
  | (LogString _, _) :: rest => hclog_pairs rest
  | (LogBool _, _) :: _ =>
      Panics "interface conversion: interface {} is bool, not string"
  | (LogHash _, _) :: _ =>
      Panics "interface conversion: interface {} is common.Hash, not string"
  end.

Definition logger_log (pairs : list (LogArg * LogArg)) : M unit :=
  lift (hclog_pairs pairs).

Section WithClient.

Variable D : Deps.
Variable c : Client.

(** ** Confirmation *)

(** [getBestBlock]. *)
Definition getBestBlock (n : nat) : M Z :=
  do (err, blockNum) <-
     Retry n (fun _ : Z =>
                do r <- BlockNumber ;
                match r with
                | Ok h => ret (None, h)
                | Err e => ret (Some e, 0)
                end) 0 ;
  match err with
  | Some e => panic e
  | None => ret blockNum
  end.

(** The loop [for c.getBestBlock()-start < MinConfirm { time.Sleep }]. *)
Fixpoint waitDepth (n fuel : nat) (start : Z) : M unit :=
  match fuel with
  | O => hang
  | S fuel' =>
      do cur <- getBestBlock n ;
      if uint64_sub cur start <? MinConfirm (config c)
      then waitDepth n fuel' start
      else ret tt
  end.

(** [waitForConfirmed]. *)
Definition waitForConfirmed (n : nat) (hash : string) : M (option Receipt) :=
  do start <- getBestBlock n ;
  do _ <- waitDepth n n start ;
  do (_, receipt) <-
     Retry n (fun _ : option Receipt =>
                do r <- TransactionReceipt hash ;
                match r with
                | Ok rc => ret (None, Some rc)
                | Err e => ret (Some e, None)
                end) None ;
  ret receipt.

(** ** Submission *)

(** The closure that the five submitting functions pass to [retry.Retry];
    the captured [tx] and [txErr] are the local state.  An error whose
    text contains "execution reverted" ends the retries by returning
    [nil], and [txErr] keeps it. *)
Definition submitAttempt (call : M (result string))
    (_ : option string * option string)
    : M (option string * (option string * option string)) :=
  do r <- call ;
  match r with
  | Ok tx => ret (None, (Some tx, None))
  | Err e =>
      if strings_Contains e "execution reverted"
      then ret (None, (None, Some e))
      else ret (Some e, (None, Some e))
  end.

(** The common tail of the submitting functions: the error of the last
    attempt, or the confirmed receipt. *)
Definition afterSubmit (n : nat) (st : option string * option string)
    : M (option Receipt * option string) :=
  match st with
  | (_, Some e) => ret (None, Some e)
  | (Some tx, None) =>
      do receipt <- waitForConfirmed n tx ; ret (receipt, None)
  | (None, None) => panic "nil pointer dereference"
  end.

(** [invokeInterchain]. *)
Definition invokeInterchain (n : nat) (srcFullID : string) (index_ : Z)
    (destAddr : string) (reqType : Z) (callFunc : string)
    (args : list bytes) (txStatus : Z) (multiSign : list bytes)
    (encrypt : bool) : M (option Receipt * option string) :=
  do (_, st) <-
     Retry n (submitAttempt
                (transact (InvokeInterchain_call (mode c) srcFullID destAddr
                             index_ reqType callFunc args txStatus
                             multiSign encrypt)))
           (None, None) ;
  afterSubmit n st.

(** [InvokeMultiInterchain]. *)
Definition InvokeMultiInterchain (n : nat) (srcFullID : string) (index_ : Z)
    (destAddr : string) (reqType : Z) (callFunc : string)
    (args : list (list bytes)) (txStatus : Z) (multiSign : list bytes)
    (encrypt : bool) : M (option Receipt * option string) :=
  do (_, st) <-
     Retry n (submitAttempt
                (transact (InvokeMultiInterchain_call (mode c) srcFullID
                             destAddr index_ reqType callFunc args txStatus
                             multiSign encrypt)))
           (None, None) ;
  afterSubmit n st.

(** [invokeReceipt]. *)
Definition invokeReceipt (n : nat) (srcAddr dstFullID : string)
    (index_ reqType : Z) (results : list (list bytes)) (txStatus : Z)
    (multiSign : list bytes) : M (option Receipt * option string) :=
  do (_, st) <-
     Retry n (submitAttempt
                (transact (InvokeReceipt_call (mode c) srcAddr dstFullID
                             index_ reqType results txStatus multiSign)))
           (None, None) ;
  afterSubmit n st.

(** [InvokeMultiReceipt]. *)
Definition InvokeMultiReceipt (n : nat) (srcAddr destFullID : string)
    (index_ reqType : Z) (results : list (list bytes))
    (multiStatus : list bool) (txStatus : Z) (multiSign : list bytes)
    : M (option Receipt * option string) :=
  do (_, st) <-
     Retry n (submitAttempt
                (transact (InvokeMultiReceipt_call (mode c) srcAddr
                             destFullID index_ reqType results multiStatus
                             txStatus multiSign)))
           (None, None) ;
  afterSubmit n st.

(** ** The entry points *)

(** [c.GetChainID]. *)
Definition GetChainID : M (result (string * string)) :=
  fun w =>
    match chainid_answers w with
    | [] => (Hangs, record (GetChainID_call (mode c)) w)
    | a :: rest =>
        (Returns a, with_chainid rest (record (GetChainID_call (mode c)) w))
    end.

(** [c.GetOutMessage]: the parsing of the service pair and the conversion
    of the event are an answer of the world. *)
Definition GetOutMessage (servicePair : string) (idx : Z) : M (result IBTP) :=
  fun w =>
    match outmsg_answers w with
    | [] => (Hangs, record (GetOutMessage_call servicePair idx) w)
    | a :: rest =>
        (Returns a,
         with_outmsg rest (record (GetOutMessage_call servicePair idx) w))
    end.

(** The capacity of [c.reqCh]: [make(chan *pb.GetDataRequest, 1024)]. *)
Definition reqCh_cap : nat := 1024.

(** [c.reqCh <- req]: the request is buffered while the channel has room;
    on a full channel the send blocks, and nothing in the run receives. *)
Definition send (r : OffChainReq) : M unit :=
  fun w =>
    if (length (reqCh w) <? reqCh_cap)%nat
    then (Returns tt, enqueue r w)
    else (Hangs, w).

Definition SubmitIBTPErr : string := "SubmitIBTP tx execution failed".
Definition SubmitReceiptErr : string := "SubmitReceipt tx execution failed".
Definition formatErr : string :=
  "format error for IBTP carrying multiple transactions".

(** The tail shared by the two branches of [SubmitReceipt] and by
    [SubmitIBTPBatch]: [ret] starts as [{Status: true}]; an error of the
    invocation and an unsuccessful receipt clear the status and fill the
    message. *)
Definition report (failed : string)
    (r : option Receipt * option string)
    : M (option SubmitIBTPResponse * option string) :=
  match r with
  | (_, Some e) => ret (Some (mkResponse false e), None)
  | (None, None) => panic "nil pointer dereference"
  | (Some receipt, None) =>
      if negb (ReceiptStatus receipt =? ReceiptStatusSuccessful)
      then ret (Some (mkResponse false failed), None)
      else ret (Some (mkResponse true ""), None)
  end.

(** The tail shared by the two branches of [SubmitIBTP]: the same, with the
    logger calls of these branches.  After an error of the invocation comes
    [logger.Warn("SubmitIBTP:", ret.Status, ret.Message)], after a
    successful receipt
    [logger.Info("SubmitIBTP:", ret.Status, ret.Message, "txHash: ", receipt.TxHash)]:
    in both the first key is the bool [ret.Status]. *)
Definition reportIBTP (r : option Receipt * option string)
    : M (option SubmitIBTPResponse * option string) :=
  match r with
  | (_, Some e) =>
      do _ <- logger_log [(LogBool false, LogString e)] ;
      ret (Some (mkResponse false e), None)
  | (None, None) => panic "nil pointer dereference"
  | (Some receipt, None) =>
      if negb (ReceiptStatus receipt =? ReceiptStatusSuccessful)
      then ret (Some (mkResponse false SubmitIBTPErr), None)
      else
        do _ <- logger_log [(LogBool true, LogString "");
                            (LogString "txHash: ",
                             LogHash (ReceiptTxHash receipt))] ;
        ret (Some (mkResponse true ""), None)
  end.

(** The loop of [SubmitIBTP] that cuts [content.Args[2:]] into groups of
    [num]: [for i := 2; i < len(content.Args); { ...; i += num }]. *)
Fixpoint groupArgs (fuel : nat) (args : list bytes) (num i : Z)
    (acc : list (list bytes)) : Outcome (list (list bytes)) :=
  match fuel with
  | O => Hangs
  | S fuel' =>
      if i <? len args then
        match slice args i (int_add i num) with
        | None => Panics "slice bounds out of range"
        | Some g => groupArgs fuel' args num (int_add i num) (acc ++ [g])
        end
      else Returns acc
  end.

(** The off-chain check at the head of [SubmitIBTP]; [Some e] is the
    early [return nil, err]. *)
Definition offChainCheckIBTP (from : string) (index_ : Z) (serviceID : string)
    (content : Content) : M (option string) :=
  if strings_EqualFold serviceID (OffChainAddr (config c)) then
    if CheckInterchainOffChain D content then
      do r <- GetChainID ;
      match r with
      | Err e => ret (Some e)
      | Ok (bxhID, chainID) =>
          do a1 <- index (Args content) 1 ;
          do _ <- send (mkOffChainReq index_
                          (bxhID +:+ ":" +:+ chainID +:+ ":" +:+ serviceID)
                          from a1) ;
          ret None
      end
    else ret None
  else ret None.

(** [SubmitIBTP]. *)
Definition SubmitIBTP (n : nat) (from : string) (index_ : Z)
    (serviceID : string) (ibtpType : Z) (content : Content)
    (proof : BxhProof) (isEncrypted : bool)
    : M (option SubmitIBTPResponse * option string) :=
  do early <- offChainCheckIBTP from index_ serviceID content ;
  match early with
  | Some e => ret (None, Some e)
  | None =>
      do a0 <- index (Args content) 0 ;
      do t <- decode a0 ;
      let typ := int64 t in
      if typ =? int64 (IBTP_Multi D) then
        let lenArgs := len (Args content) - 2 in
        do a1 <- index (Args content) 1 ;
        do v <- decode a1 ;
        let num := int64 v in
        match int_rem lenArgs num with
        | None => panic "integer divide by zero"
        | Some r =>
            if negb (r =? 0)
            then ret (Some (mkResponse true ""), Some formatErr)
            else
              do groups <- lift (groupArgs (S (length (Args content)))
                                   (Args content) num 2 []) ;
              do r <- InvokeMultiInterchain n from index_ serviceID
                        (uint64 ibtpType) (Func content) groups
                        (uint64 (TxStatus proof)) (MultiSign proof)
                        isEncrypted ;
              reportIBTP r
        end
      else
        do rest <- lift (match slice (Args content) 1 (len (Args content)) with
                         | Some s => Returns s
                         | None => Panics "slice bounds out of range"
                         end) ;
        do r <- invokeInterchain n from index_ serviceID (uint64 ibtpType)
                  (Func content) rest (uint64 (TxStatus proof))
                  (MultiSign proof) isEncrypted ;
        reportIBTP r
  end.

(** The off-chain check at the head of [SubmitReceipt]. *)
Definition offChainCheckReceipt (to : string) (index_ : Z) (serviceID : string)
    (result_ : Result) : M (option string) :=
  if strings_EqualFold serviceID (OffChainAddr (config c)) then
    do r <- GetChainID ;
    match r with
    | Err e => ret (Some e)
    | Ok (bxhID, chainID) =>
        let from := bxhID +:+ ":" +:+ chainID +:+ ":" +:+ serviceID in
        do m <- GetOutMessage (from +:+ "-" +:+ to) index_ ;
        match m with
        | Err e => ret (Some e)
        | Ok ibtp =>
            match CheckReceiptOffChain D ibtp result_ with
            | Err e => ret (Some e)
            | Ok needOffChain =>
                if needOffChain then
                  let results := map ResData (Data result_) in
                  do r0 <- index results 0 ;
                  do r00 <- index r0 0 ;
                  do _ <- send (mkOffChainReq index_ from to r00) ;
                  ret None
                else ret None
            end
        end
    end
  else ret None.

(** The routing condition of [SubmitReceipt]. *)
Definition multiReceiptRoute (result_ : Result) (proof : BxhProof) : bool :=
  (1 <? len (MultiStatus result_))
  || ((len (MultiStatus result_) =? 0)
      && negb (TxStatus proof =? TransactionStatus_BEGIN D)).


(** [SubmitReceipt]. *)
Definition SubmitReceipt (n : nat) (to : string) (index_ : Z)
    (serviceID : string) (ibtpType : Z) (result_ : Result)
    (proof : BxhProof) : M (option SubmitIBTPResponse * option string) :=
  do early <- offChainCheckReceipt to index_ serviceID result_ ;
  match early with
  | Some e => ret (None, Some e)
  | None =>
      let results := map ResData (Data result_) in
      if multiReceiptRoute result_ proof then
        do r <- InvokeMultiReceipt n serviceID to index_ (uint64 ibtpType)
                  results (MultiStatus result_) (uint64 (TxStatus proof))
                  (MultiSign proof) ;
        report SubmitReceiptErr r
      else
        do r <- invokeReceipt n serviceID to index_ (uint64 ibtpType)
                  results (uint64 (TxStatus proof)) (MultiSign proof) ;
        report SubmitReceiptErr r
  end.

(** The first loop of [SubmitIBTPBatch]: per message, the function name,
    the arguments without the leading type tag, the type and the proof. *)
Fixpoint batchColumns (idx : nat) (content : list Content)
    (ibtpType : list Z) (proof : list BxhProof)
    : Outcome (list string * list (list bytes) * list Z * list Z
               * list (list bytes)) :=
  match content with
  | [] => Returns ([], [], [], [], [])
  | ct :: more =>
      match slice (Args ct) 1 (len (Args ct)), ibtpType !! idx, proof !! idx with
      | None, _, _ => Panics "slice bounds out of range"
      | Some _, None, _ => Panics "index out of range"
      | Some _, Some _, None => Panics "index out of range"
      | Some a, Some t, Some p =>
          match batchColumns (S idx) more ibtpType proof with
          | Returns (callFunc, args, typ, txStatus, sign) =>
              Returns (Func ct :: callFunc, a :: args, uint64 t :: typ,
                       uint64 (TxStatus p) :: txStatus, MultiSign p :: sign)
          | Panics msg => Panics msg
          | Hangs => Hangs
          end
      end
  end.

(** [SubmitIBTPBatch]; the call goes through [c.session], which is nil in
    direct mode. *)
Definition SubmitIBTPBatch (n : nat) (from : list string) (index_ : list Z)
    (serviceID : list string) (ibtpType : list Z) (content : list Content)
    (proof : list BxhProof) (isEncrypted : list bool)
    : M (option SubmitIBTPResponse * option string) :=
  do cols <- lift (batchColumns 0 content ibtpType proof) ;
  let '(callFunc, args, typ, txStatus, sign) := cols in
  do (_, st) <-
     Retry n (submitAttempt
                (match mode c with
                 | Relay =>
                     transact (InvokeInterchains_call from serviceID index_
                                 typ callFunc args txStatus sign isEncrypted)
                 | Direct => panic "nil pointer dereference"
                 end))
           (None, None) ;
  match st with
  | (_, Some e) => ret (Some (mkResponse false e), None)
  | (None, None) => panic "nil pointer dereference"
  | (Some tx, None) =>
      do receipt <- waitForConfirmed n tx ;
      report SubmitIBTPErr (receipt, None)
  end.

End WithClient.

(** ** Vocabulary of the submission properties *)

(** The world after [k] attempts of [call] that used up the answers before
    [rest]. *)
Definition attempts (call : Call) (k : nat) (rest : list (result string))
    (w : World) : World :=
  mkWorld rest (block_answers w) (receipt_answers w) (chainid_answers w)
          (outmsg_answers w) (trace w ++ replicate k call) (reqCh w).

(** The text of the error marks a rejection by the contract. *)
Definition reverted (e : string) : bool :=
  strings_Contains e "execution reverted".


(** What an invoke function returned is a failure: an error, or a receipt
    whose status is not the successful one. *)
Definition failed_submission (r : option Receipt * option string) : Prop :=
  snd r <> None
  \/ exists rc, fst r = Some rc /\ ReceiptStatus rc <> ReceiptStatusSuccessful.


(** A height poll. *)
Definition is_poll (call : Call) : Prop :=
  match call with
  | BlockNumber_call _ => True
  | _ => False
  end.

(** The first [k] groups of [num] elements of a list. *)
Fixpoint chunks {A} (k num : nat) (l : list A) : list (list A) :=
  match k with
  | O => []
  | S k' => take num l :: chunks k' num (drop num l)
  end.

(** A computation whose calls all satisfy [P], however it ends. *)
Definition emits_only {A} (P : Call -> Prop) (m : M A) : Prop :=
  forall w, exists calls,
    trace (snd (m w)) = trace w ++ calls /\ Forall P calls.

End Client.

(* ===================================================================== *)
(** * client.go: reassembly of off-chain data *)
(* ===================================================================== *)

Module OffChain.

Import Go pb.

(** What the function takes from outside the modelled sources: the enum
    [pb.GetDataResponse_Type] (the success value and the [String] method)
    and [filepath.Join]. *)
Record Deps := mkDeps {
  DATA_GET_SUCCESS : Z;
  Type_String : Z -> string;
  filepath_Join : string -> string -> string
}.

(** An operation on the file system. *)
Inductive FileOp : Type :=
| OpenFile_op (path : string)
| Open_op (path : string)
| ReadAll_op (path : string)
| Write_op (path : string) (data : bytes).

(** The file system: the content of each file; the operations that fail,
    with their error ([write_error content data]: the number of bytes
    that are written all the same, and the error); the operations
    performed so far, oldest first. *)
Record FS := mkFS {
  files : gmap string bytes;
  open_error : string -> option string;
  read_error : string -> option string;
  write_error : bytes -> bytes -> option (nat * string);
  ops : list FileOp
}.

Definition log (o : FileOp) (fs : FS) : FS :=
  mkFS (files fs) (open_error fs) (read_error fs) (write_error fs)
       (ops fs ++ [o]).

Definition store (path : string) (content : bytes) (fs : FS) : FS :=
  mkFS (<[path := content]> (files fs)) (open_error fs) (read_error fs)
       (write_error fs) (ops fs).

Abbreviation M := (Go.M FS).

(** [os.OpenFile(path, O_CREATE|O_WRONLY|O_APPEND, perm)]: the file is
    created empty when it does not exist, and kept when it does. *)
Definition os_OpenFile (path : string) : M (result string) :=
  fun fs =>
    match open_error fs path with
    | Some e => (Returns (Err e), log (OpenFile_op path) fs)
    | None =>
        match files fs !! path with
        | Some _ => (Returns (Ok path), log (OpenFile_op path) fs)
        | None => (Returns (Ok path), store path [] (log (OpenFile_op path) fs))
        end
    end.

(** [os.Open(path)]. *)
Definition os_Open (path : string) : M (result string) :=
  fun fs =>
    match open_error fs path with
    | Some e => (Returns (Err e), log (Open_op path) fs)
    | None =>
        match files fs !! path with
        | Some _ => (Returns (Ok path), log (Open_op path) fs)
        | None =>
            (Returns (Err ("open " +:+ path +:+ ": no such file or directory")),
             log (Open_op path) fs)
        end
    end.

(** [ioutil.ReadAll(f)] on a file just opened. *)
Definition ioutil_ReadAll (f : string) : M (result bytes) :=
  fun fs =>
    match read_error fs f with
    | Some e => (Returns (Err e), log (ReadAll_op f) fs)
    | None =>
        match files fs !! f with
        | Some content => (Returns (Ok content), log (ReadAll_op f) fs)
        | None => (Returns (Err "file already closed"), log (ReadAll_op f) fs)
        end
    end.

(** [f.Write(data)] on a file opened with [O_APPEND]. *)
Definition file_Write (f : string) (data : bytes) : M (result Z) :=
  fun fs =>
    let content := default [] (files fs !! f) in
    match write_error fs content data with
    | Some (k, e) =>
        (Returns (Err e),
         store f (content ++ take k data) (log (Write_op f data) fs))
    | None =>
        (Returns (Ok (len data)),
         store f (content ++ data) (log (Write_op f data) fs))
    end.

Section WithDeps.

Variable D : Deps.
Variable OffChainPath : string.

(** The name of shard [i]:
    [fmt.Sprintf("%s-%s-%d-%d-%d", From, To, Index, i, ShardSize)]. *)
Definition shardName (response : GetDataResponse) (tag : ShardTag) (i : Z)
    : string :=
  RespFrom response +:+ "-" +:+ RespTo response +:+ "-"
  +:+ fmt_d (RespIndex response) +:+ "-" +:+ fmt_d i +:+ "-"
  +:+ fmt_d (ShardSize tag).

Definition shardPath (response : GetDataResponse) (tag : ShardTag) (i : Z)
    : string :=
  filepath_Join D (string_of_bytes (RespData response)) (shardName response tag i).

(** The loop [for i := uint64(1); i <= ShardSize; i++] from the value
    [i] of its counter on. *)
Fixpoint shardLoop (fuel : nat) (response : GetDataResponse) (tag : ShardTag)
    (mf : string) (i : Z) : M (option string) :=
  match fuel with
  | O => hang
  | S fuel' =>
      if i <=? ShardSize tag then
        do o <- os_Open (shardPath response tag i) ;
        match o with
        | Err e => ret (Some e)
        | Ok sf =>
            do r <- ioutil_ReadAll sf ;
            match r with
            | Err e => ret (Some e)
            | Ok data =>
                do wr <- file_Write mf data ;
                match wr with
                | Err e => ret (Some e)
                | Ok _ => shardLoop fuel' response tag mf (uint64_add i 1)
                end
            end
        end
      else ret None
  end.

(** [SubmitOffChainData]; [now] is the text of
    [time.Now().Format("2006.01.02-15:04:05")].  The result is the
    returned error, [None] for [nil]. *)
Definition SubmitOffChainData (fuel : nat) (now : string)
    (response : GetDataResponse) : M (option string) :=
  if RespType response =? DATA_GET_SUCCESS D then
    let name := RespMsg response +:+ "-" +:+ now in
    let savePath := filepath_Join D OffChainPath name in
    (* defer mf.Close() and defer sf.Close() change no content; the loop
       condition reads response.ShardTag.ShardSize, a nil tag panics there *)
    do o <- os_OpenFile savePath ;
    match o with
    | Err e => ret (Some e)
    | Ok mf =>
        match RespShardTag response with
        | None => panic "nil pointer dereference"
        | Some tag => shardLoop fuel response tag mf 1
        end
    end
  else
    ret (Some (Type_String D (RespType response) +:+ ":" +:+ RespMsg response)).

(** ** Vocabulary of the reassembly properties *)

(** The output file of a response. *)
Definition savePath (now : string) (response : GetDataResponse) : string :=
  filepath_Join D OffChainPath (RespMsg response +:+ "-" +:+ now).

(** The operations of a full iteration on shard [i] with bytes [data]. *)
Definition shardOps (response : GetDataResponse) (tag : ShardTag) (mf : string)
    (d : Z -> bytes) (i : Z) : list FileOp :=
  [Open_op (shardPath response tag i); ReadAll_op (shardPath response tag i);
   Write_op mf (d i)].

(** The output after the shards [1..k]: what it held before, then their
    bytes in order. *)
Definition written (old : bytes) (d : Z -> bytes) (k : Z) : bytes :=
  old ++ concat (map d (seqZ 1 k)).

(** Shard [i] is a file other than the output, it opens and reads as
    [d i]. *)
Definition shardReadable (fs : FS) (response : GetDataResponse) (tag : ShardTag) (mf : string)
    (d : Z -> bytes) (i : Z) : Prop :=
  shardPath response tag i <> mf
  /\ open_error fs (shardPath response tag i) = None
  /\ read_error fs (shardPath response tag i) = None
  /\ files fs !! shardPath response tag i = Some (d i).

(** Shard [i] is readable and its bytes are appended without error. *)
Definition shardGood (fs : FS) (response : GetDataResponse) (tag : ShardTag) (mf : string)
    (old : bytes) (d : Z -> bytes) (i : Z) : Prop :=
  shardReadable fs response tag mf d i
  /\ write_error fs (written old d (i - 1)) (d i) = None.

(** The iteration on shard [i] fails with [e] after [m] of its operations
    and leaves [k] more bytes in the output: the open fails, the file is
    missing, the read fails, or the write fails. *)
Definition shardFails (fs : FS) (response : GetDataResponse) (tag : ShardTag) (mf : string)
    (old : bytes) (d : Z -> bytes) (i : Z) (e : string) (m k : nat) : Prop :=
  (m = 1%nat /\ k = 0%nat /\ open_error fs (shardPath response tag i) = Some e)
  \/ (m = 1%nat /\ k = 0%nat
      /\ shardPath response tag i <> mf
      /\ open_error fs (shardPath response tag i) = None
      /\ files fs !! shardPath response tag i = None
      /\ e = "open " +:+ shardPath response tag i +:+ ": no such file or directory")
  \/ (m = 2%nat /\ k = 0%nat
      /\ shardPath response tag i <> mf
      /\ open_error fs (shardPath response tag i) = None
      /\ is_Some (files fs !! shardPath response tag i)
      /\ read_error fs (shardPath response tag i) = Some e)
  \/ (m = 3%nat
      /\ shardReadable fs response tag mf d i
      /\ (k <= length (d i))%nat
      /\ write_error fs (written old d (i - 1)) (d i) = Some (k, e)).

(** The file system after the output was opened and the shards [1..j] were
    appended. *)
Definition afterShards (fs : FS) (response : GetDataResponse) (tag : ShardTag) (mf : string)
    (old : bytes) (d : Z -> bytes) (j : Z) : FS :=
  mkFS (<[mf := written old d j]> (files fs)) (open_error fs) (read_error fs)
       (write_error fs)
       (ops fs ++ OpenFile_op mf :: flat_map (shardOps response tag mf d) (seqZ 1 j)).

End WithDeps.

End OffChain.

(* ===================================================================== *)
(** * The header pool: listener and poster loops *)
(* ===================================================================== *)

Module HeaderPool.

Import Go.

(** [types.Header]: the block number and the rest of the header. *)
Record Header := mkHeader {
  Number : Z;
  Rest : string
}.

(** The constant [defaultCap], the capacity of the two channels and of the
    buffer of a pool. *)
Definition defaultCap : nat := 20.

(** [headerPool]; a channel is the queue of the values sent and not yet
    received, at most [defaultCap] of them. *)
Record headerPool := mkPool {
  batchCh : list (list Header);
  recvHeaderCh : list Header;
  headersSet : list Header;
  currentNum : Z
}.

(** [newHeaderPool]. *)
Definition newHeaderPool (currentNum_ : Z) : headerPool :=
  mkPool [] [] [] currentNum_.

(** [headerPool.append]. *)
Definition append (b : headerPool) (header : Header) : headerPool :=
  mkPool (batchCh b) (recvHeaderCh b) (headersSet b ++ [header]) (currentNum b).

(** The part of the client that the two loops work on: the pool, the
    outbound channel [metaC] (the [Meta] field of each [pb.UpdateMeta]
    sent), and the calls made to [filterLog] and to [HeaderByNumber]. *)
Record State := mkState {
  pool : headerPool;
  metaC : list bytes;
  filterLog_calls : list (list Header);
  header_calls : list Z
}.

(** The case of a [select] that fires. *)
Inductive PosterEvent : Type :=
| Received
| PosterTick
| PosterDone.

(** What a loop does after one case: [select] again, or return. *)
Inductive Next : Type := Continue | Return.

Section WithNode.

(** [json.Marshal] on a batch of headers; the constant [Threshold]; the
    node's answer to [HeaderByNumber]. *)
Variable json_Marshal : list Header -> result bytes.
Variable Threshold : Z.
Variable HeaderByNumber : Z -> result Header.

(** [data, _ := json.Marshal(batch)]: the error is dropped, the data is
    then nil. *)
Definition marshalled (batch : list Header) : bytes :=
  match json_Marshal batch with
  | Ok data => data
  | Err _ => []
  end.

(** One iteration of the loop of [postHeaders]. *)
Definition postHeaders_step (ev : PosterEvent) (s : State) : Next * State :=
  match ev with
  | Received =>
      match recvHeaderCh (pool s) with
      | [] => (Continue, s)
      | header :: queued =>
          let p := mkPool (batchCh (pool s)) queued (headersSet (pool s))
                          (currentNum (pool s)) in
          (Continue,
           mkState (append p header) (metaC s) (filterLog_calls s)
                   (header_calls s))
      end
  | PosterTick =>
      if negb (len (headersSet (pool s)) =? 0) then
        let batch := headersSet (pool s) in
        let p := mkPool (batchCh (pool s)) (recvHeaderCh (pool s)) []
                        (currentNum (pool s)) in
        let data := marshalled batch in
        (Continue,
         mkState p (metaC s ++ [data]) (filterLog_calls s ++ [batch])
                 (header_calls s))
      else (Continue, s)
  | PosterDone => (Return, s)
  end.

(** [postHeaders] along the cases that fire, in order. *)
Fixpoint postHeaders (evs : list PosterEvent) (s : State) : State :=
  match evs with
  | [] => s
  | ev :: evs' =>
      match postHeaders_step ev s with
      | (Continue, s') => postHeaders evs' s'
      | (Return, s') => s'
      end
  end.

(** The loop [for i := currentNum + 1; i <= latestHeight-Threshold; i++]
    of [listenHeader] from the value [i] of its counter on.  The send
    [recvHeaderCh <- header] blocks on a full channel: the tick, taken by
    itself, then does not return, the header in hand is not queued and the
    height of the pool is not advanced. *)
Fixpoint fetchHeaders (fuel : nat) (upper i : Z) (s : State)
    : Outcome Next * State :=
  match fuel with
  | O => (Hangs, s)
  | S fuel' =>
      if i <=? upper then
        let asked := int64 (currentNum (pool s)) in
        let s1 := mkState (pool s) (metaC s) (filterLog_calls s)
                          (header_calls s ++ [asked]) in
        match HeaderByNumber asked with
        | Err _ => (Returns Return, s1)
        | Ok header =>
            if (length (recvHeaderCh (pool s)) <? defaultCap)%nat then
              let p := mkPool (batchCh (pool s))
                              (recvHeaderCh (pool s) ++ [header])
                              (headersSet (pool s))
                              (uint64_add (currentNum (pool s)) 1) in
              fetchHeaders fuel' upper (uint64_add i 1)
                (mkState p (metaC s1) (filterLog_calls s1) (header_calls s1))
            else (Hangs, s1)
        end
      else (Returns Continue, s)
  end.

(** The case [<-ticker.C] of [listenHeader]; [latest] is the answer of
    the node to [BlockNumber]. *)
Definition listenHeader_tick (fuel : nat) (latest : result Z) (s : State)
    : Outcome Next * State :=
  match latest with
  | Err _ => (Returns Continue, s)
  | Ok latestHeight =>
      fetchHeaders fuel (uint64_sub latestHeight Threshold)
                   (uint64_add (currentNum (pool s)) 1) s
  end.

(** [listenHeader] along its ticks; each tick comes with the node's
    answer to [BlockNumber]. *)
Fixpoint listenHeader (fuel : nat) (ticks : list (result Z)) (s : State)
    : Outcome unit * State :=
  match ticks with
  | [] => (Returns tt, s)
  | latest :: ticks' =>
      match listenHeader_tick fuel latest s with
      | (Returns Continue, s') => listenHeader fuel ticks' s'
      | (Returns Return, s') => (Returns tt, s')
      | (Panics msg, s') => (Panics msg, s')
      | (Hangs, s') => (Hangs, s')
      end
  end.

End WithNode.

End HeaderPool.

(* ===================================================================== *)
(** * client.go: the sequence counters *)
(* ===================================================================== *)

Module Meta.

Import Go.

(** The loop [for i, did := range appchainIDs { meta[did] = indices[i] }]
    of [getMeta] from position [i] on; [indices[i]] out of range panics. *)
Fixpoint fillMeta (i : nat) (appchainIDs : list string) (indices : list Z)
    (meta : gmap string Z) : Outcome (gmap string Z) :=
  match appchainIDs with
  | [] => Returns meta
  | did :: more =>
      match indices !! i with
      | None => Panics "index out of range"
      | Some v => fillMeta (S i) more indices (<[did := v]> meta)
      end
  end.

(** [getMeta]; [getMetaFunc] is the query of the session that is passed in,
    its three results are the two lists or the error. *)
Definition getMeta {S} (getMetaFunc : M S (result (list string * list Z)))
    : M S (option (gmap string Z) * option string) :=
  do r <- getMetaFunc ;
  match r with
  | Err e => ret (None, Some e)
  | Ok (appchainIDs, indices) =>
      do meta <- lift (fillMeta 0 appchainIDs indices ∅) ;
      ret (Some meta, None)
  end.

End Meta.

(* ===================================================================== *)
(** * Vocabulary of the further properties *)
(* ===================================================================== *)

Module Runs.

Import Go pb Client.

(** The world after the height polls answered by [answers], in order, with
    [rest] the answers still to come. *)
Definition after_polls (answers rest : list (result Z)) (w : World) : World :=
  mkWorld (tx_answers w) rest (receipt_answers w) (chainid_answers w)
          (outmsg_answers w) (trace w ++ map BlockNumber_call answers) (reqCh w).

(** The world after [k] receipt queries for [hash], with [rest] the answers
    still to come. *)
Definition after_queries (hash : string) (k : nat) (rest : list (result Receipt))
    (w : World) : World :=
  mkWorld (tx_answers w) (block_answers w) rest (chainid_answers w)
          (outmsg_answers w) (trace w ++ replicate k (TransactionReceipt_call hash))
          (reqCh w).

(** The world after a confirmation that polled [polls] and asked [k] times
    for the receipt. *)
Definition confirmed (hash : string) (polls restb : list (result Z)) (k : nat)
    (restr : list (result Receipt)) (w : World) : World :=
  after_queries hash k restr (after_polls polls restb w).

(** The shape shared by the four invoke functions: the retried submission
    of [call], then the common tail. *)
Definition invoke_shape (c : Client) (n : nat) (call : Call)
    : M (option Receipt * option string) :=
  do (_, st) <- Retry n (submitAttempt (transact call)) (None, None) ;
  afterSubmit c n st.

(** What the node does with one submission that succeeds: it fails the
    attempts with the transient errors [s_transient], accepts the next one
    as transaction [s_tx], reports the height [s_start], then the heights
    [s_lows], then [s_deep], fails the receipt queries with [s_missing] and
    then hands out [s_receipt]. *)
Record Script := mkScript {
  s_transient : list string;
  s_tx : string;
  s_tx_rest : list (result string);
  s_start : Z;
  s_lows : list Z;
  s_deep : Z;
  s_block_rest : list (result Z);
  s_missing : list string;
  s_receipt : Receipt;
  s_receipt_rest : list (result Receipt)
}.

(** The world [w] is about to play the script [s] for a client with
    finality depth [MinConfirm], and [n] is fuel enough for each loop. *)
Definition plays (c : Client) (n : nat) (s : Script) (w : World) : Prop :=
  tx_answers w = map Err (s_transient s) ++ Ok (s_tx s) :: s_tx_rest s
  /\ Forall (fun x => reverted x = false) (s_transient s)
  /\ block_answers w
     = Ok (s_start s) :: map Ok (s_lows s) ++ Ok (s_deep s) :: s_block_rest s
  /\ Forall (fun x => uint64_sub x (s_start s) < MinConfirm (config c)) (s_lows s)
  /\ MinConfirm (config c) <= uint64_sub (s_deep s) (s_start s)
  /\ receipt_answers w = map Err (s_missing s) ++ Ok (s_receipt s) :: s_receipt_rest s
  /\ (length (s_transient s) < n)%nat
  /\ (length (s_lows s) < n)%nat
  /\ (length (s_missing s) < n)%nat.

(** The world after the script was played for the submission [call]. *)
Definition played (call : Call) (s : Script) (w : World) : World :=
  confirmed (s_tx s) (Ok (s_start s) :: map Ok (s_lows s) ++ [Ok (s_deep s)])
            (s_block_rest s) (S (length (s_missing s))) (s_receipt_rest s)
            (attempts call (S (length (s_transient s))) (s_tx_rest s) w).

(** The response that reports a confirmed receipt. *)
Definition outcome_of (failed : string) (rc : Receipt) : SubmitIBTPResponse :=
  if ReceiptStatus rc =? ReceiptStatusSuccessful
  then mkResponse true ""
  else mkResponse false failed.

(** [strings.Count(s, ",")]: the commas of a text. *)
Fixpoint commas (s : string) : nat :=
  match s with
  | EmptyString => 0%nat
  | String ch rest =>
      if Ascii.eqb ch Event.comma then S (commas rest) else commas rest
  end.

(** The text has no comma. *)
Definition comma_free (s : string) : Prop := commas s = 0%nat.

(** What a run on the disk leaves alone: the files other than [mf]; the
    content that [mf] has, which only grows; the operations already
    recorded; the failures of the disk. *)
Definition extends (mf : string) (fs fs' : OffChain.FS) : Prop :=
  (forall path, path <> mf -> OffChain.files fs' !! path = OffChain.files fs !! path)
  /\ (forall content, OffChain.files fs !! mf = Some content ->
        exists more, OffChain.files fs' !! mf = Some (content ++ more))
  /\ (exists done, OffChain.ops fs' = OffChain.ops fs ++ done)
  /\ OffChain.open_error fs' = OffChain.open_error fs
  /\ OffChain.read_error fs' = OffChain.read_error fs
  /\ OffChain.write_error fs' = OffChain.write_error fs.

End Runs.

(* ===================================================================== *)
(** * Sample inputs *)
(* ===================================================================== *)

Module Samples.

Import Go pb.

(** An event with three functions and two arguments. *)
Definition event : Event.BrokerThrowEvent :=
  Event.mkEvent 7 "0xto" "0xfid" "0xtid" "set,onSet,undoSet" "alice,10".

(** Off-chain: the enum with the success value 0 and a single other tag
    printed as "failure"; paths joined with a slash. *)
Definition offchain_deps : OffChain.Deps :=
  OffChain.mkDeps 0 (fun t => if t =? 0 then "success" else "failure")
                  (fun dir name => dir +:+ "/" +:+ name).

Definition failure_response : GetDataResponse :=
  mkGetDataResponse 1 "disk full" "chainA" "chainB" 3 (bytes_of_string "/in")
                    (Some (mkShardTag 2)).

Definition success_response : GetDataResponse :=
  mkGetDataResponse 0 "transfer" "chainA" "chainB" 3 (bytes_of_string "/in")
                    (Some (mkShardTag 2)).

Definition shard1 : bytes := bytes_of_string "hello ".
Definition shard2 : bytes := bytes_of_string "world".

Definition no_error : string -> option string := fun _ => None.
Definition no_write_error : bytes -> bytes -> option (nat * string) :=
  fun _ _ => None.

(** A file system that holds the two shards of [success_response]. *)
Definition two_shards : OffChain.FS :=
  OffChain.mkFS
    (<["/in/chainA-chainB-3-1-2" := shard1]>
       (<["/in/chainA-chainB-3-2-2" := shard2]> ∅))
    no_error no_error no_write_error [].

Definition shard_bytes (i : Z) : bytes := if i =? 1 then shard1 else shard2.

(** The same disk after a first reassembly of [success_response] at
    "2021.10.09-10:00:00": the output file holds both shards. *)
Definition reassembled_once : OffChain.FS :=
  OffChain.mkFS
    (<["/out/transfer-2021.10.09-10:00:00" := bytes_of_string "hello world"]>
       (OffChain.files two_shards))
    no_error no_error no_write_error [].

(** The same, the second shard missing. *)
Definition one_shard : OffChain.FS :=
  OffChain.mkFS (<["/in/chainA-chainB-3-1-2" := shard1]> ∅)
    no_error no_error no_write_error [].

(** A node that has every header, and a pool that stands at height 10. *)
Definition node (number : Z) : result HeaderPool.Header :=
  Ok (HeaderPool.mkHeader number "").

Definition pool_at_10 : HeaderPool.State :=
  HeaderPool.mkState (HeaderPool.newHeaderPool 10) [] [] [].

(** The client in relay mode with a finality depth of 5 blocks; the enum
    values [IBTP_Multi = 5] and [TransactionStatus_BEGIN = 0]; no message
    needs off-chain data. *)
Definition client_deps : Client.Deps :=
  Client.mkDeps 5 0 (fun _ => false) (fun _ _ => Ok false).

Definition relay_client : Client.Client :=
  Client.mkClient (Client.mkConfig "0xOffChain" "/data" 5) Client.Relay.

Definition good_receipt : Client.Receipt := Client.mkReceipt 1 "0xhash".

(** The node reports height 100, then height 99, and has the receipt. *)
Definition height_drops : Client.World :=
  Client.mkWorld [] [Ok 100; Ok 99] [Ok good_receipt] [] [] [] [].



(** The node accepts the submission and confirms it. *)
Definition accepting : Client.World :=
  Client.mkWorld [Ok "0xhash"] [Ok 100; Ok 105] [Ok good_receipt] [] [] [] [].

Definition proof_begin : BxhProof := mkBxhProof 0 [].
Definition proof_success : BxhProof := mkBxhProof 1 [].

Definition two_results : Result := mkResult [] [true; false].

Definition arg (s : string) : bytes := bytes_of_string s.

(** A multi-type message with group size 2 and six trailing arguments. *)
Definition multi_content : Content :=
  mkContent "" "" "transfer"
    [PutUint64 5; PutUint64 2; arg "a"; arg "b"; arg "c"; arg "d"; arg "e"; arg "f"]
    "" [] "" [].

(** A multi-type message with group size 2 and three trailing arguments. *)
Definition odd_content : Content :=
  mkContent "" "" "transfer"
    [PutUint64 5; PutUint64 2; arg "a"; arg "b"; arg "c"] "" [] "" [].

(** A multi-type message whose group size field is zero. *)
Definition zero_group_content : Content :=
  mkContent "" "" "transfer" [PutUint64 5; PutUint64 0; arg "a"] "" [] "" [].

(** A single-type message (type tag 0). *)
Definition single_content : Content :=
  mkContent "" "" "transfer" [PutUint64 0; arg "a"; arg "b"] "" [] "" [].

(** The node fails two height queries, then reports the heights 100 and
    105. *)
Definition flaky_heights : Client.World :=
  Client.mkWorld [] [Err "timeout"; Err "timeout"; Ok 100; Ok 105] [] [] [] [] [].

(** The node shows the depth at the fourth poll and has the receipt at the
    second query. *)
Definition slow_confirmation : Client.World :=
  Client.mkWorld [] [Ok 100; Ok 102; Ok 104; Ok 105; Ok 200]
                 [Err "not found"; Ok good_receipt] [] [] [] [].

(** A submission that times out once, is then accepted, and is confirmed
    at the third poll, the receipt being there at the second query. *)
Definition confirming : Client.World :=
  Client.mkWorld [Err "timeout"; Ok "0xhash"] [Ok 100; Ok 103; Ok 105]
                 [Err "not found"; Ok good_receipt] [] [] [] [].

Definition confirming_script : Runs.Script :=
  Runs.mkScript ["timeout"] "0xhash" [] 100 [103] 105 [] ["not found"]
                good_receipt [].

(** The same, the transaction having failed on the ledger: the receipt
    status is 0. *)
Definition failed_receipt : Client.Receipt := Client.mkReceipt 0 "0xhash".

Definition failing : Client.World :=
  Client.mkWorld [Err "timeout"; Ok "0xhash"] [Ok 100; Ok 103; Ok 105]
                 [Err "not found"; Ok failed_receipt] [] [] [] [].

Definition failing_script : Runs.Script :=
  Runs.mkScript ["timeout"] "0xhash" [] 100 [103] 105 [] ["not found"]
                failed_receipt [].

(** The node answers every submission with a timeout. *)
Definition never_accepting : Client.World :=
  Client.mkWorld [Err "timeout"; Err "timeout"; Err "timeout"] [] [] [] [] [] [].

(** A message without arguments. *)
Definition empty_content : Content :=
  mkContent "" "" "transfer" [] "" [] "" [].

(** A multi-type message whose group size field reads as -2. *)
Definition negative_group_content : Content :=
  mkContent "" "" "transfer"
    [PutUint64 5; PutUint64 18446744073709551614; arg "a"; arg "b"] "" [] "" [].

(** A multi-type message with group size 2 and no trailing argument. *)
Definition no_group_content : Content :=
  mkContent "" "" "transfer" [PutUint64 5; PutUint64 2] "" [] "" [].

(** Every message and every receipt needs off-chain data. *)
Definition offchain_client_deps : Client.Deps :=
  Client.mkDeps 5 0 (fun _ => true) (fun _ _ => Ok true).

Definition out_message : IBTP :=
  mkIBTP "bxh:chainA:0xoffchain" "chainB" 1 0 0 [] [].

(** The chain ID query and the out-message lookup succeed. *)
Definition chainid_up : Client.World :=
  Client.mkWorld [Ok "0xhash"] [Ok 100; Ok 105] [Ok good_receipt]
                 [Ok ("bxh", "chainA")] [Ok out_message] [] [].

(** The chain ID query succeeds and the out-message lookup fails. *)
Definition outmsg_down : Client.World :=
  Client.mkWorld [Ok "0xhash"] [Ok 100; Ok 105] [Ok good_receipt]
                 [Ok ("bxh", "chainA")] [Err "no such message"] [] [].

(** A result with one datum. *)
Definition one_datum_result : Result :=
  mkResult [mkResultRes [arg "file-7"; arg "more"]] [].

(** The client in direct mode. *)
Definition direct_client : Client.Client :=
  Client.mkClient (Client.mkConfig "0xOffChain" "/data" 5) Client.Direct.

(** A metadata query that names chainA twice, and one that returns an index
    too few. *)
Definition meta_query : Go.M unit (result (list string * list Z)) :=
  fun w => (Returns (Ok (["chainA"; "chainB"; "chainA"], [1; 2; 3; 9])), w).

Definition short_meta_query : Go.M unit (result (list string * list Z)) :=
  fun w => (Returns (Ok (["chainA"; "chainB"], [1])), w).

(** A node that has the headers below height 12 only, and one that has
    none. *)
Definition node_until_12 (number : Z) : result HeaderPool.Header :=
  if number <? 12 then Ok (HeaderPool.mkHeader number "") else Err "not found".

Definition node_without_headers (number : Z) : result HeaderPool.Header :=
  Err "not found".

Definition pool_at_0 : HeaderPool.State :=
  HeaderPool.mkState (HeaderPool.newHeaderPool 0) [] [] [].

(** A success response without shards, and one with the largest count. *)
Definition no_shard_response : GetDataResponse :=
  mkGetDataResponse 0 "transfer" "chainA" "chainB" 3 (bytes_of_string "/in")
                    (Some (mkShardTag 0)).

(** A success response without shard tag. *)
Definition untagged_response : GetDataResponse :=
  mkGetDataResponse 0 "transfer" "chainA" "chainB" 3 (bytes_of_string "/in")
                    None.

Definition max_shard_response : GetDataResponse :=
  mkGetDataResponse 0 "transfer" "chainA" "chainB" 3 (bytes_of_string "/in")
                    (Some (mkShardTag 18446744073709551615)).

End Samples.

(* ===================================================================== *)
(** * Properties of the event conversion *)
(* ===================================================================== *)

Section EventFacts.

Import Go pb Event.

Lemma fold_left_snoc_map {A B} (f : A -> B) (l : list A) (acc : list B) :
  fold_left (fun (acc : list B) a => (acc ++ [f a])%list) l acc
  = (acc ++ map f l)%list.
Proof.
  revert acc. induction l as [|a l IH]; intros acc; simpl.
  - now rewrite app_nil_r.
  - rewrite IH. now rewrite <- app_assoc.
Qed.

(** [handleArgs] turns each piece of the comma-joined text into its bytes,
    in order. *)
Lemma handleArgs_map (args : string) :
  handleArgs args = map bytes_of_string (strings_Split args comma).
Proof. unfold handleArgs. now rewrite fold_left_snoc_map. Qed.

(** C10. Whenever the conversion of an event builds a content object, its
    callback arguments [ArgsCb] and its rollback arguments [ArgsRb] are
    equal to its call arguments [Args]: each of the three is the list of
    the pieces of the one comma-joined arguments text of the event. *)
Theorem encryptPayload_args_identical (ev : BrokerThrowEvent) (content : Content) :
  encryptPayload_content ev = Ok content ->
  Args content = map bytes_of_string (strings_Split (ev_Args ev) comma)
  /\ ArgsCb content = Args content
  /\ ArgsRb content = Args content.
Proof.
  unfold encryptPayload_content.
  destruct (strings_Split (ev_Funcs ev) comma) as [|f0 [|f1 [|f2 [|f3 more]]]];
    intros H; try discriminate.
  injection H as <-. simpl. rewrite handleArgs_map. auto.
Qed.

Lemma encryptPayload_args_identical_witness :
  exists content,
    encryptPayload_content Samples.event = Ok content
    /\ Args content = [bytes_of_string "alice"; bytes_of_string "10"]
    /\ ArgsCb content = Args content
    /\ ArgsRb content = Args content.
Proof.
  eexists. split; [reflexivity|].
  split; [reflexivity|].
  apply (proj2 (encryptPayload_args_identical Samples.event _ eq_refl)).
Defined.

End EventFacts.


(* ===================================================================== *)
(** * Properties of the state monad *)
(* ===================================================================== *)

Section MonadFacts.

Import Go.

Context {S : Type}.

Lemma bind_Returns {A B} (m : M S A) (k : A -> M S B) (w w1 : S) (a : A) :
  m w = (Returns a, w1) -> bind m k w = k a w1.
Proof. intros H. unfold bind. now rewrite H. Qed.

Lemma bind_Panics {A B} (m : M S A) (k : A -> M S B) (w w1 : S) msg :
  m w = (Panics msg, w1) -> bind m k w = (Panics msg, w1).
Proof. intros H. unfold bind. now rewrite H. Qed.

Lemma bind_Hangs {A B} (m : M S A) (k : A -> M S B) (w w1 : S) :
  m w = (Hangs, w1) -> bind m k w = (Hangs, w1).
Proof. intros H. unfold bind. now rewrite H. Qed.

(** A sequence that returns went through a first part that returned. *)
Lemma bind_inv {A B} (m : M S A) (k : A -> M S B) (w w' : S) (b : B) :
  bind m k w = (Returns b, w') ->
  exists a w1, m w = (Returns a, w1) /\ k a w1 = (Returns b, w').
Proof.
  unfold bind. destruct (m w) as [[a| |] w1]; intros H; try discriminate.
  now exists a, w1.
Qed.

End MonadFacts.

(* ===================================================================== *)
(** * Properties of the off-chain reassembly *)
(* ===================================================================== *)

Section OffChainFacts.

Import Go pb OffChain.

Variable D : Deps.
Variable OffChainPath : string.

(** C8. A response whose outcome tag is not the success value leaves the
    file system and the record of file operations untouched, and the error
    returned is the text of the tag, a colon, and the message; with the tag
    text "failure" and the message "disk full" it is "failure:disk full". *)
Theorem SubmitOffChainData_failure_tag (fuel : nat) (now : string)
    (response : GetDataResponse) (fs : FS) :
  RespType response <> DATA_GET_SUCCESS D ->
  SubmitOffChainData D OffChainPath fuel now response fs
  = (Returns (Some (Type_String D (RespType response) +:+ ":" +:+ RespMsg response)),
     fs)
  /\ (Type_String D (RespType response) = "failure" ->
      RespMsg response = "disk full" ->
      SubmitOffChainData D OffChainPath fuel now response fs
      = (Returns (Some "failure:disk full"), fs)).
Proof.
  intros Hne. unfold SubmitOffChainData.
  destruct (Z.eqb_spec (RespType response) (DATA_GET_SUCCESS D)) as [Heq|_];
    [contradiction|].
  split; [reflexivity|].
  intros -> ->. reflexivity.
Qed.

End OffChainFacts.

Lemma SubmitOffChainData_failure_tag_witness :
  OffChain.SubmitOffChainData Samples.offchain_deps "/out" 0 "2021.10.09-10:00:00"
    Samples.failure_response Samples.two_shards
  = (Go.Returns (Some "failure:disk full"), Samples.two_shards).
Proof.
  apply (SubmitOffChainData_failure_tag Samples.offchain_deps "/out" 0
           "2021.10.09-10:00:00" Samples.failure_response Samples.two_shards).
  - simpl. discriminate.
  - reflexivity.
  - reflexivity.
Defined.

Section OffChainLoop.

Import Go pb OffChain.

Variable D : Deps.
Variable OffChainPath : string.
Variable response : GetDataResponse.
Variable tag : ShardTag.
Variable mf : string.
Variable old : bytes.
Variable d : Z -> bytes.

Lemma seqZ_snoc (j : Z) : 0 <= j -> seqZ 1 (j + 1) = seqZ 1 j ++ [j + 1].
Proof.
  intros Hj. rewrite seqZ_app by lia. f_equal.
  unfold seqZ. simpl. f_equal. lia.
Qed.

Lemma written_succ (j : Z) :
  0 <= j -> written old d (j + 1) = written old d j ++ d (j + 1).
Proof.
  intros Hj. unfold written.
  rewrite seqZ_snoc by lia. rewrite map_app, concat_app. simpl.
  now rewrite app_nil_r, app_assoc.
Qed.

Lemma shardOps_succ (j : Z) :
  0 <= j ->
  flat_map (shardOps D response tag mf d) (seqZ 1 (j + 1))
  = flat_map (shardOps D response tag mf d) (seqZ 1 j)
    ++ shardOps D response tag mf d (j + 1).
Proof.
  intros Hj. rewrite seqZ_snoc by lia. rewrite flat_map_app. reflexivity.
Qed.

Lemma uint64_add_small (i : Z) :
  0 <= i -> i + 1 < two64 -> uint64_add i 1 = i + 1.
Proof.
  intros H0 H1. unfold uint64_add, uint64. apply Z.mod_small. lia.
Qed.

Lemma os_Open_ok (fs : FS) (path : string) (content : bytes) :
  open_error fs path = None -> files fs !! path = Some content ->
  os_Open path fs = (Returns (Ok path), log (Open_op path) fs).
Proof. intros H1 H2. unfold os_Open. now rewrite H1, H2. Qed.

Lemma ioutil_ReadAll_ok (fs : FS) (path : string) (content : bytes) :
  read_error fs path = None -> files fs !! path = Some content ->
  ioutil_ReadAll path fs = (Returns (Ok content), log (ReadAll_op path) fs).
Proof. intros H1 H2. unfold ioutil_ReadAll. now rewrite H1, H2. Qed.

Lemma file_Write_ok (fs : FS) (f : string) (content data : bytes) :
  files fs !! f = Some content -> write_error fs content data = None ->
  file_Write f data fs
  = (Returns (Ok (len data)), store f (content ++ data) (log (Write_op f data) fs)).
Proof. intros H1 H2. unfold file_Write. rewrite H1. cbn. now rewrite H2. Qed.

Lemma file_Write_fail (fs : FS) (f : string) (content data : bytes) n e :
  files fs !! f = Some content -> write_error fs content data = Some (n, e) ->
  file_Write f data fs
  = (Returns (Err e), store f (content ++ take n data) (log (Write_op f data) fs)).
Proof. intros H1 H2. unfold file_Write. rewrite H1. cbn. now rewrite H2. Qed.

(** One iteration on a good shard. *)
Lemma shardLoop_good_step (fs : FS) (fuel : nat) (j : Z) :
  0 <= j -> j + 1 <= ShardSize tag -> ShardSize tag < two64 - 1 ->
  shardGood D fs response tag mf old d (j + 1) ->
  shardLoop D (S fuel) response tag mf (j + 1) (afterShards D fs response tag mf old d j)
  = shardLoop D fuel response tag mf (j + 2) (afterShards D fs response tag mf old d (j + 1)).
Proof.
  intros Hj Hle Hmax [[Hne [Hopen [Hread Hfile]]] Hwrite].
  replace (j + 1 - 1) with j in Hwrite by lia.
  cbn [shardLoop].
  destruct (Z.leb_spec (j + 1) (ShardSize tag)) as [_|]; [|lia].
  erewrite bind_Returns; cycle 1.
  { apply os_Open_ok with (content := d (j + 1)); [exact Hopen|].
    cbn. rewrite lookup_insert_ne by congruence. exact Hfile. }
  cbv beta iota. erewrite bind_Returns; cycle 1.
  { apply ioutil_ReadAll_ok; [exact Hread|].
    cbn. rewrite lookup_insert_ne by congruence. exact Hfile. }
  cbv beta iota. erewrite bind_Returns; cycle 1.
  { apply file_Write_ok with (content := written old d j); [|exact Hwrite].
    cbn. now rewrite lookup_insert_eq. }
  cbv beta iota. rewrite uint64_add_small by (unfold two64 in *; lia).
  replace (j + 1 + 1) with (j + 2) by lia.
  f_equal. unfold afterShards, store, log. cbn.
  rewrite insert_insert_eq. rewrite written_succ by lia.
  rewrite shardOps_succ by lia. unfold shardOps.
  f_equal. rewrite <- !app_assoc. reflexivity.
Qed.


(** The iterations on the good shards [j+1 .. j+k], from the state after
    [j] shards. *)
Lemma shardLoop_good_prefix (fs : FS) (k : nat) :
  forall (j : Z) (fuel : nat),
    0 <= j -> j + Z.of_nat k <= ShardSize tag ->
    ShardSize tag < two64 - 1 ->
    (forall i, j < i <= j + Z.of_nat k -> shardGood D fs response tag mf old d i) ->
    shardLoop D (k + fuel) response tag mf (j + 1) (afterShards D fs response tag mf old d j)
    = shardLoop D fuel response tag mf (j + Z.of_nat k + 1)
        (afterShards D fs response tag mf old d (j + Z.of_nat k)).
Proof.
  induction k as [|k IH]; intros j fuel Hj Hle Hmax Hgood.
  - cbn [Nat.add]. now rewrite Z.add_0_r.
  - cbn [Nat.add]. rewrite shardLoop_good_step; try lia.
    + replace (j + 2) with ((j + 1) + 1) by lia.
      rewrite IH; try lia.
      * f_equal; [lia | f_equal; lia].
      * intros i Hi. apply Hgood. lia.
    + apply Hgood. lia.
Qed.

(** Opening the output: it exists afterwards and holds what it held. *)
Lemma os_OpenFile_start (fs : FS) :
  open_error fs mf = None -> old = default [] (files fs !! mf) ->
  os_OpenFile mf fs = (Returns (Ok mf), afterShards D fs response tag mf old d 0).
Proof.
  intros Hopen Hold. unfold os_OpenFile, afterShards, written. rewrite Hopen.
  cbn [seqZ]. change (seqZ 1 0) with (@nil Z). cbn [map concat flat_map].
  rewrite app_nil_r.
  destruct (files fs !! mf) as [content|] eqn:Hfile; cbn in Hold; subst old.
  - unfold log. cbn. now rewrite insert_id.
  - reflexivity.
Qed.

(** The loop ends without error once the counter is past the last shard. *)
Lemma shardLoop_done (fs : FS) (fuel : nat) (i : Z) :
  ShardSize tag < i ->
  shardLoop D (S fuel) response tag mf i fs = (Returns None, fs).
Proof.
  intros Hi. cbn [shardLoop].
  destruct (Z.leb_spec i (ShardSize tag)); [lia|reflexivity].
Qed.

Ltac same_fs :=
  unfold ret, store, log, afterShards; cbn;
  rewrite ?insert_insert_eq, ?app_nil_r;
  repeat (f_equal; []); rewrite <- ?app_assoc; try reflexivity.

(** The iteration on a failing shard returns its error. *)
Lemma shardLoop_fail_step (fs : FS) (fuel : nat) (j : Z) (e : string) (m n : nat) :
  0 <= j -> j + 1 <= ShardSize tag ->
  shardFails D fs response tag mf old d (j + 1) e m n ->
  shardLoop D (S fuel) response tag mf (j + 1) (afterShards D fs response tag mf old d j)
  = (Returns (Some e),
     mkFS (<[mf := written old d j ++ take n (d (j + 1))]> (files fs))
          (open_error fs) (read_error fs) (write_error fs)
          (ops fs ++ OpenFile_op mf
             :: flat_map (shardOps D response tag mf d) (seqZ 1 j)
             ++ take m (shardOps D response tag mf d (j + 1)))).
Proof.
  intros Hj Hle Hfail. cbn [shardLoop].
  destruct (Z.leb_spec (j + 1) (ShardSize tag)) as [_|]; [|lia].
  destruct Hfail as [(-> & -> & Hopen)
                    |[(-> & -> & Hne & Hopen & Hfile & ->)
                    |[(-> & -> & Hne & Hopen & [content Hfile] & Hread)
                    |(-> & [Hne [Hopen [Hread Hfile]]] & Hn & Hwrite)]]].
  - unfold bind, os_Open. cbn [open_error afterShards]. rewrite Hopen.
    same_fs.
  - unfold bind, os_Open. cbn [open_error afterShards files]. rewrite Hopen.
    rewrite lookup_insert_ne by congruence. rewrite Hfile.
    same_fs.
  - erewrite bind_Returns; cycle 1.
    { apply os_Open_ok with (content := content); [exact Hopen|].
      cbn. rewrite lookup_insert_ne by congruence. exact Hfile. }
    cbv beta iota. unfold bind, ioutil_ReadAll. cbn [read_error log afterShards].
    rewrite Hread. same_fs.
  - replace (j + 1 - 1) with j in Hwrite by lia.
    erewrite bind_Returns; cycle 1.
    { apply os_Open_ok with (content := d (j + 1)); [exact Hopen|].
      cbn. rewrite lookup_insert_ne by congruence. exact Hfile. }
    cbv beta iota. erewrite bind_Returns; cycle 1.
    { apply ioutil_ReadAll_ok; [exact Hread|].
      cbn. rewrite lookup_insert_ne by congruence. exact Hfile. }
    cbv beta iota. erewrite bind_Returns; cycle 1.
    { apply file_Write_fail with (content := written old d j); [|exact Hwrite].
      cbn. now rewrite lookup_insert_eq. }
    same_fs.
Qed.

End OffChainLoop.

Section OffChainReassembly.

Import Go pb OffChain.

Variable D : Deps.
Variable OffChainPath : string.

(** C7, as amended. For a response with the success outcome and a shard
    tag of size N with 1 <= N < 2^64 - 1 (N + 1 is still a [uint64]), run
    with enough fuel for N iterations:
    - when the output opens and every shard 1..N opens, reads and is written
      without error, the call returns nil; the file operations are, in order
      and for i = 1, 2, ..., N, open / read of the file named by (from, to,
      index, i, N) and one write of its bytes to the output; and the output
      holds what it held before the call (nothing for a new file; the file
      is opened for appending) followed by the bytes of shard 1, ..., shard N
      in that order;
    - when the shards 1..k are fine and the open, the read or the write of
      shard k+1 fails, that error is returned and nothing is done on the
      shards after k+1;
    - when the output cannot be opened, that error is returned and no shard
      is read. *)
Theorem SubmitOffChainData_concatenates (fuel : nat) (now : string)
    (response : GetDataResponse) (tag : ShardTag) (fs : FS) (d : Z -> bytes) :
  RespType response = DATA_GET_SUCCESS D ->
  RespShardTag response = Some tag ->
  1 <= ShardSize tag < two64 - 1 ->
  (Z.to_nat (ShardSize tag) < fuel)%nat ->
  let N := ShardSize tag in
  let mf := savePath D OffChainPath now response in
  let old := default [] (files fs !! mf) in
  (open_error fs mf = None ->
   (forall i, 1 <= i <= N -> shardGood D fs response tag mf old d i) ->
   SubmitOffChainData D OffChainPath fuel now response fs
   = (Returns None,
      mkFS (<[mf := old ++ concat (map d (seqZ 1 N))]> (files fs))
           (open_error fs) (read_error fs) (write_error fs)
           (ops fs ++ OpenFile_op mf
              :: flat_map (shardOps D response tag mf d) (seqZ 1 N))))
  /\ (open_error fs mf = None ->
      forall (k : Z) (e : string) (m n : nat),
        0 <= k < N ->
        (forall i, 1 <= i <= k -> shardGood D fs response tag mf old d i) ->
        shardFails D fs response tag mf old d (k + 1) e m n ->
        SubmitOffChainData D OffChainPath fuel now response fs
        = (Returns (Some e),
           mkFS (<[mf := (old ++ concat (map d (seqZ 1 k))) ++ take n (d (k + 1))]>
                   (files fs))
                (open_error fs) (read_error fs) (write_error fs)
                (ops fs ++ OpenFile_op mf
                   :: flat_map (shardOps D response tag mf d) (seqZ 1 k)
                   ++ take m (shardOps D response tag mf d (k + 1)))))
  /\ (forall e, open_error fs mf = Some e ->
      SubmitOffChainData D OffChainPath fuel now response fs
      = (Returns (Some e), log (OpenFile_op mf) fs)).
Proof.
  intros Htype Htag HN Hfuel N mf old.
  unfold SubmitOffChainData. rewrite Htype, Z.eqb_refl, Htag.
  fold (savePath D OffChainPath now response). fold mf.
  split; [|split].
  - intros Hopen Hgood.
    erewrite bind_Returns
      by (apply (os_OpenFile_start D response tag mf old d); [exact Hopen|reflexivity]).
    cbv beta iota.
    replace fuel with (Z.to_nat N + S (fuel - Z.to_nat N - 1))%nat by lia.
    change 1 with (0 + 1) at 1.
    rewrite (shardLoop_good_prefix D response tag mf old d fs (Z.to_nat N));
      try (unfold N; lia).
    + rewrite shardLoop_done by (unfold N; lia).
      replace (0 + Z.of_nat (Z.to_nat N)) with N by (unfold N; lia).
      reflexivity.
    + intros i Hi. apply Hgood. unfold N. lia.
  - intros Hopen k e m n Hk Hgood Hfail.
    erewrite bind_Returns
      by (apply (os_OpenFile_start D response tag mf old d); [exact Hopen|reflexivity]).
    cbv beta iota.
    replace fuel with (Z.to_nat k + S (fuel - Z.to_nat k - 1))%nat
      by (unfold N in Hk; lia).
    change 1 with (0 + 1) at 1.
    rewrite (shardLoop_good_prefix D response tag mf old d fs (Z.to_nat k));
      try (unfold N in Hk; lia).
    + replace (0 + Z.of_nat (Z.to_nat k)) with k by lia.
      apply shardLoop_fail_step; try (unfold N in Hk; lia). exact Hfail.
    + intros i Hi. apply Hgood. lia.
  - intros e Hopen. unfold bind, os_OpenFile. now rewrite Hopen.
Qed.

End OffChainReassembly.

Lemma SubmitOffChainData_concatenates_witness :
  exists fs',
    OffChain.SubmitOffChainData Samples.offchain_deps "/out" 3 "2021.10.09-10:00:00"
      Samples.success_response Samples.two_shards
    = (Go.Returns None, fs')
    /\ OffChain.files fs' !! "/out/transfer-2021.10.09-10:00:00"
       = Some (Go.bytes_of_string "hello world")
    /\ OffChain.ops fs'
       = [OffChain.OpenFile_op "/out/transfer-2021.10.09-10:00:00";
          OffChain.Open_op "/in/chainA-chainB-3-1-2";
          OffChain.ReadAll_op "/in/chainA-chainB-3-1-2";
          OffChain.Write_op "/out/transfer-2021.10.09-10:00:00" Samples.shard1;
          OffChain.Open_op "/in/chainA-chainB-3-2-2";
          OffChain.ReadAll_op "/in/chainA-chainB-3-2-2";
          OffChain.Write_op "/out/transfer-2021.10.09-10:00:00" Samples.shard2].
Proof.
  eexists. split; [|split].
  - apply (proj1 (SubmitOffChainData_concatenates Samples.offchain_deps "/out" 3
                    "2021.10.09-10:00:00" Samples.success_response
                    (pb.mkShardTag 2) Samples.two_shards Samples.shard_bytes
                    eq_refl eq_refl ltac:(cbn; unfold Go.two64; lia)
                    ltac:(cbn; lia))).
    + reflexivity.
    + intros i Hi. cbn in Hi.
      assert (i = 1 \/ i = 2) as [-> | ->] by lia;
        (split; [split; [discriminate|repeat split]|]; reflexivity).
  - reflexivity.
  - reflexivity.
Defined.

(** C7, the claim as stated fails here: the output file of the response
    exists already and holds "hello world" (a first reassembly of the same
    response within the second of the time stamp).  The call returns nil,
    and the output holds "hello worldhello world", which is not the
    concatenation of shard 1 and shard 2. *)
Lemma SubmitOffChainData_appends_to_existing_output :
  let run :=
    OffChain.SubmitOffChainData Samples.offchain_deps "/out" 3 "2021.10.09-10:00:00"
      Samples.success_response Samples.reassembled_once in
  fst run = Go.Returns None
  /\ OffChain.files (snd run) !! "/out/transfer-2021.10.09-10:00:00"
     = Some (Go.bytes_of_string "hello worldhello world")
  /\ Go.bytes_of_string "hello worldhello world"
     <> (Samples.shard1 ++ Samples.shard2)%list.
Proof.
  cbv zeta. split; [|split]; [vm_compute; reflexivity|vm_compute; reflexivity|].
  vm_compute. discriminate.
Qed.

(** The second of two shards is missing: the first shard is appended, the
    open of the second fails, and its error is returned. *)
Example SubmitOffChainData_missing_shard :
  let run :=
    OffChain.SubmitOffChainData Samples.offchain_deps "/out" 3 "2021.10.09-10:00:00"
      Samples.success_response Samples.one_shard in
  fst run
  = Go.Returns (Some "open /in/chainA-chainB-3-2-2: no such file or directory")
  /\ OffChain.files (snd run) !! "/out/transfer-2021.10.09-10:00:00"
     = Some Samples.shard1
  /\ OffChain.ops (snd run)
     = [OffChain.OpenFile_op "/out/transfer-2021.10.09-10:00:00";
        OffChain.Open_op "/in/chainA-chainB-3-1-2";
        OffChain.ReadAll_op "/in/chainA-chainB-3-1-2";
        OffChain.Write_op "/out/transfer-2021.10.09-10:00:00" Samples.shard1;
        OffChain.Open_op "/in/chainA-chainB-3-2-2"].
Proof. cbv zeta. split; [|split]; vm_compute; reflexivity. Qed.

(* ===================================================================== *)
(** * Properties of the header pool *)
(* ===================================================================== *)

Section HeaderPoolFacts.

Import Go HeaderPool.

Variable json_Marshal : list Header -> result bytes.

Lemma postHeaders_step_emits (ev : PosterEvent) (s : State) :
  exists batches,
    metaC (snd (postHeaders_step json_Marshal ev s))
    = metaC s ++ map (marshalled json_Marshal) batches
    /\ filterLog_calls (snd (postHeaders_step json_Marshal ev s))
       = filterLog_calls s ++ batches
    /\ Forall (fun batch => batch <> []) batches.
Proof.
  destruct ev; cbn.
  - exists []. destruct (recvHeaderCh (pool s)); cbn; now rewrite !app_nil_r.
  - destruct (headersSet (pool s)) as [|h batch] eqn:Hset; cbn.
    + exists []. cbn. now rewrite !app_nil_r.
    + exists [h :: batch]. cbn. repeat split. now constructor.
  - exists []. cbn. now rewrite !app_nil_r.
Qed.

(** C6. On the poster loop: a tick with an empty buffer changes nothing, in
    particular it sends nothing on the metadata channel; a tick with a
    non-empty buffer sends the serialised buffer as one batch and leaves the
    buffer empty; and along every run of the loop, what is sent on the
    metadata channel is the serialisation of batches none of which is
    empty. *)
Theorem postHeaders_batches_nonempty :
  (forall bc rc cur meta fl hc,
      postHeaders_step json_Marshal PosterTick
        (mkState (mkPool bc rc [] cur) meta fl hc)
      = (Continue, mkState (mkPool bc rc [] cur) meta fl hc))
  /\ (forall bc rc h batch cur meta fl hc,
         postHeaders_step json_Marshal PosterTick
           (mkState (mkPool bc rc (h :: batch) cur) meta fl hc)
         = (Continue,
            mkState (mkPool bc rc [] cur)
                    (meta ++ [marshalled json_Marshal (h :: batch)])
                    (fl ++ [h :: batch]) hc))
  /\ (forall evs s,
         exists batches,
           metaC (postHeaders json_Marshal evs s)
           = metaC s ++ map (marshalled json_Marshal) batches
           /\ filterLog_calls (postHeaders json_Marshal evs s)
              = filterLog_calls s ++ batches
           /\ Forall (fun batch => batch <> []) batches).
Proof.
  split; [reflexivity|]. split; [reflexivity|].
  induction evs as [|ev evs IH]; intros s.
  - exists []. cbn. now rewrite !app_nil_r.
  - cbn [postHeaders].
    destruct (postHeaders_step_emits ev s) as (b1 & Hm1 & Hf1 & Hne1).
    destruct (postHeaders_step json_Marshal ev s) as [[|] s1]; cbn in Hm1, Hf1.
    + destruct (IH s1) as (b2 & Hm2 & Hf2 & Hne2).
      exists (b1 ++ b2). rewrite Hm2, Hf2, Hm1, Hf1.
      rewrite map_app, <- !app_assoc. repeat split.
      now apply Forall_app.
    + exists b1. auto.
Qed.

Variable Threshold : Z.
Variable HeaderByNumber : Z -> result Header.

Lemma int64_small (z : Z) : 0 <= z < two63 -> int64 z = z.
Proof.
  intros Hz. unfold int64, uint64, two64, two63 in *.
  rewrite Z.mod_small by lia.
  destruct (Z.ltb_spec z (2 ^ 63)); [reflexivity|lia].
Qed.

(** The heights that the loop of a tick asks for: with [k] iterations to
    go, the pool at [cur] and room for [k] more headers on the receiving
    channel, it asks for [cur], [cur+1], ..., [cur+k-1], queues the headers
    it gets for them in that order, and leaves the pool at [cur + k]. *)
Lemma fetchHeaders_asks_from_currentNum (k : nat) :
  forall (fuel : nat) (cur : Z) bc rc hs meta fl hc (headers : list Header),
    0 <= cur -> cur + Z.of_nat k < two63 ->
    (length rc + k <= defaultCap)%nat ->
    Forall2 (fun number header => HeaderByNumber number = Ok header)
            (seqZ cur (Z.of_nat k)) headers ->
    fetchHeaders HeaderByNumber (k + S fuel) (cur + Z.of_nat k) (cur + 1)
      (mkState (mkPool bc rc hs cur) meta fl hc)
    = (Returns Continue,
       mkState (mkPool bc (rc ++ headers) hs (cur + Z.of_nat k)) meta fl
               (hc ++ seqZ cur (Z.of_nat k))).
Proof.
  assert (H63 : two63 = 9223372036854775808) by reflexivity.
  induction k as [|k IH];
    intros fuel cur bc rc hs meta fl hc headers Hc Hk Hcap Hall.
  - cbn in Hall. inversion Hall; subst. cbn [Nat.add fetchHeaders].
    rewrite Z.add_0_r.
    destruct (Z.leb_spec (cur + 1) cur); [lia|].
    cbn. now rewrite !app_nil_r.
  - rewrite seqZ_cons in Hall by lia.
    inversion Hall as [|? header ? more Hhead Hrest]; subst.
    cbn [Nat.add fetchHeaders].
    destruct (Z.leb_spec (cur + 1) (cur + Z.of_nat (S k))); [|lia].
    cbn [pool currentNum metaC filterLog_calls header_calls batchCh
         recvHeaderCh headersSet].
    assert (Hcur : 0 <= cur < two63) by lia.
    rewrite (int64_small cur Hcur). rewrite Hhead.
    replace (length rc <? defaultCap)%nat with true
      by (symmetry; apply Nat.ltb_lt; lia).
    assert (Hadd : forall z, 0 <= z <= two63 -> uint64_add z 1 = z + 1).
    { intros z Hz. unfold uint64_add, uint64, two64 in *.
      apply Z.mod_small. lia. }
    rewrite !Hadd by lia.
    replace (cur + Z.of_nat (S k)) with ((cur + 1) + Z.of_nat k) by lia.
    rewrite (IH fuel (cur + 1) bc (rc ++ [header]) hs meta fl (hc ++ [cur]) more);
      try lia.
    + rewrite (seqZ_cons cur) by lia.
      replace (Z.succ cur) with (cur + 1) by lia.
      replace (Z.pred (cur + 1 + Z.of_nat k - cur)) with (Z.of_nat k) by lia.
      replace (Z.pred (Z.of_nat (S k))) with (Z.of_nat k) by lia.
      now rewrite <- !app_assoc.
    + rewrite length_app. cbn [length]. lia.
    + replace (Z.succ cur) with (cur + 1) in Hrest by lia.
      replace (Z.pred (Z.of_nat (S k))) with (Z.of_nat k) in Hrest by lia.
      exact Hrest.
Qed.

End HeaderPoolFacts.

(** C5, on the code. With the pool at height 10, the threshold 6 and the
    latest height 18, the heights from currentNum+1 to latestHeight -
    Threshold are 11 and 12; the tick asks the node for the headers 10 and
    11, queues these two, and leaves the pool at 12: the header asked for in
    each iteration is the one at [currentNum], not the one at the height of
    the iteration. *)
Theorem listenHeader_tick_asks_currentNum :
  HeaderPool.listenHeader_tick 6 Samples.node 3 (Go.Ok 18) Samples.pool_at_10
  = (Go.Returns HeaderPool.Continue,
     HeaderPool.mkState
       (HeaderPool.mkPool [] [HeaderPool.mkHeader 10 ""; HeaderPool.mkHeader 11 ""]
                          [] 12)
       [] [] [10; 11])
  /\ seqZ (10 + 1) (Go.uint64_sub 18 6 - 10) = [11; 12].
Proof. split; reflexivity. Qed.

(* ===================================================================== *)
(** * Properties of the submission and confirmation paths *)
(* ===================================================================== *)

Section RetryFacts.

Import Go pb Client.

(** An attempt with a transient error is followed by another attempt. *)
Lemma Retry_submit_transient (call : Call) (n : nat) (e : string)
    (more : list (result string)) st (w : World) :
  tx_answers w = Err e :: more -> reverted e = false ->
  Retry (S n) (submitAttempt (transact call)) st w
  = Retry n (submitAttempt (transact call)) (None, Some e)
      (attempts call 1 more w).
Proof.
  intros Hans Hrev. cbn [Retry]. unfold bind at 1.
  unfold submitAttempt at 1. unfold bind at 1. unfold transact at 1.
  rewrite Hans. fold (reverted e). rewrite Hrev. reflexivity.
Qed.


(** An accepted attempt is the last attempt. *)
Lemma Retry_submit_accepted (call : Call) (n : nat) (tx : string)
    (more : list (result string)) st (w : World) :
  tx_answers w = Ok tx :: more ->
  Retry (S n) (submitAttempt (transact call)) st w
  = (Returns (None, (Some tx, None)), attempts call 1 more w).
Proof.
  intros Hans. cbn [Retry]. unfold bind at 1.
  unfold submitAttempt at 1. unfold bind at 1. unfold transact at 1.
  rewrite Hans. reflexivity.
Qed.

Lemma attempts_attempts (call : Call) (j k : nat) r1 r2 (w : World) :
  attempts call k r2 (attempts call j r1 w) = attempts call (j + k) r2 w.
Proof.
  unfold attempts. cbn. f_equal.
  rewrite <- app_assoc. f_equal. symmetry. apply replicate_add.
Qed.


End RetryFacts.

Section SubmissionFacts.

Import Go pb Client.

Variable D : Deps.
Variable c : Client.

Lemma slice_tail {A} (a0 : A) (more : list A) :
  slice (a0 :: more) 1 (len (a0 :: more)) = Some more.
Proof.
  unfold slice, len. cbn [length].
  destruct (Z.leb_spec 0 1); [|lia].
  destruct (Z.leb_spec 1 (Z.of_nat (S (length more)))); [|lia].
  destruct (Z.leb_spec (Z.of_nat (S (length more))) (Z.of_nat (S (length more))));
    [|lia].
  cbn [andb]. f_equal. change (Z.to_nat 1) with 1%nat. cbn [drop].
  replace (Z.to_nat (Z.of_nat (S (length more)) - 1)) with (length more) by lia.
  apply firstn_all.
Qed.

Lemma index_Returns {A} (s : list A) (i : nat) (a : A) (w : World) :
  s !! i = Some a -> index s i w = (Returns a, w).
Proof. intros H. unfold index. now rewrite H. Qed.

Lemma decode_Returns (b : bytes) (v : Z) (w : World) :
  BigEndian_Uint64 b = Some v -> decode b w = (Returns v, w).
Proof. intros H. unfold decode. now rewrite H. Qed.

(** The tail of the submitting functions on a rejection. *)
Lemma afterSubmit_rejected (n : nat) (tx : option string) (e : string) (w : World) :
  afterSubmit c n (tx, Some e) w = (Returns (None, Some e), w).
Proof. now destruct tx. Qed.

Lemma report_error (failed e : string) (rc : option Receipt) (w : World) :
  report failed (rc, Some e) w = (Returns (Some (mkResponse false e), None), w).
Proof. now destruct rc. Qed.


End SubmissionFacts.


Section SubmitIBTPFacts.

Import Go pb Client.

Variable D : Deps.
Variable c : Client.



(** What [report] hands back: never an error, and a response whose status
    is false exactly when the submission failed. *)
Lemma report_cases (failed : string) r (w w' : World) resp err :
  report failed r w = (Returns (resp, err), w') ->
  err = None
  /\ exists st msg,
       resp = Some (mkResponse st msg)
       /\ (st = false <-> failed_submission r).
Proof.
  unfold failed_submission.
  destruct r as [[rc|] [e|]]; cbn; intros H; try discriminate.
  - inversion H; subst. split; [reflexivity|]. exists false, e.
    split; [reflexivity|]. split; [left; discriminate|reflexivity].
  - destruct (Z.eqb_spec (ReceiptStatus rc) ReceiptStatusSuccessful) as [Hs|Hs];
      inversion H; subst; (split; [reflexivity|]).
    + exists true, "". split; [reflexivity|]. split; [discriminate|].
      intros [Hn|(rc' & Hrc & Hn)]; [contradiction|].
      inversion Hrc; subst. contradiction.
    + exists false, failed. split; [reflexivity|]. split; [|reflexivity].
      intros _. right. eauto.
  - inversion H; subst. split; [reflexivity|]. exists false, e.
    split; [reflexivity|]. split; [left; discriminate|reflexivity].
Qed.




(** A group size of zero makes the remainder panic. *)
Lemma SubmitIBTP_zero_group_size n from idx sid ty content proof enc a0 a1 t v w w1 :
  offChainCheckIBTP D c from idx sid content w = (Returns None, w1) ->
  Args content !! 0%nat = Some a0 ->
  BigEndian_Uint64 a0 = Some t ->
  int64 t = int64 (IBTP_Multi D) ->
  Args content !! 1%nat = Some a1 ->
  BigEndian_Uint64 a1 = Some v ->
  int64 v = 0 ->
  SubmitIBTP D c n from idx sid ty content proof enc w
  = (Panics "integer divide by zero", w1).
Proof.
  intros Hpre Ha0 Ht Hmulti Ha1 Hv Hzero.
  unfold SubmitIBTP. erewrite bind_Returns by exact Hpre. cbv beta iota.
  erewrite bind_Returns by (apply index_Returns; exact Ha0).
  erewrite bind_Returns by (apply decode_Returns; exact Ht).
  cbv zeta. rewrite Hmulti, Z.eqb_refl.
  erewrite bind_Returns by (apply index_Returns; exact Ha1).
  erewrite bind_Returns by (apply decode_Returns; exact Hv).
  rewrite Hzero. reflexivity.
Qed.

End SubmitIBTPFacts.



(** C3, on the code. A multi-type message (type tag [IBTP_Multi]) whose
    group size field decodes to 0, with one trailing argument: the count 1
    is not divisible by the group size, yet SubmitIBTP does not return the
    format error; the remainder [lenArgs % num] panics with a division by
    zero.  No call was made on the ledger session. *)
Theorem SubmitIBTP_zero_group_size_panics :
  Client.SubmitIBTP Samples.client_deps Samples.relay_client 3 "chainA" 1 "0xabc"
    0 Samples.zero_group_content Samples.proof_success false Samples.accepting
  = (Go.Panics "integer divide by zero", Samples.accepting).
Proof. reflexivity. Qed.

Section GroupFacts.

Import Go pb Client.

Lemma int_add_small (a b : Z) : 0 <= a + b < two63 -> int_add a b = a + b.
Proof.
  intros H. unfold int_add, int64, uint64, two64, two63 in *.
  rewrite Z.mod_small by lia.
  destruct (Z.ltb_spec (a + b) (2 ^ 63)); [reflexivity|lia].
Qed.

Lemma int64_range (z : Z) : - two63 <= int64 z < two63.
Proof.
  unfold int64, uint64, two64, two63.
  pose proof (Z.mod_pos_bound z (2 ^ 64) ltac:(lia)) as Hm.
  destruct (Z.ltb_spec (z mod 2 ^ 64) (2 ^ 63)); lia.
Qed.

Lemma int_add_forward (i num : Z) :
  0 <= i < two63 -> - two63 <= num < two63 ->
  i <= int_add i num -> int_add i num = i + num.
Proof.
  unfold int_add, int64, uint64, two64, two63. intros Hi Hnum Hle.
  destruct (Z_lt_le_dec (i + num) 0) as [Hneg|Hpos].
  - exfalso.
    replace ((i + num) mod 2 ^ 64) with (i + num + 2 ^ 64) in Hle
      by (apply Z.mod_unique with (q := -1); lia).
    destruct (Z.ltb_spec (i + num + 2 ^ 64) (2 ^ 63)); lia.
  - rewrite Z.mod_small in * by lia.
    destruct (Z.ltb_spec (i + num) (2 ^ 63)); lia.
Qed.

(** The grouping loop never runs out of the fuel that SubmitIBTP gives it:
    an iteration that does not panic moves the index forward. *)
Lemma groupArgs_terminates (fuel : nat) :
  forall (args : list bytes) (num i : Z) (acc : list (list bytes)),
    num <> 0 -> - two63 <= num < two63 ->
    0 <= i -> len args < two63 ->
    (Z.to_nat (len args - i) < fuel)%nat ->
    groupArgs fuel args num i acc <> Hangs.
Proof.
  induction fuel as [|fuel IH]; intros args num i acc Hnum Hrange Hi Hmax Hfuel;
    [lia|].
  cbn [groupArgs]. destruct (Z.ltb_spec i (len args)); [|discriminate].
  unfold slice.
  destruct (Z.leb_spec 0 i); [|lia].
  destruct (Z.leb_spec i (int_add i num)) as [Hle|]; [|discriminate].
  destruct (Z.leb_spec (int_add i num) (len args)); [|discriminate].
  cbn [andb].
  rewrite int_add_forward in * by lia.
  apply IH; try assumption; lia.
Qed.

(** The grouping loop of SubmitIBTP: from index [i], with [k] groups of
    [num] left before the end of the arguments, it appends exactly these
    [k] groups, in order. *)
Lemma groupArgs_chunks (k : nat) :
  forall (fuel : nat) (args : list bytes) (num i : Z) (acc : list (list bytes)),
    1 <= num -> 0 <= i ->
    i + Z.of_nat k * num = len args ->
    len args < two63 ->
    (k < fuel)%nat ->
    groupArgs fuel args num i acc
    = Returns (acc ++ chunks k (Z.to_nat num) (drop (Z.to_nat i) args)).
Proof.
  induction k as [|k IH]; intros fuel args num i acc Hnum Hi Hlen Hmax Hfuel;
    (destruct fuel as [|fuel]; [lia|]); cbn [groupArgs chunks].
  - destruct (Z.ltb_spec i (len args)); [lia|]. now rewrite app_nil_r.
  - destruct (Z.ltb_spec i (len args)); [|nia].
    rewrite int_add_small by nia.
    unfold slice.
    destruct (Z.leb_spec 0 i); [|lia].
    destruct (Z.leb_spec i (i + num)); [|lia].
    destruct (Z.leb_spec (i + num) (len args)); [|nia].
    cbn [andb].
    rewrite (IH fuel args num (i + num)); try lia; try nia.
    rewrite <- app_assoc. cbn [app].
    replace (i + num - i) with num by lia.
    replace (Z.to_nat (i + num)) with (Z.to_nat i + Z.to_nat num)%nat by lia.
    now rewrite drop_drop.
Qed.

(** [chunks] cuts a list of [k * num] elements into [k] groups of [num]
    elements whose concatenation is the list. *)
Lemma chunks_partition {A} (k num : nat) :
  forall l : list A,
    length l = (k * num)%nat ->
    length (chunks k num l) = k
    /\ Forall (fun g => length g = num) (chunks k num l)
    /\ concat (chunks k num l) = l.
Proof.
  induction k as [|k IH]; intros l Hlen; cbn [chunks].
  - cbn in Hlen. destruct l; [|discriminate]. repeat split. constructor.
  - destruct (IH (drop num l)) as (H1 & H2 & H3).
    { rewrite length_drop. lia. }
    repeat split.
    + cbn. now rewrite H1.
    + constructor; [|exact H2]. rewrite length_take. lia.
    + cbn [concat]. rewrite H3. apply take_drop.
Qed.

Variable D : Deps.
Variable c : Client.

(** X30. A multi-type message with a group size [num >= 1] that divides the
    count of trailing arguments: past the off-chain check, SubmitIBTP is one
    InvokeMultiInterchain on the [(len - 2) / num] consecutive groups of
    [num] trailing arguments, followed by the tail of SubmitIBTP on its
    result (the response for a receipt that is not successful, the logger
    call that panics otherwise). *)
Lemma SubmitIBTP_multi_groups n from idx sid ty content proof enc a0 a1 t v w w1 :
  offChainCheckIBTP D c from idx sid content w = (Returns None, w1) ->
  Args content !! 0%nat = Some a0 ->
  BigEndian_Uint64 a0 = Some t ->
  int64 t = int64 (IBTP_Multi D) ->
  Args content !! 1%nat = Some a1 ->
  BigEndian_Uint64 a1 = Some v ->
  1 <= int64 v ->
  (len (Args content) - 2) mod int64 v = 0 ->
  len (Args content) < two63 ->
  let groups := chunks (Z.to_nat ((len (Args content) - 2) / int64 v))
                       (Z.to_nat (int64 v)) (drop 2 (Args content)) in
  SubmitIBTP D c n from idx sid ty content proof enc w
  = bind (InvokeMultiInterchain c n from idx sid (uint64 ty) (Func content)
            groups (uint64 (TxStatus proof)) (MultiSign proof) enc)
         reportIBTP w1
  /\ length groups = Z.to_nat ((len (Args content) - 2) / int64 v)
  /\ Forall (fun g => len g = int64 v) groups
  /\ concat groups = drop 2 (Args content).
Proof.
  intros Hpre Ha0 Ht Hmulti Ha1 Hv Hnum Hdiv Hmax groups.
  assert (Hlen2 : 2 <= len (Args content)).
  { apply lookup_lt_Some in Ha1. unfold len. lia. }
  set (q := (len (Args content) - 2) / int64 v) in *.
  assert (Hq : len (Args content) - 2 = q * int64 v).
  { unfold q. rewrite Z.mul_comm. apply Z.div_exact; lia. }
  assert (Hq0 : 0 <= q) by (unfold q; apply Z.div_pos; lia).
  split.
  - unfold SubmitIBTP. erewrite bind_Returns by exact Hpre. cbv beta iota.
    erewrite bind_Returns by (apply index_Returns; exact Ha0).
    erewrite bind_Returns by (apply decode_Returns; exact Ht).
    cbv zeta. rewrite Hmulti, Z.eqb_refl.
    erewrite bind_Returns by (apply index_Returns; exact Ha1).
    erewrite bind_Returns by (apply decode_Returns; exact Hv).
    unfold int_rem. destruct (Z.eqb_spec (int64 v) 0); [lia|].
    rewrite Z.rem_mod_nonneg by lia. rewrite Hdiv. cbn [Z.eqb negb].
    rewrite (groupArgs_chunks (Z.to_nat q)); try lia.
    + reflexivity.
    + unfold len in *. nia.
  - destruct (chunks_partition (Z.to_nat q) (Z.to_nat (int64 v))
                (drop 2 (Args content))) as (H1 & H2 & H3).
    { rewrite length_drop. unfold len in *. nia. }
    repeat split; try assumption.
    eapply Forall_impl; [exact H2|]. intros g Hg. unfold len. cbn in Hg. lia.
Qed.

End GroupFacts.

(** The scenario of a single-type message [typeTag, a, b]: the tag is
    stripped, [a, b] is forwarded and the transaction is confirmed; on the
    successful receipt the [logger.Info] call before the return panics. *)
Example SubmitIBTP_single_strips_tag :
  Client.SubmitIBTP Samples.client_deps Samples.relay_client 3 "chainA" 1 "0xabc"
    0 Samples.single_content Samples.proof_success false Samples.accepting
  = (Go.Panics "interface conversion: interface {} is bool, not string",
     Client.mkWorld [] [] [] [] []
       [Client.InvokeInterchain_call Client.Relay "chainA" "0xabc" 1 0 "transfer"
          [Samples.arg "a"; Samples.arg "b"] 1 [] false;
        Client.BlockNumber_call (Go.Ok 100);
        Client.BlockNumber_call (Go.Ok 105);
        Client.TransactionReceipt_call "0xhash"] []).
Proof. reflexivity. Qed.

(** The scenario of a group size 2 with six trailing arguments: the one call
    made on the session carries three groups of two arguments. *)
Example SubmitIBTP_three_groups_of_two :
  Client.trace
    (snd (Client.SubmitIBTP Samples.client_deps Samples.relay_client 3 "chainA" 1
            "0xabc" 0 Samples.multi_content Samples.proof_success false
            Samples.accepting))
  = [Client.InvokeMultiInterchain_call Client.Relay "chainA" "0xabc" 1 0 "transfer"
       [[Samples.arg "a"; Samples.arg "b"]; [Samples.arg "c"; Samples.arg "d"];
        [Samples.arg "e"; Samples.arg "f"]]
       1 [] false;
     Client.BlockNumber_call (Go.Ok 100);
     Client.BlockNumber_call (Go.Ok 105);
     Client.TransactionReceipt_call "0xhash"].
Proof. reflexivity. Qed.

Section TraceFacts.

Import Go pb Client.





Lemma emits_lift {A} P (o : Outcome A) : emits_only P (lift o).
Proof. intros w. exists []. cbn. now rewrite app_nil_r. Qed.







Variable c : Client.









Variable D : Deps.




End TraceFacts.



Section ConfirmationFacts.

Import Go pb Client.

Variable c : Client.

Lemma BlockNumber_inv (r : result Z) (w w' : World) :
  BlockNumber w = (Returns r, w') ->
  trace w' = trace w ++ [BlockNumber_call r].
Proof.
  unfold BlockNumber. destruct (block_answers w); intros H; inversion H.
  reflexivity.
Qed.

Lemma TransactionReceipt_inv hash (r : result Receipt) (w w' : World) :
  TransactionReceipt hash w = (Returns r, w') ->
  trace w' = trace w ++ [TransactionReceipt_call hash].
Proof.
  unfold TransactionReceipt. destruct (receipt_answers w); intros H; inversion H.
  reflexivity.
Qed.

Lemma poll_retry_inv (n : nat) :
  forall (b0 : Z) (w w' : World) err (b : Z),
    Retry n (fun _ : Z =>
               do r <- BlockNumber ;
               match r with
               | Ok h => ret (None, h)
               | Err e => ret (Some e, 0)
               end) b0 w
    = (Returns (err, b), w') ->
    err = None
    /\ exists polls,
         trace w' = trace w ++ polls ++ [BlockNumber_call (Ok b)]
         /\ Forall is_poll polls.
Proof.
  induction n as [|n IH]; intros b0 w w' err b Hretry; cbn [Retry] in Hretry;
    [discriminate|].
  apply bind_inv in Hretry as ([err1 b1] & w2 & Hact & Hretry).
  apply bind_inv in Hact as (r & w3 & Hpoll & Hact).
  apply BlockNumber_inv in Hpoll.
  destruct r as [h0|e0]; inversion Hact; subst.
  - inversion Hretry; subst. split; [reflexivity|].
    exists []. rewrite Hpoll. split; [reflexivity|constructor].
  - apply IH in Hretry as (-> & polls & Htr & Hall). split; [reflexivity|].
    exists (BlockNumber_call (Err e0) :: polls).
    rewrite Htr, Hpoll, <- app_assoc. split; [reflexivity|].
    constructor; [exact I|exact Hall].
Qed.

(** [getBestBlock] returns the height of its last poll; the polls before it
    failed. *)
Lemma getBestBlock_inv (n : nat) :
  forall (w w' : World) (h : Z),
    getBestBlock n w = (Returns h, w') ->
    exists polls,
      trace w' = trace w ++ polls ++ [BlockNumber_call (Ok h)]
      /\ Forall is_poll polls.
Proof.
  unfold getBestBlock. intros w w' h H.
  apply bind_inv in H as ([err b] & w1 & Hretry & H).
  apply poll_retry_inv in Hretry as (-> & polls & Htr & Hall).
  inversion H; subst. eauto.
Qed.

(** The depth loop ends on a poll whose height is, in [uint64] arithmetic,
    at least [MinConfirm] past [start]. *)
Lemma waitDepth_inv (n fuel : nat) :
  forall (start : Z) (w w' : World),
    waitDepth c n fuel start w = (Returns tt, w') ->
    exists cur polls,
      trace w' = trace w ++ polls ++ [BlockNumber_call (Ok cur)]
      /\ Forall is_poll polls
      /\ MinConfirm (config c) <= uint64_sub cur start.
Proof.
  induction fuel as [|fuel IH]; intros start w w' H; cbn [waitDepth] in H;
    [discriminate|].
  apply bind_inv in H as (cur & w1 & Hbest & H).
  apply getBestBlock_inv in Hbest as (polls & Htr & Hall).
  destruct (Z.ltb_spec (uint64_sub cur start) (MinConfirm (config c))).
  - apply IH in H as (cur' & polls' & Htr' & Hall' & Hdepth).
    exists cur', (polls ++ BlockNumber_call (Ok cur) :: polls').
    rewrite Htr', Htr. repeat split.
    + rewrite <- !app_assoc. reflexivity.
    + apply Forall_app. split; [exact Hall|]. constructor; [exact I|exact Hall'].
    + exact Hdepth.
  - inversion H; subst. exists cur, polls. auto.
Qed.

(** The receipt loop queries the receipt at least once and returns one. *)
Lemma receipt_retry_inv (n : nat) (hash : string) :
  forall r0 (w w' : World) err r,
    Retry n (fun _ : option Receipt =>
               do r <- TransactionReceipt hash ;
               match r with
               | Ok rc => ret (None, Some rc)
               | Err e => ret (Some e, None)
               end) r0 w
    = (Returns (err, r), w') ->
    exists k rc,
      r = Some rc
      /\ trace w' = trace w ++ replicate (S k) (TransactionReceipt_call hash).
Proof.
  induction n as [|n IH]; intros r0 w w' err r H; cbn [Retry] in H;
    [discriminate|].
  apply bind_inv in H as ([err1 r1] & w1 & Hact & H).
  apply bind_inv in Hact as (a & w2 & Hq & Hact).
  apply TransactionReceipt_inv in Hq.
  destruct a as [rc|e]; inversion Hact; subst.
  - inversion H; subst. exists 0%nat, rc. auto.
  - apply IH in H as (k & rc & -> & Htr). exists (S k), rc.
    rewrite Htr, Hq, <- app_assoc. auto.
Qed.

(** X3. What the code guarantees about the confirmation.  A returning
    [waitForConfirmed] first polls the height until it has a start height,
    then polls until a height [cur] with [MinConfirm <= uint64(cur - start)],
    and only then queries the receipt, which it returns.  The depth is
    taken in [uint64] arithmetic: it is the number of blocks past [start]
    when [cur] is not below [start]. *)
Lemma waitForConfirmed_depth (n : nat) (hash : string) (w w' : World)
    (r : option Receipt) :
  waitForConfirmed c n hash w = (Returns r, w') ->
  exists start cur polls1 polls2 k rc,
    r = Some rc
    /\ trace w'
       = trace w ++ (polls1 ++ [BlockNumber_call (Ok start)])
         ++ (polls2 ++ [BlockNumber_call (Ok cur)])
         ++ replicate (S k) (TransactionReceipt_call hash)
    /\ Forall is_poll polls1 /\ Forall is_poll polls2
    /\ MinConfirm (config c) <= uint64_sub cur start
    /\ (0 <= start <= cur -> cur < two64 -> MinConfirm (config c) <= cur - start).
Proof.
  unfold waitForConfirmed. intros H.
  apply bind_inv in H as (start & w1 & Hstart & H).
  apply getBestBlock_inv in Hstart as (polls1 & Htr1 & Hall1).
  apply bind_inv in H as ([] & w2 & Hdepth & H).
  apply waitDepth_inv in Hdepth as (cur & polls2 & Htr2 & Hall2 & Hmin).
  apply bind_inv in H as ([err r1] & w3 & Hrc & H).
  apply receipt_retry_inv in Hrc as (k & rc & -> & Htr3).
  inversion H; subst.
  exists start, cur, polls1, polls2, k, rc.
  rewrite Htr3, Htr2, Htr1. repeat split; try assumption.
  - rewrite <- !app_assoc. reflexivity.
  - intros Hle Hcur. unfold uint64_sub, uint64 in Hmin.
    rewrite Z.mod_small in Hmin by lia. exact Hmin.
Qed.

End ConfirmationFacts.

(** C1, on the code. The node reports height 100 when the wait starts and
    height 99 at the first poll of the depth loop; the finality depth is 5.
    The loop condition subtracts in [uint64]: 99 - 100 wraps to 2^64 - 1,
    which is not below 5, so the loop ends at once and the receipt is
    queried and returned although the height has not advanced at all. *)
Theorem waitForConfirmed_returns_on_lower_height :
  Client.waitForConfirmed Samples.relay_client 3 "0xhash" Samples.height_drops
  = (Go.Returns (Some Samples.good_receipt),
     Client.mkWorld [] [] [] [] []
       [Client.BlockNumber_call (Go.Ok 100); Client.BlockNumber_call (Go.Ok 99);
        Client.TransactionReceipt_call "0xhash"] [])
  /\ 99 - 100 < Client.MinConfirm (Client.config Samples.relay_client)
  /\ Go.uint64_sub 99 100 = 18446744073709551615.
Proof. repeat split. Qed.

(* ===================================================================== *)
(** * Further properties of the confirmation *)
(* ===================================================================== *)

Section ConfirmationRuns.

Import Go pb Client Runs.

Variable c : Client.

Lemma after_polls_app (a1 a2 r1 r2 : list (result Z)) (w : World) :
  after_polls a2 r2 (after_polls a1 r1 w) = after_polls (a1 ++ a2) r2 w.
Proof.
  unfold after_polls. cbn. f_equal. now rewrite map_app, app_assoc.
Qed.

Lemma BlockNumber_answer (a : result Z) (rest : list (result Z)) (w : World) :
  block_answers w = a :: rest ->
  BlockNumber w = (Returns a, after_polls [a] rest w).
Proof. intros H. unfold BlockNumber. now rewrite H. Qed.

(** The retry loop of [getBestBlock] polls once per failed answer and once
    more for the first height. *)
Lemma poll_retry_skips_errors (errs : list string) :
  forall (n : nat) (b0 h : Z) (rest : list (result Z)) (w : World),
    block_answers w = map Err errs ++ Ok h :: rest ->
    (length errs < n)%nat ->
    Retry n (fun _ : Z =>
               do r <- BlockNumber ;
               match r with
               | Ok h => ret (None, h)
               | Err e => ret (Some e, 0)
               end) b0 w
    = (Returns (None, h), after_polls (map Err errs ++ [Ok h]) rest w).
Proof.
  induction errs as [|e errs IH]; intros n b0 h rest w Hans Hn;
    (destruct n as [|n]; [cbn in Hn; lia|]); cbn [Retry].
  - erewrite bind_Returns; cycle 1.
    { erewrite bind_Returns by (apply BlockNumber_answer; exact Hans).
      reflexivity. }
    reflexivity.
  - erewrite bind_Returns; cycle 1.
    { erewrite bind_Returns by (apply BlockNumber_answer; exact Hans).
      reflexivity. }
    cbv beta iota.
    rewrite (IH n 0 h rest); [|reflexivity|cbn in Hn; lia].
    now rewrite after_polls_app.
Qed.

(** X1. [getBestBlock] skips the failed polls: when the node fails a number
    of times and then reports height [h], it returns [h] after one poll per
    answer and leaves the later answers unused. *)
Theorem getBestBlock_skips_errors (n : nat) (errs : list string) (h : Z)
    (rest : list (result Z)) (w : World) :
  block_answers w = map Err errs ++ Ok h :: rest ->
  (length errs < n)%nat ->
  getBestBlock n w = (Returns h, after_polls (map Err errs ++ [Ok h]) rest w).
Proof.
  intros Hans Hn. unfold getBestBlock.
  erewrite bind_Returns by (apply poll_retry_skips_errors; eassumption).
  reflexivity.
Qed.

(** X2. [getBestBlock] never panics: its retry loop only ends on a
    successful poll, so the [panic(err)] after the loop is never reached,
    however the node answers and whatever the fuel. *)
Theorem getBestBlock_never_panics (n : nat) (w : World) (msg : string) :
  fst (getBestBlock n w) <> Panics msg.
Proof.
  unfold getBestBlock.
  assert (Hloop : forall b0 w0,
            match Retry n (fun _ : Z =>
                             do r <- BlockNumber ;
                             match r with
                             | Ok h => ret (None, h)
                             | Err e => ret (Some e, 0)
                             end) b0 w0 with
            | (Returns (None, _), _) | (Hangs, _) => True
            | _ => False
            end).
  { induction n as [|n IH]; intros b0 w0; cbn [Retry]; [exact I|].
    unfold bind at 1. unfold bind at 1. unfold BlockNumber at 1.
    destruct (block_answers w0) as [|[h|e] rest]; [exact I|exact I|].
    cbn. apply IH. }
  unfold bind. specialize (Hloop 0 w).
  destruct (Retry n _ 0 w) as [[[[e|] b]| |] w1]; try contradiction;
    cbn; discriminate.
Qed.

End ConfirmationRuns.

Lemma getBestBlock_skips_errors_witness :
  Client.getBestBlock 3 Samples.flaky_heights
  = (Go.Returns 100,
     Runs.after_polls [Go.Err "timeout"; Go.Err "timeout"; Go.Ok 100] [Go.Ok 105]
                      Samples.flaky_heights).
Proof.
  apply (getBestBlock_skips_errors 3 ["timeout"; "timeout"] 100 [Go.Ok 105]
           Samples.flaky_heights).
  - reflexivity.
  - cbn. lia.
Defined.

Section ConfirmationLiveness.

Import Go pb Client Runs.

Variable c : Client.

Lemma getBestBlock_first (n : nat) (h : Z) (rest : list (result Z)) (w : World) :
  block_answers w = Ok h :: rest ->
  getBestBlock (S n) w = (Returns h, after_polls [Ok h] rest w).
Proof.
  intros Hans. unfold getBestBlock.
  erewrite bind_Returns
    by (apply (poll_retry_skips_errors [] (S n) 0 h rest w);
        [exact Hans|cbn; lia]).
  reflexivity.
Qed.

(** The depth loop polls once per height that is too low and once more for
    the first height that is deep enough. *)
Lemma waitDepth_reaches (lows : list Z) :
  forall (n fuel : nat) (start h : Z) (rest : list (result Z)) (w : World),
    block_answers w = map Ok lows ++ Ok h :: rest ->
    Forall (fun x => uint64_sub x start < MinConfirm (config c)) lows ->
    MinConfirm (config c) <= uint64_sub h start ->
    (length lows < fuel)%nat ->
    waitDepth c (S n) fuel start w
    = (Returns tt, after_polls (map Ok lows ++ [Ok h]) rest w).
Proof.
  induction lows as [|x lows IH]; intros n fuel start h rest w Hans Hlow Hdeep Hfuel;
    (destruct fuel as [|fuel]; [cbn in Hfuel; lia|]); cbn [waitDepth].
  - erewrite bind_Returns by (apply getBestBlock_first; exact Hans).
    destruct (Z.ltb_spec (uint64_sub h start) (MinConfirm (config c))); [lia|].
    reflexivity.
  - inversion Hlow as [|? ? Hx Hrest]; subst.
    erewrite bind_Returns by (apply getBestBlock_first; exact Hans).
    destruct (Z.ltb_spec (uint64_sub x start) (MinConfirm (config c))); [|lia].
    rewrite (IH n fuel start h rest); try assumption.
    + now rewrite after_polls_app.
    + reflexivity.
    + cbn in Hfuel. lia.
Qed.

Lemma after_queries_app hash (j k : nat) r1 r2 (w : World) :
  after_queries hash k r2 (after_queries hash j r1 w)
  = after_queries hash (j + k) r2 w.
Proof.
  unfold after_queries. cbn. f_equal.
  rewrite <- app_assoc. f_equal. symmetry. apply replicate_add.
Qed.

(** The receipt loop asks once per failed answer and once more for the
    receipt. *)
Lemma receipt_retry_skips_errors (hash : string) (errs : list string) :
  forall (n : nat) r0 (rc : Receipt) (rest : list (result Receipt)) (w : World),
    receipt_answers w = map Err errs ++ Ok rc :: rest ->
    (length errs < n)%nat ->
    Retry n (fun _ : option Receipt =>
               do r <- TransactionReceipt hash ;
               match r with
               | Ok rc => ret (None, Some rc)
               | Err e => ret (Some e, None)
               end) r0 w
    = (Returns (None, Some rc), after_queries hash (S (length errs)) rest w).
Proof.
  induction errs as [|e errs IH]; intros n r0 rc rest w Hans Hn;
    (destruct n as [|n]; [cbn in Hn; lia|]); cbn [Retry].
  - unfold bind at 1. unfold bind at 1. unfold TransactionReceipt at 1.
    rewrite Hans. reflexivity.
  - unfold bind at 1. unfold bind at 1. unfold TransactionReceipt at 1.
    rewrite Hans. cbn [map app]. cbv beta iota.
    change (ret (Some e, None) ?w) with (Returns (Some e, @None Receipt), w).
    cbv beta iota.
    rewrite (IH n None rc rest); [|reflexivity|cbn in Hn; lia].
    apply f_equal.
    exact (after_queries_app hash 1 (S (length errs)) _ rest w).
Qed.

Lemma waitForConfirmed_reaches_depth (n : nat) (hash : string) (h0 h : Z)
    (lows : list Z) (restb : list (result Z)) (errs : list string)
    (rc : Receipt) (restr : list (result Receipt)) (w : World) :
  block_answers w = Ok h0 :: map Ok lows ++ Ok h :: restb ->
  Forall (fun x => uint64_sub x h0 < MinConfirm (config c)) lows ->
  MinConfirm (config c) <= uint64_sub h h0 ->
  receipt_answers w = map Err errs ++ Ok rc :: restr ->
  (length lows < n)%nat -> (length errs < n)%nat ->
  waitForConfirmed c n hash w
  = (Returns (Some rc),
     confirmed hash (Ok h0 :: map Ok lows ++ [Ok h]) restb
               (S (length errs)) restr w).
Proof.
  intros Hb Hlow Hdeep Hr Hn1 Hn2.
  destruct n as [|n]; [lia|].
  unfold waitForConfirmed.
  erewrite bind_Returns by (apply getBestBlock_first; exact Hb).
  erewrite bind_Returns
    by (apply (waitDepth_reaches lows n (S n) h0 h restb);
        [reflexivity|exact Hlow|exact Hdeep|exact Hn1]).
  rewrite after_polls_app.
  erewrite bind_Returns
    by (apply (receipt_retry_skips_errors hash errs (S n) None rc restr);
        [exact Hr|exact Hn2]).
  reflexivity.
Qed.

(** X4. [waitForConfirmed] returns the receipt once the node has shown the
    depth: when the node reports the start height [h0], then heights that
    are less than [MinConfirm] past it, then a height [h] that is at least
    [MinConfirm] past it (in [uint64] arithmetic), and the receipt after a
    number of failed queries, the call returns that receipt; it has polled
    each of these heights once, in order, and has asked for the receipt
    once per answer, after the last poll. *)
Theorem waitForConfirmed_returns_receipt (n : nat) (hash : string) (h0 h : Z)
    (lows : list Z) (restb : list (result Z)) (errs : list string)
    (rc : Receipt) (restr : list (result Receipt)) (w : World) :
  block_answers w = Ok h0 :: map Ok lows ++ Ok h :: restb ->
  Forall (fun x => uint64_sub x h0 < MinConfirm (config c)) lows ->
  MinConfirm (config c) <= uint64_sub h h0 ->
  receipt_answers w = map Err errs ++ Ok rc :: restr ->
  (length lows < n)%nat -> (length errs < n)%nat ->
  waitForConfirmed c n hash w
  = (Returns (Some rc),
     confirmed hash (Ok h0 :: map Ok lows ++ [Ok h]) restb
               (S (length errs)) restr w).
Proof. apply waitForConfirmed_reaches_depth. Qed.

End ConfirmationLiveness.

Lemma waitForConfirmed_returns_receipt_witness :
  Client.waitForConfirmed Samples.relay_client 3 "0xhash" Samples.slow_confirmation
  = (Go.Returns (Some Samples.good_receipt),
     Runs.confirmed "0xhash" [Go.Ok 100; Go.Ok 102; Go.Ok 104; Go.Ok 105]
                    [Go.Ok 200] 2 [] Samples.slow_confirmation).
Proof.
  apply (waitForConfirmed_returns_receipt Samples.relay_client 3 "0xhash" 100 105
           [102; 104] [Go.Ok 200] ["not found"] Samples.good_receipt []
           Samples.slow_confirmation).
  - reflexivity.
  - repeat constructor.
  - vm_compute. discriminate.
  - reflexivity.
  - cbn. lia.
  - cbn. lia.
Defined.

Lemma waitForConfirmed_depth_witness :
  exists start cur rc,
    fst (Client.waitForConfirmed Samples.relay_client 3 "0xhash" Samples.accepting)
    = Go.Returns (Some rc)
    /\ 5 <= Go.uint64_sub cur start.
Proof.
  destruct (waitForConfirmed_depth Samples.relay_client 3 "0xhash"
              Samples.accepting
              (snd (Client.waitForConfirmed Samples.relay_client 3 "0xhash"
                      Samples.accepting))
              (Some Samples.good_receipt) eq_refl)
    as (start & cur & polls1 & polls2 & k & rc & Hrc & _ & _ & _ & Hdepth & _).
  exists start, cur, rc. split.
  - rewrite <- Hrc. reflexivity.
  - exact Hdepth.
Defined.

(* ===================================================================== *)
(** * Further properties of the submission *)
(* ===================================================================== *)

Section SubmissionRuns.

Import Go pb Client Runs.

Variable D : Deps.
Variable c : Client.

(** After transient errors, the accepted attempt ends the loop with the
    transaction. *)
Lemma Retry_submit_reaches_acceptance (call : Call) (errs : list string) :
  forall (n : nat) (tx : string) (rest : list (result string)) st (w : World),
    tx_answers w = map Err errs ++ Ok tx :: rest ->
    Forall (fun x => reverted x = false) errs ->
    (length errs < n)%nat ->
    Retry n (submitAttempt (transact call)) st w
    = (Returns (None, (Some tx, None)),
       attempts call (S (length errs)) rest w).
Proof.
  induction errs as [|x errs IH]; intros n tx rest st w Hans Hall Hn;
    (destruct n as [|n]; [cbn in Hn; lia|]).
  - now apply Retry_submit_accepted.
  - inversion Hall as [|? ? Hx Hrest]; subst.
    rewrite (Retry_submit_transient call n x (map Err errs ++ Ok tx :: rest))
      by assumption.
    rewrite (IH n tx rest); try assumption.
    + now rewrite attempts_attempts.
    + reflexivity.
    + cbn in Hn. lia.
Qed.

(** While the node answers with transient errors the loop goes on: the fuel
    is used up attempt by attempt. *)
Lemma Retry_submit_keeps_trying (call : Call) (n : nat) :
  forall (errs : list string) (rest : list (result string)) st (w : World),
    tx_answers w = map Err errs ++ rest ->
    Forall (fun x => reverted x = false) errs ->
    (n <= length errs)%nat ->
    Retry n (submitAttempt (transact call)) st w
    = (Hangs, attempts call n (map Err (drop n errs) ++ rest) w).
Proof.
  induction n as [|n IH]; intros errs rest st w Hans Hall Hn.
  - cbn [Retry]. unfold hang, attempts. rewrite drop_0. cbn [replicate].
    rewrite app_nil_r, <- Hans. now destruct w.
  - destruct errs as [|x errs]; [cbn in Hn; lia|].
    inversion Hall as [|? ? Hx Hrest]; subst.
    rewrite (Retry_submit_transient call n x (map Err errs ++ rest))
      by assumption.
    rewrite (IH errs rest); try assumption.
    + now rewrite attempts_attempts.
    + reflexivity.
    + cbn in Hn. lia.
Qed.

Lemma invoke_shape_confirmed (n : nat) (call : Call) (s : Script) (w : World) :
  plays c n s w ->
  invoke_shape c n call w = (Returns (Some (s_receipt s), None), played call s w).
Proof.
  intros (Ht & Hall & Hb & Hlow & Hdeep & Hr & Hn1 & Hn2 & Hn3).
  unfold invoke_shape.
  erewrite bind_Returns
    by (apply Retry_submit_reaches_acceptance; eassumption).
  cbn [afterSubmit].
  erewrite bind_Returns
    by (apply (waitForConfirmed_reaches_depth c n (s_tx s) (s_start s)
                 (s_deep s) (s_lows s) (s_block_rest s) (s_missing s)
                 (s_receipt s) (s_receipt_rest s));
        try eassumption; reflexivity).
  reflexivity.
Qed.

Lemma report_receipt (failed : string) (rc : Receipt) (w : World) :
  report failed (Some rc, None) w = (Returns (Some (outcome_of failed rc), None), w).
Proof.
  unfold report, outcome_of.
  now destruct (ReceiptStatus rc =? ReceiptStatusSuccessful).
Qed.

Lemma reportIBTP_receipt (rc : Receipt) (w : World) :
  reportIBTP (Some rc, None) w
  = (if ReceiptStatus rc =? ReceiptStatusSuccessful
     then Panics "interface conversion: interface {} is bool, not string"
     else Returns (Some (mkResponse false SubmitIBTPErr), None),
     w).
Proof.
  unfold reportIBTP.
  now destruct (ReceiptStatus rc =? ReceiptStatusSuccessful).
Qed.

(** X5. A single-type message that the node accepts and confirms: past the
    off-chain check, SubmitIBTP strips the leading type tag, submits the
    remaining arguments with InvokeInterchain once per transient error and
    once more, and waits for the depth.  When the receipt status is not
    successful it returns a nil error with [Status = false] and the message
    "SubmitIBTP tx execution failed".  When the receipt status is
    successful it does not return: the call
    [logger.Info("SubmitIBTP:", ret.Status, ...)] before the return has the
    bool [ret.Status] where the logger asserts a key string, and panics. *)
Theorem SubmitIBTP_single_confirmed (n : nat) (from : string) (idx : Z)
    (sid : string) (ty : Z) (content : Content) (proof : BxhProof) (enc : bool)
    (a0 : bytes) (more : list bytes) (t : Z) (s : Script) (w w1 : World) :
  offChainCheckIBTP D c from idx sid content w = (Returns None, w1) ->
  Args content = a0 :: more ->
  BigEndian_Uint64 a0 = Some t ->
  int64 t <> int64 (IBTP_Multi D) ->
  plays c n s w1 ->
  SubmitIBTP D c n from idx sid ty content proof enc w
  = (if ReceiptStatus (s_receipt s) =? ReceiptStatusSuccessful
     then Panics "interface conversion: interface {} is bool, not string"
     else Returns (Some (mkResponse false SubmitIBTPErr), None),
     played (InvokeInterchain_call (mode c) from sid idx (uint64 ty)
               (Func content) more (uint64 (TxStatus proof)) (MultiSign proof)
               enc) s w1).
Proof.
  intros Hpre Hargs Ht Hsingle Hplay.
  unfold SubmitIBTP. erewrite bind_Returns by exact Hpre. cbv beta iota.
  erewrite bind_Returns by (apply index_Returns; rewrite Hargs; reflexivity).
  erewrite bind_Returns by (apply decode_Returns; exact Ht).
  cbv zeta.
  destruct (Z.eqb_spec (int64 t) (int64 (IBTP_Multi D))) as [|_];
    [contradiction|].
  rewrite Hargs at 1 2. rewrite slice_tail.
  unfold bind at 1. unfold lift at 1.
  erewrite bind_Returns
    by (apply (invoke_shape_confirmed n _ s); exact Hplay).
  apply reportIBTP_receipt.
Qed.

(** X6. A receipt that the node accepts and confirms: past the off-chain
    check, SubmitReceipt submits through the path its routing selects, once
    per transient error and once more, waits for the depth, and returns a
    nil error with [Status = true] when the receipt status is successful and
    with [Status = false] and the message "SubmitReceipt tx execution
    failed" otherwise. *)
Theorem SubmitReceipt_confirmed (n : nat) (to : string) (idx : Z) (sid : string)
    (ty : Z) (result_ : Result) (proof : BxhProof) (s : Script) (w w1 : World) :
  offChainCheckReceipt D c to idx sid result_ w = (Returns None, w1) ->
  plays c n s w1 ->
  SubmitReceipt D c n to idx sid ty result_ proof w
  = (Returns (Some (outcome_of SubmitReceiptErr (s_receipt s)), None),
     played
       (if multiReceiptRoute D result_ proof
        then InvokeMultiReceipt_call (mode c) sid to idx (uint64 ty)
               (map ResData (Data result_)) (MultiStatus result_)
               (uint64 (TxStatus proof)) (MultiSign proof)
        else InvokeReceipt_call (mode c) sid to idx (uint64 ty)
               (map ResData (Data result_)) (uint64 (TxStatus proof))
               (MultiSign proof))
       s w1).
Proof.
  intros Hpre Hplay.
  unfold SubmitReceipt. erewrite bind_Returns by exact Hpre. cbv beta iota.
  destruct (multiReceiptRoute D result_ proof);
    (erewrite bind_Returns
       by (apply (invoke_shape_confirmed n _ s); exact Hplay));
    apply report_receipt.
Qed.

(** X7. The retries have no cap: as long as the node answers the attempts
    with errors that do not mention "execution reverted", each of the four
    invoke functions makes one more attempt; with [n] attempts allowed and
    at least [n] such answers, all [n] attempts are made and the call has
    not returned. *)
Theorem invoke_retries_without_cap (n : nat) (errs : list string)
    (rest : list (result string)) (w : World) :
  tx_answers w = map Err errs ++ rest ->
  Forall (fun x => reverted x = false) errs ->
  (n <= length errs)%nat ->
  (forall src idx dest rt f args st ms enc,
      invokeInterchain c n src idx dest rt f args st ms enc w
      = (Hangs,
         attempts (InvokeInterchain_call (mode c) src dest idx rt f args st ms enc)
                  n (map Err (drop n errs) ++ rest) w))
  /\ (forall src idx dest rt f args st ms enc,
      InvokeMultiInterchain c n src idx dest rt f args st ms enc w
      = (Hangs,
         attempts (InvokeMultiInterchain_call (mode c) src dest idx rt f args st
                     ms enc)
                  n (map Err (drop n errs) ++ rest) w))
  /\ (forall src dst idx rt results st ms,
      invokeReceipt c n src dst idx rt results st ms w
      = (Hangs,
         attempts (InvokeReceipt_call (mode c) src dst idx rt results st ms)
                  n (map Err (drop n errs) ++ rest) w))
  /\ (forall src dst idx rt results multiStatus st ms,
      InvokeMultiReceipt c n src dst idx rt results multiStatus st ms w
      = (Hangs,
         attempts (InvokeMultiReceipt_call (mode c) src dst idx rt results
                     multiStatus st ms)
                  n (map Err (drop n errs) ++ rest) w)).
Proof.
  intros Hans Hall Hn.
  assert (Hshape : forall call,
            invoke_shape c n call w
            = (Hangs, attempts call n (map Err (drop n errs) ++ rest) w)).
  { intros call. unfold invoke_shape.
    erewrite bind_Hangs by (apply Retry_submit_keeps_trying; eassumption).
    reflexivity. }
  repeat split; intros; apply Hshape.
Qed.

End SubmissionRuns.

Lemma confirming_plays :
  Runs.plays Samples.relay_client 3 Samples.confirming_script Samples.confirming.
Proof.
  repeat split; try reflexivity; try (repeat constructor); try (cbn; lia).
Defined.

Lemma failing_plays :
  Runs.plays Samples.relay_client 3 Samples.failing_script Samples.failing.
Proof.
  repeat split; try reflexivity; try (repeat constructor); try (cbn; lia).
Defined.

Lemma SubmitIBTP_single_confirmed_witness :
  Client.SubmitIBTP Samples.client_deps Samples.relay_client 3 "chainA" 1
    "0xservice" 0 Samples.single_content Samples.proof_begin false
    Samples.confirming
  = (Go.Panics "interface conversion: interface {} is bool, not string",
     Runs.played
       (Client.InvokeInterchain_call Client.Relay "chainA" "0xservice" 1 0
          "transfer" [Samples.arg "a"; Samples.arg "b"] 0 [] false)
       Samples.confirming_script Samples.confirming)
  /\ Client.SubmitIBTP Samples.client_deps Samples.relay_client 3 "chainA" 1
       "0xservice" 0 Samples.single_content Samples.proof_begin false
       Samples.failing
     = (Go.Returns
          (Some (pb.mkResponse false "SubmitIBTP tx execution failed"), None),
        Runs.played
          (Client.InvokeInterchain_call Client.Relay "chainA" "0xservice" 1 0
             "transfer" [Samples.arg "a"; Samples.arg "b"] 0 [] false)
          Samples.failing_script Samples.failing).
Proof.
  split.
  - apply (SubmitIBTP_single_confirmed Samples.client_deps Samples.relay_client
             3 "chainA" 1 "0xservice" 0 Samples.single_content
             Samples.proof_begin false (Go.PutUint64 0)
             [Samples.arg "a"; Samples.arg "b"] 0 Samples.confirming_script
             Samples.confirming Samples.confirming).
    + reflexivity.
    + reflexivity.
    + reflexivity.
    + vm_compute. discriminate.
    + exact confirming_plays.
  - apply (SubmitIBTP_single_confirmed Samples.client_deps Samples.relay_client
             3 "chainA" 1 "0xservice" 0 Samples.single_content
             Samples.proof_begin false (Go.PutUint64 0)
             [Samples.arg "a"; Samples.arg "b"] 0 Samples.failing_script
             Samples.failing Samples.failing).
    + reflexivity.
    + reflexivity.
    + reflexivity.
    + vm_compute. discriminate.
    + exact failing_plays.
Defined.

Lemma SubmitReceipt_confirmed_witness :
  Client.SubmitReceipt Samples.client_deps Samples.relay_client 3 "chainB" 1
    "0xservice" 1 Samples.two_results Samples.proof_begin Samples.confirming
  = (Go.Returns (Some (pb.mkResponse true ""), None),
     Runs.played
       (Client.InvokeMultiReceipt_call Client.Relay "0xservice" "chainB" 1 1 []
          [true; false] 0 [])
       Samples.confirming_script Samples.confirming).
Proof.
  apply (SubmitReceipt_confirmed Samples.client_deps Samples.relay_client 3
           "chainB" 1 "0xservice" 1 Samples.two_results Samples.proof_begin
           Samples.confirming_script Samples.confirming Samples.confirming).
  - reflexivity.
  - exact confirming_plays.
Defined.

Lemma invoke_retries_without_cap_witness :
  Client.invokeReceipt Samples.relay_client 2 "0xservice" "chainB" 1 1 [] 0 []
    Samples.never_accepting
  = (Go.Hangs,
     Client.attempts
       (Client.InvokeReceipt_call Client.Relay "0xservice" "chainB" 1 1 [] 0 [])
       2 [Go.Err "timeout"] Samples.never_accepting).
Proof.
  apply (invoke_retries_without_cap Samples.relay_client 2
           ["timeout"; "timeout"; "timeout"] [] Samples.never_accepting).
  - reflexivity.
  - repeat constructor.
  - cbn. lia.
Defined.

Section SubmitIBTPEdges.

Import Go pb Client Runs.

Variable D : Deps.
Variable c : Client.

Lemma BigEndian_Uint64_short (b : bytes) :
  (length b < 8)%nat -> BigEndian_Uint64 b = None.
Proof.
  intros H.
  do 8 (destruct b as [|? b]; [reflexivity|]). cbn in H. lia.
Qed.

Lemma index_Panics {A} (s : list A) (i : nat) (w : World) :
  s !! i = None -> index s i w = (Panics "index out of range", w).
Proof. intros H. unfold index. now rewrite H. Qed.

Lemma decode_Panics (b : bytes) (w : World) :
  (length b < 8)%nat -> decode b w = (Panics "index out of range", w).
Proof.
  intros H. unfold decode. now rewrite BigEndian_Uint64_short.
Qed.

(** X8. A message that is too short makes SubmitIBTP panic: past the
    off-chain check, a message without arguments, a type tag of fewer than
    eight bytes, a multi-type message without a second argument, or one
    whose group size field has fewer than eight bytes ends in an index
    panic; nothing is submitted and nothing is returned. *)
Theorem SubmitIBTP_short_message_panics (n : nat) (from : string) (idx : Z)
    (sid : string) (ty : Z) (content : Content) (proof : BxhProof) (enc : bool)
    (w w1 : World) :
  offChainCheckIBTP D c from idx sid content w = (Returns None, w1) ->
  Args content = []
  \/ (exists a0, Args content !! 0%nat = Some a0 /\ (length a0 < 8)%nat)
  \/ (exists a0 t,
        Args content !! 0%nat = Some a0 /\ BigEndian_Uint64 a0 = Some t
        /\ int64 t = int64 (IBTP_Multi D)
        /\ (Args content !! 1%nat = None
            \/ exists a1, Args content !! 1%nat = Some a1 /\ (length a1 < 8)%nat)) ->
  SubmitIBTP D c n from idx sid ty content proof enc w
  = (Panics "index out of range", w1).
Proof.
  intros Hpre Hshort.
  unfold SubmitIBTP. erewrite bind_Returns by exact Hpre. cbv beta iota.
  destruct Hshort as [Hnil|[(a0 & Ha0 & Hlen)|(a0 & t & Ha0 & Ht & Hmulti & Hsecond)]].
  - erewrite bind_Panics by (apply index_Panics; rewrite Hnil; reflexivity).
    reflexivity.
  - erewrite bind_Returns by (apply index_Returns; exact Ha0).
    erewrite bind_Panics by (apply decode_Panics; exact Hlen).
    reflexivity.
  - erewrite bind_Returns by (apply index_Returns; exact Ha0).
    erewrite bind_Returns by (apply decode_Returns; exact Ht).
    cbv zeta. rewrite Hmulti, Z.eqb_refl.
    destruct Hsecond as [Hnone|(a1 & Ha1 & Hlen)].
    + erewrite bind_Panics by (apply index_Panics; exact Hnone). reflexivity.
    + erewrite bind_Returns by (apply index_Returns; exact Ha1).
      erewrite bind_Panics by (apply decode_Panics; exact Hlen).
      reflexivity.
Qed.

Lemma int64_in_range (z : Z) : - two63 <= z < two63 -> int64 z = z.
Proof.
  intros Hz. unfold int64, uint64, two64, two63 in *.
  destruct (Z_lt_le_dec z 0) as [Hneg|Hpos].
  - replace (z mod 2 ^ 64) with (z + 2 ^ 64)
      by (apply Z.mod_unique with (q := -1); lia).
    destruct (Z.ltb_spec (z + 2 ^ 64) (2 ^ 63)); lia.
  - rewrite Z.mod_small by lia.
    destruct (Z.ltb_spec z (2 ^ 63)); lia.
Qed.

(** X9. A group size that is zero or negative never leads to a
    submission when there is a trailing argument: past the off-chain check,
    such a multi-type message ends in the division panic (size zero), in the
    format error (non-zero remainder), or in a slice-bounds panic in the
    grouping loop (negative size, zero remainder); in each case no call was
    made on the session. *)
Theorem SubmitIBTP_nonpositive_group_size (n : nat) (from : string) (idx : Z)
    (sid : string) (ty : Z) (content : Content) (proof : BxhProof) (enc : bool)
    (a0 a1 : bytes) (t v : Z) (w w1 : World) :
  offChainCheckIBTP D c from idx sid content w = (Returns None, w1) ->
  Args content !! 0%nat = Some a0 ->
  BigEndian_Uint64 a0 = Some t ->
  int64 t = int64 (IBTP_Multi D) ->
  Args content !! 1%nat = Some a1 ->
  BigEndian_Uint64 a1 = Some v ->
  int64 v <= 0 ->
  2 < len (Args content) ->
  SubmitIBTP D c n from idx sid ty content proof enc w
  = (if int64 v =? 0 then Panics "integer divide by zero"
     else if Z.rem (len (Args content) - 2) (int64 v) =? 0
          then Panics "slice bounds out of range"
          else Returns (Some (mkResponse true ""), Some formatErr),
     w1).
Proof.
  intros Hpre Ha0 Ht Hmulti Ha1 Hv Hneg Hlen.
  unfold SubmitIBTP. erewrite bind_Returns by exact Hpre. cbv beta iota.
  erewrite bind_Returns by (apply index_Returns; exact Ha0).
  erewrite bind_Returns by (apply decode_Returns; exact Ht).
  cbv zeta. rewrite Hmulti, Z.eqb_refl.
  erewrite bind_Returns by (apply index_Returns; exact Ha1).
  erewrite bind_Returns by (apply decode_Returns; exact Hv).
  unfold int_rem. destruct (Z.eqb_spec (int64 v) 0) as [Hz|Hz]; [reflexivity|].
  destruct (Z.eqb_spec (Z.rem (len (Args content) - 2) (int64 v)) 0) as [Hr|Hr];
    cbn [negb]; [|reflexivity].
  cbn [groupArgs].
  destruct (Z.ltb_spec 2 (len (Args content))); [|lia].
  pose proof (int64_range v) as Hrange.
  assert (Hadd : int_add 2 (int64 v) = 2 + int64 v).
  { unfold int_add. apply int64_in_range. unfold two63 in *. lia. }
  rewrite Hadd. unfold slice.
  destruct (Z.leb_spec 2 (2 + int64 v)); [lia|].
  cbn [andb]. reflexivity.
Qed.

(** X10. A multi-type message without trailing arguments is submitted
    with no group at all: with exactly the type tag and a non-zero group
    size, past the off-chain check, SubmitIBTP is InvokeMultiInterchain on
    the empty list of groups followed by the tail of SubmitIBTP on its
    result (the response for a receipt that is not successful, the logger
    call that panics otherwise). *)
Theorem SubmitIBTP_multi_without_arguments (n : nat) (from : string) (idx : Z)
    (sid : string) (ty : Z) (content : Content) (proof : BxhProof) (enc : bool)
    (a0 a1 : bytes) (t v : Z) (w w1 : World) :
  offChainCheckIBTP D c from idx sid content w = (Returns None, w1) ->
  Args content = [a0; a1] ->
  BigEndian_Uint64 a0 = Some t ->
  int64 t = int64 (IBTP_Multi D) ->
  BigEndian_Uint64 a1 = Some v ->
  int64 v <> 0 ->
  SubmitIBTP D c n from idx sid ty content proof enc w
  = bind (InvokeMultiInterchain c n from idx sid (uint64 ty) (Func content) []
            (uint64 (TxStatus proof)) (MultiSign proof) enc)
         reportIBTP w1.
Proof.
  intros Hpre Hargs Ht Hmulti Hv Hnz.
  unfold SubmitIBTP. erewrite bind_Returns by exact Hpre. cbv beta iota.
  erewrite bind_Returns by (apply index_Returns; rewrite Hargs; reflexivity).
  erewrite bind_Returns by (apply decode_Returns; exact Ht).
  cbv zeta. rewrite Hmulti, Z.eqb_refl.
  erewrite bind_Returns by (apply index_Returns; rewrite Hargs; reflexivity).
  erewrite bind_Returns by (apply decode_Returns; exact Hv).
  rewrite Hargs. unfold int_rem.
  destruct (Z.eqb_spec (int64 v) 0); [contradiction|].
  change (len [a0; a1] - 2) with 0. rewrite Z.rem_0_l by assumption.
  reflexivity.
Qed.

Lemma send_room (r : OffChainReq) (w : World) :
  (length (reqCh w) < reqCh_cap)%nat -> send r w = (Returns tt, enqueue r w).
Proof.
  intros H. unfold send. apply Nat.ltb_lt in H. now rewrite H.
Qed.

Lemma send_full (r : OffChainReq) (w : World) :
  (reqCh_cap <= length (reqCh w))%nat -> send r w = (Hangs, w).
Proof.
  intros H. unfold send. apply Nat.ltb_ge in H. now rewrite H.
Qed.

(** X11. The off-chain check acts before the message is validated: when
    the service is the off-chain address, the content is flagged and the
    chain ID query succeeds, a multi-type message whose count of trailing
    arguments leaves a non-zero remainder is rejected with the format error,
    yet the chain ID was queried and, the request channel having room (it
    holds 1024 requests), a data request for [Args[1]] was put on it.  On a
    full request channel the send blocks after the chain ID query, and the
    message is not looked at. *)
Theorem SubmitIBTP_queues_request_before_format_check (n : nat) (from : string)
    (idx : Z) (sid : string) (ty : Z) (content : Content) (proof : BxhProof)
    (enc : bool) (a0 a1 : bytes) (t v r : Z) (bxhID chainID : string)
    (rest : list (result (string * string))) (w : World) :
  strings_EqualFold sid (OffChainAddr (config c)) = true ->
  CheckInterchainOffChain D content = true ->
  chainid_answers w = Ok (bxhID, chainID) :: rest ->
  Args content !! 0%nat = Some a0 ->
  BigEndian_Uint64 a0 = Some t ->
  int64 t = int64 (IBTP_Multi D) ->
  Args content !! 1%nat = Some a1 ->
  BigEndian_Uint64 a1 = Some v ->
  int_rem (len (Args content) - 2) (int64 v) = Some r ->
  r <> 0 ->
  let queried := with_chainid rest (record (GetChainID_call (mode c)) w) in
  ((length (reqCh w) < reqCh_cap)%nat ->
   SubmitIBTP D c n from idx sid ty content proof enc w
   = (Returns (Some (mkResponse true ""), Some formatErr),
      enqueue (mkOffChainReq idx (bxhID +:+ ":" +:+ chainID +:+ ":" +:+ sid)
                 from a1)
        queried))
  /\ ((reqCh_cap <= length (reqCh w))%nat ->
      SubmitIBTP D c n from idx sid ty content proof enc w = (Hangs, queried)).
Proof.
  intros Hfold Hneed Hchain Ha0 Ht Hmulti Ha1 Hv Hrem Hr queried.
  split; intros Hroom.
  - unfold SubmitIBTP. erewrite bind_Returns; cycle 1.
    { unfold offChainCheckIBTP. rewrite Hfold, Hneed.
      unfold bind at 1. unfold GetChainID at 1. rewrite Hchain.
      erewrite bind_Returns by (apply index_Returns; exact Ha1).
      erewrite bind_Returns by (apply send_room; exact Hroom).
      reflexivity. }
    cbv beta iota.
    erewrite bind_Returns by (apply index_Returns; exact Ha0).
    erewrite bind_Returns by (apply decode_Returns; exact Ht).
    cbv zeta. rewrite Hmulti, Z.eqb_refl.
    erewrite bind_Returns by (apply index_Returns; exact Ha1).
    erewrite bind_Returns by (apply decode_Returns; exact Hv).
    rewrite Hrem. destruct (Z.eqb_spec r 0) as [|_]; [contradiction|].
    reflexivity.
  - unfold SubmitIBTP. erewrite bind_Hangs; [reflexivity|].
    unfold offChainCheckIBTP. rewrite Hfold, Hneed.
    unfold bind at 1. unfold GetChainID at 1. rewrite Hchain.
    erewrite bind_Returns by (apply index_Returns; exact Ha1).
    erewrite bind_Hangs by (apply send_full; exact Hroom).
    reflexivity.
Qed.

End SubmitIBTPEdges.

Lemma SubmitIBTP_short_message_panics_witness :
  Client.SubmitIBTP Samples.client_deps Samples.relay_client 3 "chainA" 1
    "0xservice" 0 Samples.empty_content Samples.proof_begin false
    Samples.accepting
  = (Go.Panics "index out of range", Samples.accepting).
Proof.
  apply (SubmitIBTP_short_message_panics Samples.client_deps Samples.relay_client
           3 "chainA" 1 "0xservice" 0 Samples.empty_content Samples.proof_begin
           false Samples.accepting Samples.accepting).
  - reflexivity.
  - left. reflexivity.
Defined.

Lemma SubmitIBTP_nonpositive_group_size_witness :
  Client.SubmitIBTP Samples.client_deps Samples.relay_client 3 "chainA" 1
    "0xservice" 0 Samples.negative_group_content Samples.proof_begin false
    Samples.accepting
  = (Go.Panics "slice bounds out of range", Samples.accepting).
Proof.
  apply (SubmitIBTP_nonpositive_group_size Samples.client_deps
           Samples.relay_client 3 "chainA" 1 "0xservice" 0
           Samples.negative_group_content Samples.proof_begin false
           (Go.PutUint64 5) (Go.PutUint64 18446744073709551614) 5
           18446744073709551614 Samples.accepting Samples.accepting).
  - reflexivity.
  - reflexivity.
  - reflexivity.
  - reflexivity.
  - reflexivity.
  - reflexivity.
  - vm_compute. discriminate.
  - reflexivity.
Defined.

Lemma SubmitIBTP_multi_without_arguments_witness :
  (Client.SubmitIBTP Samples.client_deps Samples.relay_client 3 "chainA" 1
     "0xservice" 0 Samples.no_group_content Samples.proof_begin false
     Samples.accepting
   = Go.bind
       (Client.InvokeMultiInterchain Samples.relay_client 3 "chainA" 1 "0xservice"
          0 "transfer" [] 0 [] false)
       Client.reportIBTP Samples.accepting)
  /\ fst (Client.SubmitIBTP Samples.client_deps Samples.relay_client 3 "chainA" 1
             "0xservice" 0 Samples.no_group_content Samples.proof_begin false
             Samples.accepting)
     = Go.Panics "interface conversion: interface {} is bool, not string".
Proof.
  split; [|reflexivity].
  apply (SubmitIBTP_multi_without_arguments Samples.client_deps
           Samples.relay_client 3 "chainA" 1 "0xservice" 0
           Samples.no_group_content Samples.proof_begin false
           (Go.PutUint64 5) (Go.PutUint64 2) 5 2 Samples.accepting
           Samples.accepting).
  - reflexivity.
  - reflexivity.
  - reflexivity.
  - reflexivity.
  - reflexivity.
  - vm_compute. discriminate.
Defined.

Lemma SubmitIBTP_queues_request_before_format_check_witness :
  Client.SubmitIBTP Samples.offchain_client_deps Samples.relay_client 3 "chainA"
    1 "0xoffchain" 0 Samples.odd_content Samples.proof_begin false
    Samples.chainid_up
  = (Go.Returns (Some (pb.mkResponse true ""), Some Client.formatErr),
     Client.enqueue
       (Client.mkOffChainReq 1 "bxh:chainA:0xoffchain" "chainA" (Go.PutUint64 2))
       (Client.with_chainid []
          (Client.record (Client.GetChainID_call Client.Relay)
             Samples.chainid_up))).
Proof.
  apply (SubmitIBTP_queues_request_before_format_check
           Samples.offchain_client_deps Samples.relay_client 3 "chainA" 1
           "0xoffchain" 0 Samples.odd_content Samples.proof_begin false
           (Go.PutUint64 5) (Go.PutUint64 2) 5 2 1 "bxh" "chainA" []
           Samples.chainid_up).
  - reflexivity.
  - reflexivity.
  - reflexivity.
  - reflexivity.
  - reflexivity.
  - reflexivity.
  - reflexivity.
  - reflexivity.
  - reflexivity.
  - discriminate.
  - vm_compute. lia.
Defined.

Lemma SubmitIBTP_multi_groups_witness :
  (Client.SubmitIBTP Samples.client_deps Samples.relay_client 3 "chainA" 1
     "0xservice" 0 Samples.multi_content Samples.proof_begin false
     Samples.accepting
   = Go.bind
       (Client.InvokeMultiInterchain Samples.relay_client 3 "chainA" 1 "0xservice"
          0 "transfer"
          [[Samples.arg "a"; Samples.arg "b"]; [Samples.arg "c"; Samples.arg "d"];
           [Samples.arg "e"; Samples.arg "f"]]
          0 [] false)
       Client.reportIBTP Samples.accepting)
  /\ fst (Client.SubmitIBTP Samples.client_deps Samples.relay_client 3 "chainA" 1
             "0xservice" 0 Samples.multi_content Samples.proof_begin false
             Samples.accepting)
     = Go.Panics "interface conversion: interface {} is bool, not string".
Proof.
  split; [|reflexivity].
  apply (SubmitIBTP_multi_groups Samples.client_deps Samples.relay_client 3
           "chainA" 1 "0xservice" 0 Samples.multi_content Samples.proof_begin
           false (Go.PutUint64 5) (Go.PutUint64 2) 5 2 Samples.accepting
           Samples.accepting).
  - reflexivity.
  - reflexivity.
  - reflexivity.
  - reflexivity.
  - reflexivity.
  - reflexivity.
  - vm_compute. discriminate.
  - reflexivity.
  - reflexivity.
Defined.

Section BatchFacts.

Import Go pb Client Runs.

Variable c : Client.

(** The columns that the first loop of SubmitIBTPBatch builds from position
    [i] on, when every message has a type tag to strip, a type and a
    proof. *)
Lemma batchColumns_columns (content : list Content) :
  forall (i : nat) (ty : list Z) (proof : list BxhProof),
    Forall (fun ct => Args ct <> []) content ->
    (i + length content <= length ty)%nat ->
    (i + length content <= length proof)%nat ->
    batchColumns i content ty proof
    = Returns (map Func content,
               map (fun ct => drop 1 (Args ct)) content,
               map uint64 (take (length content) (drop i ty)),
               map (fun p => uint64 (TxStatus p))
                   (take (length content) (drop i proof)),
               map MultiSign (take (length content) (drop i proof))).
Proof.
  induction content as [|ct content IH]; intros i ty proof Hargs Hty Hproof.
  - reflexivity.
  - inversion Hargs as [|? ? Hct Hrest]; subst. cbn [length] in Hty, Hproof.
    cbn [batchColumns].
    destruct (Args ct) as [|a0 more] eqn:Hct0; [contradiction|].
    rewrite slice_tail.
    destruct (ty !! i) as [t|] eqn:Ht;
      [|apply lookup_ge_None in Ht; lia].
    destruct (proof !! i) as [p|] eqn:Hp;
      [|apply lookup_ge_None in Hp; lia].
    rewrite (IH (S i)) by (assumption || lia).
    cbn [map length]. rewrite Hct0. cbn [drop].
    rewrite (drop_S ty t i Ht), (drop_S proof p i Hp).
    reflexivity.
Qed.

(** X12. The columns of a batch: when every message has at least its type
    tag, and there is a type and a proof for each message, the first loop
    of SubmitIBTPBatch yields one entry per message and per column: the
    function names, the arguments without their leading tag, the types,
    the transaction statuses and the signatures, in the order of the
    messages.  When a message has no argument, or a type or a proof is
    missing, the loop panics. *)
Theorem batchColumns_per_message (content : list Content) (ty : list Z)
    (proof : list BxhProof) :
  (Forall (fun ct => Args ct <> []) content ->
   (length content <= length ty)%nat ->
   (length content <= length proof)%nat ->
   batchColumns 0 content ty proof
   = Returns (map Func content,
              map (fun ct => drop 1 (Args ct)) content,
              map uint64 (take (length content) ty),
              map (fun p => uint64 (TxStatus p)) (take (length content) proof),
              map MultiSign (take (length content) proof)))
  /\ (~ (Forall (fun ct => Args ct <> []) content
         /\ (length content <= length ty)%nat
         /\ (length content <= length proof)%nat) ->
      exists msg, batchColumns 0 content ty proof = Panics msg).
Proof.
  split.
  - intros Hargs Hty Hproof.
    rewrite (batchColumns_columns content 0 ty proof Hargs Hty Hproof).
    now rewrite !drop_0.
  - assert (Hgen : forall (l : list Content) (i : nat),
      (i <= length ty)%nat -> (i <= length proof)%nat ->
      ~ (Forall (fun ct => Args ct <> []) l
         /\ (i + length l <= length ty)%nat
         /\ (i + length l <= length proof)%nat) ->
      exists msg, batchColumns i l ty proof = Panics msg).
    { induction l as [|ct l IH]; intros i Hi1 Hi2 Hbad.
      - exfalso. apply Hbad. cbn. repeat split; try lia. constructor.
      - cbn [batchColumns].
        destruct (Args ct) as [|a0 more] eqn:Hct; [cbn; eauto|].
        rewrite slice_tail.
        destruct (ty !! i) as [t|] eqn:Ht; [|eauto].
        destruct (proof !! i) as [p|] eqn:Hp; [|eauto].
        apply lookup_lt_Some in Ht. apply lookup_lt_Some in Hp.
        destruct (IH (S i)) as [msg Hmsg]; try lia.
        + intros (Hall & H1 & H2). apply Hbad. cbn [length].
          repeat split; try lia.
          constructor; [rewrite Hct; discriminate|exact Hall].
        + rewrite Hmsg. eauto. }
    intros Hbad. apply Hgen; [lia|lia|exact Hbad].
Qed.

(** X13. SubmitIBTPBatch cannot be used in direct mode: it calls
    InvokeInterchains on [c.session], which is nil when the client was
    initialised in direct mode, so with well-formed columns the first attempt
    panics on the nil session and nothing is submitted. *)
Theorem SubmitIBTPBatch_direct_mode_panics (n : nat) (from : list string)
    (idx : list Z) (sid : list string) (ty : list Z) (content : list Content)
    (proof : list BxhProof) (enc : list bool) (w : World) :
  mode c = Direct ->
  Forall (fun ct => Args ct <> []) content ->
  (length content <= length ty)%nat ->
  (length content <= length proof)%nat ->
  SubmitIBTPBatch c (S n) from idx sid ty content proof enc w
  = (Panics "nil pointer dereference", w).
Proof.
  intros Hmode Hargs Hty Hproof. unfold SubmitIBTPBatch.
  unfold lift at 1. unfold bind at 1.
  rewrite (batchColumns_columns content 0 ty proof Hargs Hty Hproof).
  rewrite Hmode. reflexivity.
Qed.

(** X14. A batch that the node accepts and confirms: in relay mode, with
    well-formed columns, SubmitIBTPBatch makes one InvokeInterchains call
    per transient error and one more, each with a column entry per message,
    waits for the depth, and returns a nil error with [Status = true] when
    the receipt status is successful and with [Status = false] and the
    message "SubmitIBTP tx execution failed" otherwise. *)
Theorem SubmitIBTPBatch_confirmed (n : nat) (from : list string)
    (idx : list Z) (sid : list string) (ty : list Z) (content : list Content)
    (proof : list BxhProof) (enc : list bool) (s : Script) (w : World) :
  mode c = Relay ->
  Forall (fun ct => Args ct <> []) content ->
  (length content <= length ty)%nat ->
  (length content <= length proof)%nat ->
  plays c n s w ->
  SubmitIBTPBatch c n from idx sid ty content proof enc w
  = (Returns (Some (outcome_of SubmitIBTPErr (s_receipt s)), None),
     played
       (InvokeInterchains_call from sid idx
          (map uint64 (take (length content) ty))
          (map Func content)
          (map (fun ct => drop 1 (Args ct)) content)
          (map (fun p => uint64 (TxStatus p)) (take (length content) proof))
          (map MultiSign (take (length content) proof)) enc)
       s w).
Proof.
  intros Hmode Hargs Hty Hproof Hplay.
  pose proof Hplay as (Ht & Hall & Hb & Hlow & Hdeep & Hr & Hn1 & Hn2 & Hn3).
  unfold SubmitIBTPBatch. unfold lift at 1. unfold bind at 1.
  rewrite (batchColumns_columns content 0 ty proof Hargs Hty Hproof).
  rewrite Hmode. rewrite drop_0.
  erewrite bind_Returns
    by (apply Retry_submit_reaches_acceptance; eassumption).
  cbv beta iota.
  erewrite bind_Returns
    by (apply (waitForConfirmed_reaches_depth c n (s_tx s) (s_start s)
                 (s_deep s) (s_lows s) (s_block_rest s) (s_missing s)
                 (s_receipt s) (s_receipt_rest s));
        try eassumption; reflexivity).
  apply report_receipt.
Qed.

End BatchFacts.

Lemma batchColumns_per_message_witness :
  Client.batchColumns 0 [Samples.single_content; Samples.multi_content] [0; 1; 7]
    [Samples.proof_begin; Samples.proof_success]
  = Go.Returns
      (["transfer"; "transfer"],
       [drop 1 (pb.Args Samples.single_content);
        drop 1 (pb.Args Samples.multi_content)],
       [0; 1], [0; 1], [[]; []]).
Proof.
  apply (batchColumns_per_message [Samples.single_content; Samples.multi_content]
           [0; 1; 7] [Samples.proof_begin; Samples.proof_success]).
  - repeat constructor; discriminate.
  - cbn. lia.
  - cbn. lia.
Defined.

Lemma SubmitIBTPBatch_direct_mode_panics_witness :
  Client.SubmitIBTPBatch Samples.direct_client 1 ["chainA"] [1] ["0xservice"] [0]
    [Samples.single_content] [Samples.proof_begin] [false] Samples.accepting
  = (Go.Panics "nil pointer dereference", Samples.accepting).
Proof.
  apply (SubmitIBTPBatch_direct_mode_panics Samples.direct_client 0 ["chainA"]
           [1] ["0xservice"] [0] [Samples.single_content] [Samples.proof_begin]
           [false] Samples.accepting).
  - reflexivity.
  - repeat constructor; discriminate.
  - cbn. lia.
  - cbn. lia.
Defined.

Lemma SubmitIBTPBatch_confirmed_witness :
  Client.SubmitIBTPBatch Samples.relay_client 3 ["chainA"] [1] ["0xservice"] [0]
    [Samples.single_content] [Samples.proof_begin] [false] Samples.confirming
  = (Go.Returns (Some (pb.mkResponse true ""), None),
     Runs.played
       (Client.InvokeInterchains_call ["chainA"] ["0xservice"] [1] [0]
          ["transfer"] [[Samples.arg "a"; Samples.arg "b"]] [0] [[]] [false])
       Samples.confirming_script Samples.confirming).
Proof.
  apply (SubmitIBTPBatch_confirmed Samples.relay_client 3 ["chainA"] [1]
           ["0xservice"] [0] [Samples.single_content] [Samples.proof_begin]
           [false] Samples.confirming_script Samples.confirming).
  - reflexivity.
  - repeat constructor; discriminate.
  - cbn. lia.
  - cbn. lia.
  - repeat split; try reflexivity; try (repeat constructor); try (cbn; lia).
Defined.

(* ===================================================================== *)
(** * Properties of the sequence counters *)
(* ===================================================================== *)

Section MetaFacts.

Import Go Meta.

(** The loop of [getMeta] with an index for every identifier: each
    identifier is set to its index, later ones over earlier ones. *)
Lemma fillMeta_fold (ids : list string) :
  forall (i : nat) (indices : list Z) (meta : gmap string Z),
    (i + length ids <= length indices)%nat ->
    fillMeta i ids indices meta
    = Returns (foldl (fun m kv => <[kv.1 := kv.2]> m) meta
                     (zip ids (drop i indices))).
Proof.
  induction ids as [|did ids IH]; intros i indices meta Hlen; cbn [fillMeta].
  - reflexivity.
  - cbn [length] in Hlen.
    destruct (indices !! i) as [v|] eqn:Hv; [|apply lookup_ge_None in Hv; lia].
    rewrite IH by lia. rewrite (drop_S indices v i Hv). reflexivity.
Qed.

Lemma foldl_insert_lookup_notin (kvs : list (string * Z)) :
  forall (meta : gmap string Z) (k : string),
    k ∉ kvs.*1 ->
    foldl (fun m kv => <[kv.1 := kv.2]> m) meta kvs !! k = meta !! k.
Proof.
  induction kvs as [|[k0 v0] kvs IH]; intros meta k Hk; cbn.
  - reflexivity.
  - cbn in Hk. apply not_elem_of_cons in Hk as [Hne Hk].
    rewrite IH by exact Hk. now rewrite lookup_insert_ne.
Qed.

Lemma foldl_insert_lookup_last (kvs : list (string * Z)) :
  forall (meta : gmap string Z) (j : nat) (k : string) (v : Z),
    kvs !! j = Some (k, v) ->
    k ∉ (drop (S j) kvs).*1 ->
    foldl (fun m kv => <[kv.1 := kv.2]> m) meta kvs !! k = Some v.
Proof.
  induction kvs as [|[k0 v0] kvs IH]; intros meta j k v Hj Hlast.
  - discriminate.
  - destruct j as [|j]; cbn in Hj.
    + inversion Hj; subst. cbn. cbn in Hlast. rewrite drop_0 in Hlast.
      rewrite foldl_insert_lookup_notin by exact Hlast.
      apply lookup_insert_eq.
    + cbn. apply (IH _ j); [exact Hj|exact Hlast].
Qed.

(** X15. The counters that [getMeta] hands back: when the query returns an
    index for every identifier, the map holds, for an identifier, the index
    at its last position in the list (a repeated identifier keeps the later
    index), and holds nothing for an identifier that is not in the list;
    indices beyond the identifiers are ignored. *)
Theorem getMeta_last_index_wins {St}
    (getMetaFunc : M St (result (list string * list Z)))
    (ids : list string) (indices : list Z) (w w1 : St) :
  getMetaFunc w = (Returns (Ok (ids, indices)), w1) ->
  (length ids <= length indices)%nat ->
  exists meta : gmap string Z,
    getMeta getMetaFunc w = (Returns (Some meta, None), w1)
    /\ (forall j did v,
          ids !! j = Some did -> indices !! j = Some v ->
          did ∉ drop (S j) ids ->
          meta !! did = Some v)
    /\ (forall did, did ∉ ids -> meta !! did = None).
Proof.
  intros Hq Hlen. unfold getMeta. erewrite bind_Returns by exact Hq.
  cbv beta iota. unfold lift at 1. unfold bind at 1.
  rewrite fillMeta_fold by (cbn; lia). rewrite drop_0.
  eexists. split; [reflexivity|]. split.
  - intros j did v Hid Hv Hlast.
    apply (foldl_insert_lookup_last _ _ j).
    + rewrite lookup_zip_with. rewrite Hid. cbn. rewrite Hv. reflexivity.
    + rewrite zip_with_drop. intros Hin. apply Hlast.
      apply list_elem_of_fmap in Hin as ([k x] & -> & Hin).
      apply elem_of_zip_l in Hin. exact Hin.
  - intros did Hnot. rewrite foldl_insert_lookup_notin.
    + apply lookup_empty.
    + intros Hin. apply Hnot.
      apply list_elem_of_fmap in Hin as ([k x] & -> & Hin).
      apply elem_of_zip_l in Hin. exact Hin.
Qed.

(** X16. [getMeta] trusts the two lists to have the same length: when
    the query returns fewer indices than identifiers, the loop reads past
    the end of the indices and panics; when the query fails, the error is
    returned with a nil map. *)
Theorem getMeta_short_indices_panic {St}
    (getMetaFunc : M St (result (list string * list Z))) (w w1 : St) :
  (forall ids indices,
      getMetaFunc w = (Returns (Ok (ids, indices)), w1) ->
      (length indices < length ids)%nat ->
      getMeta getMetaFunc w = (Panics "index out of range", w1))
  /\ (forall e,
      getMetaFunc w = (Returns (Err e), w1) ->
      getMeta getMetaFunc w = (Returns (None, Some e), w1)).
Proof.
  split.
  - intros ids indices Hq Hlen. unfold getMeta.
    erewrite bind_Returns by exact Hq. cbv beta iota.
    unfold lift at 1. unfold bind at 1.
    assert (Hpanic : forall (l : list string) (i : nat) (meta : gmap string Z),
              (length indices < i + length l)%nat -> (i <= length indices)%nat ->
              fillMeta i l indices meta = Panics "index out of range").
    { induction l as [|did l IH]; intros i meta Hi Hle; cbn [fillMeta].
      - cbn in Hi. lia.
      - cbn [length] in Hi.
        destruct (indices !! i) as [v|] eqn:Hv; [|reflexivity].
        apply lookup_lt_Some in Hv. apply IH; lia. }
    rewrite Hpanic by (cbn; lia). reflexivity.
  - intros e Hq. unfold getMeta. erewrite bind_Returns by exact Hq.
    reflexivity.
Qed.

End MetaFacts.

Lemma getMeta_last_index_wins_witness :
  exists meta : gmap string Z,
    Meta.getMeta Samples.meta_query tt = (Go.Returns (Some meta, None), tt)
    /\ meta !! "chainA" = Some 3
    /\ meta !! "chainB" = Some 2
    /\ meta !! "chainC" = None.
Proof.
  destruct (getMeta_last_index_wins Samples.meta_query
              ["chainA"; "chainB"; "chainA"] [1; 2; 3; 9] tt tt eq_refl)
    as (meta & Hrun & Hlast & Hnone).
  - cbn. lia.
  - exists meta. split; [exact Hrun|]. split; [|split].
    + apply (Hlast 2%nat "chainA" 3); [reflexivity|reflexivity|].
      cbn. apply not_elem_of_nil.
    + apply (Hlast 1%nat "chainB" 2); [reflexivity|reflexivity|].
      cbn. intros Hin. apply list_elem_of_singleton in Hin. discriminate.
    + apply Hnone. intros Hin.
      repeat (apply elem_of_cons in Hin as [Hin|Hin]; [discriminate|]).
      exact (not_elem_of_nil _ Hin).
Defined.

Lemma getMeta_short_indices_panic_witness :
  Meta.getMeta Samples.short_meta_query tt = (Go.Panics "index out of range", tt).
Proof.
  apply (proj1 (getMeta_short_indices_panic Samples.short_meta_query tt tt)
           ["chainA"; "chainB"] [1]).
  - reflexivity.
  - cbn. lia.
Defined.

(* ===================================================================== *)
(** * Further properties of the event conversion *)
(* ===================================================================== *)

Section SplitFacts.

Import Go pb Event Runs.

Lemma Split_cons (s : string) :
  exists piece pieces, strings_Split s comma = piece :: pieces.
Proof.
  induction s as [|ch rest IH]; cbn [strings_Split]; [eauto|].
  destruct (Ascii.eqb ch comma); [eauto|].
  destruct IH as (p & ps & ->). eauto.
Qed.

Lemma Split_length (s : string) :
  length (strings_Split s comma) = S (commas s).
Proof.
  induction s as [|ch rest IH]; cbn [strings_Split commas]; [reflexivity|].
  destruct (Ascii.eqb ch comma); [cbn; now rewrite IH|].
  destruct (Split_cons rest) as (p & ps & Hsplit).
  rewrite Hsplit in *. exact IH.
Qed.

Lemma Split_concat (s : string) :
  String.concat "," (strings_Split s comma) = s.
Proof.
  induction s as [|ch rest IH]; cbn [strings_Split]; [reflexivity|].
  destruct (Split_cons rest) as (p & ps & Hsplit). rewrite Hsplit in *.
  destruct (Ascii.eqb_spec ch comma) as [->|Hne].
  - change (String.concat "," ("" :: p :: ps))
      with ("" +:+ "," +:+ String.concat "," (p :: ps)).
    now rewrite IH.
  - destruct ps as [|q qs].
    + cbn in *. now rewrite IH.
    + change (String.concat "," (String ch p :: q :: qs))
        with (String ch (String.concat "," (p :: q :: qs))).
      now rewrite IH.
Qed.

Lemma Split_comma_free (s : string) :
  Forall comma_free (strings_Split s comma).
Proof.
  induction s as [|ch rest IH]; cbn [strings_Split].
  - repeat constructor.
  - destruct (Ascii.eqb ch comma) eqn:Hch.
    + constructor; [reflexivity|exact IH].
    + destruct (Split_cons rest) as (p & ps & Hsplit). rewrite Hsplit in *.
      inversion IH; subst. constructor; [|assumption].
      unfold comma_free in *. cbn [commas]. now rewrite Hch.
Qed.

(** X17. [handleArgs] cuts the argument text at its commas and loses
    nothing: it yields one piece more than the text has commas (one empty
    piece for the empty text, never an empty list), no piece contains a
    comma, and the pieces joined with commas are the text again. *)
Theorem handleArgs_pieces (args : string) :
  length (handleArgs args) = S (commas args)
  /\ Forall (fun piece => comma_free (string_of_bytes piece)) (handleArgs args)
  /\ String.concat "," (map string_of_bytes (handleArgs args)) = args.
Proof.
  assert (Hmap : map string_of_bytes (handleArgs args) = strings_Split args comma).
  { unfold handleArgs. rewrite fold_left_snoc_map. cbn [app].
    rewrite map_map. unfold string_of_bytes, bytes_of_string.
    erewrite map_ext; [apply map_id|].
    intros a. apply string_of_list_byte_of_string. }
  repeat split.
  - rewrite <- (length_map string_of_bytes), Hmap. apply Split_length.
  - apply Forall_map. change (Forall comma_free (map string_of_bytes (handleArgs args))).
    rewrite Hmap. apply Split_comma_free.
  - rewrite Hmap. apply Split_concat.
Qed.

(** The function list is accepted exactly with two commas. *)
Lemma encryptPayload_three_functions_aux (ev : BrokerThrowEvent) :
  (commas (ev_Funcs ev) = 2%nat ->
   exists content, encryptPayload_content ev = Ok content)
  /\ (commas (ev_Funcs ev) <> 2%nat ->
      encryptPayload_content ev
      = Err ("expected 3 functions, cur: " +:+ ev_Funcs ev)).
Proof.
  unfold encryptPayload_content.
  pose proof (Split_length (ev_Funcs ev)) as Hlen.
  destruct (strings_Split (ev_Funcs ev) comma) as [|f0 [|f1 [|f2 [|f3 more]]]];
    cbn [length] in Hlen; split; intros Hc; try lia; try reflexivity.
  eauto.
Qed.

(** X18. [encryptPayload] accepts exactly the function lists with two
    commas: then the call, callback and rollback names are the three pieces
    of the list, none contains a comma, and joined with commas they are the
    function text again; with any other number of commas the result is the
    error "expected 3 functions, cur: " followed by the function text, also
    for an empty function text. *)
Theorem encryptPayload_three_functions (ev : BrokerThrowEvent) :
  (commas (ev_Funcs ev) = 2%nat ->
   exists content,
     encryptPayload_content ev = Ok content
     /\ Func content +:+ "," +:+ Callback content +:+ "," +:+ Rollback content
        = ev_Funcs ev
     /\ comma_free (Func content) /\ comma_free (Callback content)
     /\ comma_free (Rollback content)
     /\ SrcContractId content = ev_Fid ev /\ DstContractId content = ev_Tid ev)
  /\ (commas (ev_Funcs ev) <> 2%nat ->
      encryptPayload_content ev
      = Err ("expected 3 functions, cur: " +:+ ev_Funcs ev)).
Proof.
  unfold encryptPayload_content.
  pose proof (Split_length (ev_Funcs ev)) as Hlen.
  pose proof (Split_concat (ev_Funcs ev)) as Hcat.
  pose proof (Split_comma_free (ev_Funcs ev)) as Hfree.
  destruct (strings_Split (ev_Funcs ev) comma) as [|f0 [|f1 [|f2 [|f3 more]]]];
    cbn [length] in Hlen; split; intros Hc; try lia; try reflexivity.
  eexists. split; [reflexivity|]. cbn.
  inversion Hfree as [|? ? H0 Hfree1]; subst.
  inversion Hfree1 as [|? ? H1 Hfree2]; subst.
  inversion Hfree2 as [|? ? H2 _]; subst.
  repeat split; assumption.
Qed.

Variable Content_Marshal : Content -> result bytes.
Variable Payload_Marshal : bytes -> result bytes.

(** X19. [Convert2IBTP] is fatal exactly when the payload cannot be built:
    when the function text does not have two commas, or one of the two
    serialisations fails.  Otherwise the message carries the given sender
    and type, the receiver and index of the event, the clock reading, the
    placeholder proof "1", and the serialised payload. *)
Theorem Convert2IBTP_fatal_or_filled (now : Z) (ev : BrokerThrowEvent)
    (from : string) (ibtpType : Z) :
  match Convert2IBTP Content_Marshal Payload_Marshal now ev from ibtpType with
  | None =>
      commas (ev_Funcs ev) <> 2%nat
      \/ (exists content e,
            encryptPayload_content ev = Ok content
            /\ (Content_Marshal content = Err e
                \/ exists data,
                     Content_Marshal content = Ok data
                     /\ Payload_Marshal data = Err e))
  | Some ibtp =>
      commas (ev_Funcs ev) = 2%nat
      /\ exists content data,
           encryptPayload_content ev = Ok content
           /\ Content_Marshal content = Ok data
           /\ Payload_Marshal data = Ok (Payload ibtp)
           /\ From ibtp = from /\ To ibtp = ev_To ev /\ Index ibtp = ev_Index ev
           /\ Type_ ibtp = ibtpType /\ Timestamp ibtp = now
           /\ Proof_ ibtp = bytes_of_string "1"
  end.
Proof.
  unfold Convert2IBTP, encryptPayload.
  destruct (Nat.eq_dec (commas (ev_Funcs ev)) 2%nat) as [Hc|Hc].
  - destruct (proj1 (encryptPayload_three_functions_aux ev) Hc) as (content & Hok).
    rewrite Hok.
    destruct (Content_Marshal content) as [data|e] eqn:Hcm.
    + destruct (Payload_Marshal data) as [pd|e] eqn:Hpm.
      * split; [exact Hc|]. exists content, data. cbn. repeat split; assumption.
      * right. exists content, e. split; [reflexivity|]. right. eauto.
    + right. exists content, e. eauto.
  - rewrite (proj2 (encryptPayload_three_functions_aux ev) Hc). now left.
Qed.

End SplitFacts.

Lemma encryptPayload_three_functions_witness :
  exists content,
    Event.encryptPayload_content Samples.event = Go.Ok content
    /\ pb.Func content +:+ "," +:+ pb.Callback content +:+ "," +:+ pb.Rollback content
       = "set,onSet,undoSet".
Proof.
  destruct (proj1 (encryptPayload_three_functions Samples.event) eq_refl)
    as (content & Hok & Hjoin & _).
  exists content. split; [exact Hok|exact Hjoin].
Defined.

(* ===================================================================== *)
(** * Further properties of the header pool *)
(* ===================================================================== *)

Section HeaderPoolRuns.

Import Go HeaderPool.

Variable json_Marshal : list Header -> result bytes.

Lemma postHeaders_step_keeps (ev : PosterEvent) (s : State) :
  let s' := snd (postHeaders_step json_Marshal ev s) in
  concat (filterLog_calls s') ++ headersSet (pool s') ++ recvHeaderCh (pool s')
  = concat (filterLog_calls s) ++ headersSet (pool s) ++ recvHeaderCh (pool s)
  /\ currentNum (pool s') = currentNum (pool s)
  /\ batchCh (pool s') = batchCh (pool s)
  /\ header_calls s' = header_calls s.
Proof.
  destruct ev; cbn.
  - destruct (recvHeaderCh (pool s)) as [|h queued] eqn:Hq; cbn;
      [rewrite Hq; auto|].
    rewrite <- (app_assoc (headersSet (pool s))). auto.
  - destruct (headersSet (pool s)) as [|h batch] eqn:Hset.
    + change (len (@nil Header) =? 0) with true. cbn. rewrite Hset. auto.
    + replace (len (h :: batch) =? 0) with false
        by (symmetry; apply Z.eqb_neq; unfold len; cbn [length]; lia).
      cbn. rewrite concat_app. cbn. rewrite app_nil_r, <- !app_assoc. auto.
  - auto.
Qed.

(** X20. The poster loses no header and invents none: along every run of
    [postHeaders], the batches handed to [filterLog], then the buffer, then
    the headers still queued on the receiving channel are, in this order,
    the same headers as before the run.  The loop never touches the height
    of the pool or the batch channel, and it never asks the node for a
    header. *)
Theorem postHeaders_keeps_headers (evs : list PosterEvent) (s : State) :
  let s' := postHeaders json_Marshal evs s in
  concat (filterLog_calls s') ++ headersSet (pool s') ++ recvHeaderCh (pool s')
  = concat (filterLog_calls s) ++ headersSet (pool s) ++ recvHeaderCh (pool s)
  /\ currentNum (pool s') = currentNum (pool s)
  /\ batchCh (pool s') = batchCh (pool s)
  /\ header_calls s' = header_calls s.
Proof.
  revert s. induction evs as [|ev evs IH]; intros s; [cbn; auto|].
  cbn [postHeaders].
  pose proof (postHeaders_step_keeps ev s) as Hstep.
  destruct (postHeaders_step json_Marshal ev s) as [[|] s1]; cbn in Hstep.
  - destruct Hstep as (H1 & H2 & H3 & H4).
    destruct (IH s1) as (I1 & I2 & I3 & I4).
    cbv zeta. rewrite I1, I2, I3, I4. auto.
  - exact Hstep.
Qed.

Variable Threshold : Z.
Variable HeaderByNumber : Z -> result Header.

(** The loop of a tick when the node fails for the height [cur + j] and
    the receiving channel has room for the [j] headers before it: the
    headers of [cur..cur+j-1] are queued, the loop returns for good, and the
    pool stays at the failing height. *)
Lemma fetchHeaders_fails_after (j : nat) :
  forall (fuel : nat) (upper cur : Z) bc rc hs meta fl hc
         (headers : list Header) (e : string),
    0 <= cur -> cur + Z.of_nat j < upper -> upper < two64 ->
    cur + Z.of_nat j < two63 ->
    (length rc + j <= defaultCap)%nat ->
    Forall2 (fun number header => HeaderByNumber number = Ok header)
            (seqZ cur (Z.of_nat j)) headers ->
    HeaderByNumber (cur + Z.of_nat j) = Err e ->
    fetchHeaders HeaderByNumber (j + S fuel) upper (cur + 1)
      (mkState (mkPool bc rc hs cur) meta fl hc)
    = (Returns Return,
       mkState (mkPool bc (rc ++ headers) hs (cur + Z.of_nat j)) meta fl
               (hc ++ seqZ cur (Z.of_nat j + 1))).
Proof.
  assert (H63 : two63 = 9223372036854775808) by reflexivity.
  assert (H64 : two64 = 18446744073709551616) by reflexivity.
  induction j as [|j IH];
    intros fuel upper cur bc rc hs meta fl hc headers e Hc Hup Hu64 Hj Hcap
           Hall Herr.
  - cbn in Hall. inversion Hall; subst. cbn [Nat.add fetchHeaders].
    rewrite Z.add_0_r in *.
    destruct (Z.leb_spec (cur + 1) upper); [|lia].
    cbn [pool currentNum metaC filterLog_calls header_calls batchCh
         recvHeaderCh headersSet].
    rewrite (int64_small cur) by lia. rewrite Herr.
    now rewrite app_nil_r.
  - rewrite seqZ_cons in Hall by lia.
    inversion Hall as [|? header ? more Hhead Hrest]; subst.
    cbn [Nat.add fetchHeaders].
    destruct (Z.leb_spec (cur + 1) upper); [|lia].
    cbn [pool currentNum metaC filterLog_calls header_calls batchCh
         recvHeaderCh headersSet].
    rewrite (int64_small cur) by lia. rewrite Hhead.
    replace (length rc <? defaultCap)%nat with true
      by (symmetry; apply Nat.ltb_lt; lia).
    assert (Hadd : forall z, 0 <= z <= two63 -> uint64_add z 1 = z + 1).
    { intros z Hz. unfold uint64_add, uint64, two64 in *.
      apply Z.mod_small. lia. }
    rewrite !Hadd by lia.
    replace (Z.succ cur) with (cur + 1) in Hrest by lia.
    replace (Z.pred (Z.of_nat (S j))) with (Z.of_nat j) in Hrest by lia.
    rewrite (IH fuel upper (cur + 1) bc (rc ++ [header]) hs meta fl (hc ++ [cur])
               more e); try lia; try assumption.
    + rewrite (seqZ_cons cur (Z.of_nat (S j) + 1)) by lia.
      replace (Z.succ cur) with (cur + 1) by lia.
      replace (Z.pred (Z.of_nat (S j) + 1)) with (Z.of_nat j + 1) by lia.
      replace (cur + 1 + Z.of_nat j) with (cur + Z.of_nat (S j)) by lia.
      now rewrite <- !app_assoc.
    + rewrite length_app. cbn [length]. lia.
    + replace (cur + 1 + Z.of_nat j) with (cur + Z.of_nat (S j)) by lia.
      exact Herr.
Qed.

(** The loop of a tick that has more to fetch than the receiving channel
    has room for: after the [r] headers that fill the channel, the next
    header is fetched and its send blocks; the pool stays at the height of
    the header in hand. *)
Lemma fetchHeaders_blocks_after (r : nat) :
  forall (fuel : nat) (upper cur : Z) bc rc hs meta fl hc
         (queued : list Header) (header : Header),
    0 <= cur -> cur + Z.of_nat r < upper -> upper < two64 ->
    cur + Z.of_nat r < two63 ->
    (length rc + r = defaultCap)%nat ->
    Forall2 (fun number h => HeaderByNumber number = Ok h)
            (seqZ cur (Z.of_nat r)) queued ->
    HeaderByNumber (cur + Z.of_nat r) = Ok header ->
    fetchHeaders HeaderByNumber (r + S fuel) upper (cur + 1)
      (mkState (mkPool bc rc hs cur) meta fl hc)
    = (Hangs,
       mkState (mkPool bc (rc ++ queued) hs (cur + Z.of_nat r)) meta fl
               (hc ++ seqZ cur (Z.of_nat r + 1))).
Proof.
  assert (H63 : two63 = 9223372036854775808) by reflexivity.
  assert (H64 : two64 = 18446744073709551616) by reflexivity.
  induction r as [|r IH];
    intros fuel upper cur bc rc hs meta fl hc queued header Hc Hup Hu64 Hr Hcap
           Hall Hlast.
  - cbn in Hall. inversion Hall; subst. cbn [Nat.add fetchHeaders].
    rewrite Z.add_0_r in *.
    destruct (Z.leb_spec (cur + 1) upper); [|lia].
    cbn [pool currentNum metaC filterLog_calls header_calls batchCh
         recvHeaderCh headersSet].
    rewrite (int64_small cur) by lia. rewrite Hlast.
    replace (length rc <? defaultCap)%nat with false
      by (symmetry; apply Nat.ltb_ge; lia).
    now rewrite app_nil_r.
  - rewrite seqZ_cons in Hall by lia.
    inversion Hall as [|? h ? more Hhead Hrest]; subst.
    cbn [Nat.add fetchHeaders].
    destruct (Z.leb_spec (cur + 1) upper); [|lia].
    cbn [pool currentNum metaC filterLog_calls header_calls batchCh
         recvHeaderCh headersSet].
    rewrite (int64_small cur) by lia. rewrite Hhead.
    replace (length rc <? defaultCap)%nat with true
      by (symmetry; apply Nat.ltb_lt; lia).
    assert (Hadd : forall z, 0 <= z <= two63 -> uint64_add z 1 = z + 1).
    { intros z Hz. unfold uint64_add, uint64, two64 in *.
      apply Z.mod_small. lia. }
    rewrite !Hadd by lia.
    replace (Z.succ cur) with (cur + 1) in Hrest by lia.
    replace (Z.pred (Z.of_nat (S r))) with (Z.of_nat r) in Hrest by lia.
    rewrite (IH fuel upper (cur + 1) bc (rc ++ [h]) hs meta fl (hc ++ [cur])
               more header); try lia; try assumption.
    + rewrite (seqZ_cons cur (Z.of_nat (S r) + 1)) by lia.
      replace (Z.succ cur) with (cur + 1) by lia.
      replace (Z.pred (Z.of_nat (S r) + 1)) with (Z.of_nat r + 1) by lia.
      replace (cur + 1 + Z.of_nat r) with (cur + Z.of_nat (S r)) by lia.
      now rewrite <- !app_assoc.
    + rewrite length_app. cbn [length]. lia.
    + replace (cur + 1 + Z.of_nat r) with (cur + Z.of_nat (S r)) by lia.
      exact Hlast.
Qed.

Lemma listenHeader_skips_errors (fuel : nat) (errs : list string)
    (ticks : list (result Z)) (s : State) :
  listenHeader Threshold HeaderByNumber fuel (map Err errs ++ ticks) s
  = listenHeader Threshold HeaderByNumber fuel ticks s.
Proof.
  induction errs as [|e errs IH]; [reflexivity|]. cbn. exact IH.
Qed.

(** X21. A tick of [listenHeader] with the pool [k] heights behind the
    finalised height [latest - Threshold].  When the receiving channel,
    which holds 20 headers, has room for [k] more, the tick catches up: it
    asks the node for the [k] heights from the pool's own height on, queues
    the headers in that order, and leaves the pool at the finalised height;
    the header of the finalised height itself is not asked for.  When the
    channel has room for [r < k] headers only, the tick queues [r] headers,
    fetches one more and blocks in its send: it does not return, and the
    pool stays [r] heights further, at the height of the header in hand. *)
Theorem listenHeader_tick_catches_up (k fuel : nat) (latest cur : Z)
    bc rc hs meta fl hc :
  0 <= cur -> Threshold <= latest -> latest < two63 -> 0 <= Threshold ->
  latest - Threshold = cur + Z.of_nat k ->
  (forall headers : list Header,
      (length rc + k <= defaultCap)%nat ->
      Forall2 (fun number header => HeaderByNumber number = Ok header)
              (seqZ cur (Z.of_nat k)) headers ->
      listenHeader_tick Threshold HeaderByNumber (k + S fuel) (Ok latest)
        (mkState (mkPool bc rc hs cur) meta fl hc)
      = (Returns Continue,
         mkState (mkPool bc (rc ++ headers) hs (latest - Threshold)) meta fl
                 (hc ++ seqZ cur (Z.of_nat k))))
  /\ ~ In (latest - Threshold) (seqZ cur (Z.of_nat k))
  /\ (forall (r : nat) (queued : list Header) (header : Header),
        (length rc + r = defaultCap)%nat -> (r < k)%nat ->
        Forall2 (fun number h => HeaderByNumber number = Ok h)
                (seqZ cur (Z.of_nat r)) queued ->
        HeaderByNumber (cur + Z.of_nat r) = Ok header ->
        listenHeader_tick Threshold HeaderByNumber (k + S fuel) (Ok latest)
          (mkState (mkPool bc rc hs cur) meta fl hc)
        = (Hangs,
           mkState (mkPool bc (rc ++ queued) hs (cur + Z.of_nat r)) meta fl
                   (hc ++ seqZ cur (Z.of_nat r + 1)))).
Proof.
  intros Hc Hth Hl Ht Hk.
  assert (H63 : two63 = 9223372036854775808) by reflexivity.
  assert (H64 : two64 = 18446744073709551616) by reflexivity.
  assert (Hsub : uint64_sub latest Threshold = cur + Z.of_nat k).
  { unfold uint64_sub, uint64, two64. rewrite Z.mod_small; lia. }
  assert (Hadd : uint64_add cur 1 = cur + 1).
  { unfold uint64_add, uint64, two64. apply Z.mod_small. lia. }
  split; [|split].
  - intros headers Hcap Hall. unfold listenHeader_tick.
    cbn [pool currentNum]. rewrite Hsub, Hadd, Hk.
    apply fetchHeaders_asks_from_currentNum; [lia|lia|exact Hcap|exact Hall].
  - rewrite Hk. intros Hin. apply list_elem_of_In, elem_of_seqZ in Hin. lia.
  - intros r queued header Hcap Hr Hall Hlast. unfold listenHeader_tick.
    cbn [pool currentNum]. rewrite Hsub, Hadd.
    replace (k + S fuel)%nat with (r + S (k - S r + S fuel))%nat by lia.
    apply (fetchHeaders_blocks_after r (k - S r + S fuel) (cur + Z.of_nat k) cur
             bc rc hs meta fl hc queued header); try lia; assumption.
Qed.

(** X22. A header the node cannot deliver ends the listener for good: when
    the node fails for the height [cur + j] that the catching up reaches
    before the finalised height, and the receiving channel has room for the
    [j] headers before it, [listenHeader] returns at that tick, with these
    [j] headers queued and the pool left at the failing height; the ticks
    that follow are never served.  Ticks for which the height query fails
    are skipped before that. *)
Theorem listenHeader_ends_at_failed_fetch (j fuel : nat) (latest cur : Z)
    bc rc hs meta fl hc (headers : list Header) (e : string)
    (errs : list string) (later : list (result Z)) :
  0 <= cur -> 0 <= Threshold <= latest -> latest < two63 ->
  cur + Z.of_nat j < latest - Threshold ->
  (length rc + j <= defaultCap)%nat ->
  Forall2 (fun number header => HeaderByNumber number = Ok header)
          (seqZ cur (Z.of_nat j)) headers ->
  HeaderByNumber (cur + Z.of_nat j) = Err e ->
  listenHeader Threshold HeaderByNumber (j + S fuel)
    (map Err errs ++ Ok latest :: later)
    (mkState (mkPool bc rc hs cur) meta fl hc)
  = (Returns tt,
     mkState (mkPool bc (rc ++ headers) hs (cur + Z.of_nat j)) meta fl
             (hc ++ seqZ cur (Z.of_nat j + 1))).
Proof.
  intros Hc Hth Hl Hj Hcap Hall Herr.
  assert (H63 : two63 = 9223372036854775808) by reflexivity.
  assert (H64 : two64 = 18446744073709551616) by reflexivity.
  rewrite listenHeader_skips_errors. cbn [listenHeader].
  unfold listenHeader_tick. cbn [pool currentNum].
  assert (Hsub : uint64_sub latest Threshold = latest - Threshold).
  { unfold uint64_sub, uint64, two64. rewrite Z.mod_small; lia. }
  assert (Hadd : uint64_add cur 1 = cur + 1).
  { unfold uint64_add, uint64, two64. apply Z.mod_small. lia. }
  rewrite Hsub, Hadd.
  rewrite (fetchHeaders_fails_after j fuel (latest - Threshold) cur bc rc hs meta
             fl hc headers e); try lia; try assumption.
  reflexivity.
Qed.

(** X23. A chain shorter than the threshold does not hold the listener
    back: [latestHeight - Threshold] is an unsigned subtraction, so with
    [latest < Threshold] the bound of the loop wraps around to
    [latest - Threshold + 2^64], and the tick asks the node for the header
    at the pool's height although no height is finalised; if the node has no
    such header the listener returns for good. *)
Theorem listenHeader_tick_underflow (fuel : nat) (latest cur : Z)
    bc rc hs meta fl hc (e : string) :
  0 <= latest < Threshold -> Threshold <= two63 -> 0 <= cur < two63 - 1 ->
  HeaderByNumber cur = Err e ->
  uint64_sub latest Threshold = latest - Threshold + two64
  /\ listenHeader_tick Threshold HeaderByNumber (S fuel) (Ok latest)
       (mkState (mkPool bc rc hs cur) meta fl hc)
     = (Returns Return, mkState (mkPool bc rc hs cur) meta fl (hc ++ [cur])).
Proof.
  intros Hl Hth Hc Herr.
  assert (H63 : two63 = 9223372036854775808) by reflexivity.
  assert (H64 : two64 = 18446744073709551616) by reflexivity.
  assert (Hsub : uint64_sub latest Threshold = latest - Threshold + two64).
  { unfold uint64_sub, uint64. symmetry.
    apply (Z.mod_unique _ _ (-1)); lia. }
  split; [exact Hsub|].
  unfold listenHeader_tick. cbn [pool currentNum].
  assert (Hadd : uint64_add cur 1 = cur + 1).
  { unfold uint64_add, uint64, two64. apply Z.mod_small. lia. }
  rewrite Hsub, Hadd. cbn [fetchHeaders].
  destruct (Z.leb_spec (cur + 1) (latest - Threshold + two64)); [|lia].
  cbn [pool currentNum metaC filterLog_calls header_calls batchCh
       recvHeaderCh headersSet].
  rewrite (int64_small cur) by lia. rewrite Herr. reflexivity.
Qed.

End HeaderPoolRuns.

Lemma listenHeader_tick_catches_up_witness :
  HeaderPool.listenHeader_tick 6 Samples.node 5 (Go.Ok 20) Samples.pool_at_10
  = (Go.Returns HeaderPool.Continue,
     HeaderPool.mkState
       (HeaderPool.mkPool []
          [HeaderPool.mkHeader 10 ""; HeaderPool.mkHeader 11 "";
           HeaderPool.mkHeader 12 ""; HeaderPool.mkHeader 13 ""]
          [] 14)
       [] [] [10; 11; 12; 13]).
Proof.
  refine (proj1 (listenHeader_tick_catches_up 6 Samples.node 4 0 20 10
                   [] [] [] [] [] [] _ _ _ _ _)
            [HeaderPool.mkHeader 10 ""; HeaderPool.mkHeader 11 "";
             HeaderPool.mkHeader 12 ""; HeaderPool.mkHeader 13 ""] _ _).
  - lia.
  - lia.
  - reflexivity.
  - lia.
  - reflexivity.
  - vm_compute. lia.
  - repeat constructor.
Defined.

Lemma listenHeader_ends_at_failed_fetch_witness :
  HeaderPool.listenHeader 6 Samples.node_until_12 3
    [Go.Err "rpc down"; Go.Ok 20; Go.Ok 25] Samples.pool_at_10
  = (Go.Returns tt,
     HeaderPool.mkState
       (HeaderPool.mkPool []
          [HeaderPool.mkHeader 10 ""; HeaderPool.mkHeader 11 ""] [] 12)
       [] [] [10; 11; 12]).
Proof.
  apply (listenHeader_ends_at_failed_fetch 6 Samples.node_until_12 2 0 20 10
           [] [] [] [] [] []
           [HeaderPool.mkHeader 10 ""; HeaderPool.mkHeader 11 ""] "not found"
           ["rpc down"] [Go.Ok 25]).
  - lia.
  - lia.
  - reflexivity.
  - cbn. lia.
  - vm_compute. lia.
  - repeat constructor.
  - reflexivity.
Defined.

Lemma listenHeader_tick_underflow_witness :
  Go.uint64_sub 3 6 = 18446744073709551613
  /\ HeaderPool.listenHeader_tick 6 Samples.node_without_headers 1 (Go.Ok 3)
       Samples.pool_at_0
     = (Go.Returns HeaderPool.Return,
        HeaderPool.mkState (HeaderPool.mkPool [] [] [] 0) [] [] [0]).
Proof.
  apply (listenHeader_tick_underflow 6 Samples.node_without_headers 0 3 0
           [] [] [] [] [] [] "not found").
  - lia.
  - vm_compute. discriminate.
  - split; [lia|reflexivity].
  - reflexivity.
Defined.

(* ===================================================================== *)
(** * Further properties of the off-chain reassembly *)
(* ===================================================================== *)

Section OffChainFrame.

Import Go pb OffChain Runs.

Variable D : Deps.
Variable OffChainPath : string.

Lemma extends_refl (mf : string) (fs : FS) : extends mf fs fs.
Proof.
  repeat split; auto.
  - intros content H. exists []. now rewrite app_nil_r.
  - exists []. now rewrite app_nil_r.
Qed.

Lemma extends_trans (mf : string) (fs1 fs2 fs3 : FS) :
  extends mf fs1 fs2 -> extends mf fs2 fs3 -> extends mf fs1 fs3.
Proof.
  intros (A1 & A2 & (d1 & A3) & A4 & A5 & A6) (B1 & B2 & (d2 & B3) & B4 & B5 & B6).
  repeat split.
  - intros path Hp. now rewrite B1, A1.
  - intros content H. destruct (A2 _ H) as (m1 & H1).
    destruct (B2 _ H1) as (m2 & H2). exists (m1 ++ m2).
    now rewrite app_assoc.
  - exists (d1 ++ d2). now rewrite B3, A3, app_assoc.
  - congruence.
  - congruence.
  - congruence.
Qed.

Lemma extends_log (mf : string) (o : FileOp) (fs : FS) : extends mf fs (log o fs).
Proof.
  repeat split; auto.
  - intros content H. exists []. now rewrite app_nil_r.
  - now exists [o].
Qed.

Lemma os_Open_extends (mf path : string) (fs : FS) :
  extends mf fs (snd (os_Open path fs))
  /\ exists r, fst (os_Open path fs) = Returns r.
Proof.
  unfold os_Open.
  destruct (open_error fs path); [split; [apply extends_log|eauto]|].
  destruct (files fs !! path); split; try apply extends_log; eauto.
Qed.

Lemma ioutil_ReadAll_extends (mf f : string) (fs : FS) :
  extends mf fs (snd (ioutil_ReadAll f fs))
  /\ exists r, fst (ioutil_ReadAll f fs) = Returns r.
Proof.
  unfold ioutil_ReadAll.
  destruct (read_error fs f); [split; [apply extends_log|eauto]|].
  destruct (files fs !! f); split; try apply extends_log; eauto.
Qed.

Lemma file_Write_extends (mf : string) (data : bytes) (fs : FS) :
  extends mf fs (snd (file_Write mf data fs))
  /\ exists r, fst (file_Write mf data fs) = Returns r.
Proof.
  unfold file_Write.
  assert (Hstore : forall more,
            extends mf fs
              (store mf (default [] (files fs !! mf) ++ more)
                     (log (Write_op mf data) fs))).
  { intros more. repeat split; cbn.
    - intros path Hp. now rewrite lookup_insert_ne.
    - intros content H. rewrite H. cbn. exists more.
      now rewrite lookup_insert_eq.
    - now exists [Write_op mf data]. }
  destruct (write_error fs (default [] (files fs !! mf)) data) as [[k e]|];
    split; try apply Hstore; eauto.
Qed.

Lemma bind_run {St A B : Type} (m : Go.M St A) (k : A -> Go.M St B) (s : St) :
  bind m k s
  = match m s with
    | (Returns a, s1) => k a s1
    | (Panics msg, s1) => (Panics msg, s1)
    | (Hangs, s1) => (Hangs, s1)
    end.
Proof. reflexivity. Qed.

(** The loop over the shards writes to the output only, and ends with an
    error, with nil, or out of fuel. *)
Lemma shardLoop_extends (fuel : nat) (response : GetDataResponse)
    (tag : ShardTag) (mf : string) :
  forall (i : Z) (fs : FS),
    extends mf fs (snd (shardLoop D fuel response tag mf i fs))
    /\ forall msg, fst (shardLoop D fuel response tag mf i fs) <> Panics msg.
Proof.
  induction fuel as [|fuel IH]; intros i fs; cbn [shardLoop].
  - split; [apply extends_refl|intros ?; discriminate].
  - destruct (i <=? ShardSize tag);
      [|split; [apply extends_refl|intros ?; discriminate]].
    rewrite bind_run.
    destruct (os_Open_extends mf (shardPath D response tag i) fs) as (E1 & r1 & R1).
    destruct (os_Open (shardPath D response tag i) fs) as [o1 fs1]; cbn in E1, R1.
    subst o1. destruct r1 as [sf|e]; [|split; [exact E1|intros ?; discriminate]].
    rewrite bind_run.
    destruct (ioutil_ReadAll_extends mf sf fs1) as (E2 & r2 & R2).
    destruct (ioutil_ReadAll sf fs1) as [o2 fs2]; cbn in E2, R2.
    subst o2. pose proof (extends_trans _ _ _ _ E1 E2) as E12.
    destruct r2 as [data|e]; [|split; [exact E12|intros ?; discriminate]].
    rewrite bind_run.
    destruct (file_Write_extends mf data fs2) as (E3 & r3 & R3).
    destruct (file_Write mf data fs2) as [o3 fs3]; cbn in E3, R3.
    subst o3. pose proof (extends_trans _ _ _ _ E12 E3) as E123.
    destruct r3 as [k|e]; [|split; [exact E123|intros ?; discriminate]].
    destruct (IH (uint64_add i 1) fs3) as (E4 & N4).
    split; [exact (extends_trans _ _ _ _ E123 E4)|exact N4].
Qed.

Lemma os_OpenFile_extends (mf : string) (fs : FS) :
  open_error fs mf = None ->
  os_OpenFile mf fs
  = (Returns (Ok mf),
     mkFS (<[mf := default [] (files fs !! mf)]> (files fs))
          (open_error fs) (read_error fs) (write_error fs)
          (ops fs ++ [OpenFile_op mf]))
  /\ extends mf fs (snd (os_OpenFile mf fs)).
Proof.
  intros Hopen. unfold os_OpenFile. rewrite Hopen.
  destruct (files fs !! mf) as [content|] eqn:Hmf; cbn.
  - split; [|apply extends_log].
    unfold log. now rewrite insert_id.
  - split; [reflexivity|]. repeat split; cbn.
    + intros path Hp. now rewrite lookup_insert_ne.
    + intros content H. congruence.
    + now exists [OpenFile_op mf].
Qed.

(** X24. Whatever the response and the state of the disk, and whichever
    operation fails, [SubmitOffChainData] changes no file other than its
    output file; the output file is only appended to (what it held stays in
    front); the operations recorded before stay recorded.  The call panics
    in exactly one case: a success response without shard tag, whose
    [ShardTag.ShardSize] is read once the output file is open; the output
    file is then created and nothing else is done. *)
Theorem SubmitOffChainData_touches_output_only (fuel : nat) (now : string)
    (response : GetDataResponse) (fs : FS) :
  let run := SubmitOffChainData D OffChainPath fuel now response fs in
  let mf := savePath D OffChainPath now response in
  (forall path, path <> mf -> files (snd run) !! path = files fs !! path)
  /\ (forall content, files fs !! mf = Some content ->
        exists more, files (snd run) !! mf = Some (content ++ more))
  /\ (exists done, ops (snd run) = ops fs ++ done)
  /\ (forall msg,
        fst run = Panics msg
        <-> msg = "nil pointer dereference"
            /\ RespType response = DATA_GET_SUCCESS D
            /\ open_error fs mf = None
            /\ RespShardTag response = None)
  /\ (RespType response = DATA_GET_SUCCESS D ->
      open_error fs mf = None ->
      RespShardTag response = None ->
      run = (Panics "nil pointer dereference",
             mkFS (<[mf := default [] (files fs !! mf)]> (files fs))
                  (open_error fs) (read_error fs) (write_error fs)
                  (ops fs ++ [OpenFile_op mf]))).
Proof.
  cbv zeta. unfold SubmitOffChainData.
  fold (savePath D OffChainPath now response).
  set (mf := savePath D OffChainPath now response).
  assert (Hgoal : forall (r : Outcome (option string) * FS) (Q R : Prop),
            extends mf fs (snd r) -> Q -> R ->
            (forall path, path <> mf -> files (snd r) !! path = files fs !! path)
            /\ (forall content, files fs !! mf = Some content ->
                  exists more, files (snd r) !! mf = Some (content ++ more))
            /\ (exists done, ops (snd r) = ops fs ++ done)
            /\ Q /\ R).
  { intros r Q R (A1 & A2 & A3 & _) HQ HR. auto. }
  destruct (Z.eqb_spec (RespType response) (DATA_GET_SUCCESS D)) as [Htype|Htype].
  2:{ apply Hgoal; [apply extends_refl| |contradiction].
      intros msg. split; [discriminate|]. intros (_ & H & _). contradiction. }
  rewrite bind_run.
  destruct (open_error fs mf) as [e|] eqn:Hopen.
  { unfold os_OpenFile. rewrite Hopen.
    apply Hgoal; [apply extends_log| |discriminate].
    intros msg. split; [discriminate|]. intros (_ & _ & H & _). discriminate. }
  destruct (os_OpenFile_extends mf fs Hopen) as (Hrun & Eopen).
  rewrite Hrun in *. cbn [snd] in Eopen.
  destruct (RespShardTag response) as [tag|] eqn:Htag.
  - destruct (shardLoop_extends fuel response tag mf 1
                (mkFS (<[mf := default [] (files fs !! mf)]> (files fs))
                      (open_error fs) (read_error fs) (write_error fs)
                      (ops fs ++ [OpenFile_op mf]))) as (E & N).
    apply Hgoal; [exact (extends_trans _ _ _ _ Eopen E)| |discriminate].
    intros msg. split; [intros H; destruct (N msg H)|].
    intros (_ & _ & _ & H). discriminate.
  - apply Hgoal; [exact Eopen| |reflexivity].
    intros msg. split.
    + intros H. inversion H. auto.
    + intros (-> & _). reflexivity.
Qed.

(** X25. A success response that announces no shard reads nothing: the
    output file is opened, and created empty when it did not exist, and the
    call returns nil. *)
Theorem SubmitOffChainData_no_shards (fuel : nat) (now : string)
    (response : GetDataResponse) (tag : ShardTag) (fs : FS) :
  RespType response = DATA_GET_SUCCESS D ->
  RespShardTag response = Some tag ->
  ShardSize tag = 0 ->
  open_error fs (savePath D OffChainPath now response) = None ->
  let mf := savePath D OffChainPath now response in
  SubmitOffChainData D OffChainPath (S fuel) now response fs
  = (Returns None,
     mkFS (<[mf := default [] (files fs !! mf)]> (files fs))
          (open_error fs) (read_error fs) (write_error fs)
          (ops fs ++ [OpenFile_op mf])).
Proof.
  intros Htype Htag Hsize Hopen mf. unfold SubmitOffChainData.
  rewrite Htype, Z.eqb_refl, Htag.
  fold (savePath D OffChainPath now response). fold mf.
  rewrite bind_run. fold mf in Hopen.
  rewrite (proj1 (os_OpenFile_extends mf fs Hopen)).
  cbn [shardLoop]. rewrite Hsize. reflexivity.
Qed.

(** With the largest shard count the loop condition always holds. *)
Lemma shardLoop_max_never_done (fuel : nat) (response : GetDataResponse)
    (tag : ShardTag) (mf : string) :
  ShardSize tag = two64 - 1 ->
  forall (i : Z) (fs : FS),
    0 <= i < two64 ->
    fst (shardLoop D fuel response tag mf i fs) <> Returns None.
Proof.
  intros Hsize. induction fuel as [|fuel IH]; intros i fs Hi; cbn [shardLoop].
  - discriminate.
  - rewrite Hsize. destruct (Z.leb_spec i (two64 - 1)); [|lia].
    unfold bind at 1.
    destruct (os_Open_extends mf (shardPath D response tag i) fs) as (_ & r1 & R1).
    destruct (os_Open (shardPath D response tag i) fs) as [o1 fs1]; cbn in R1.
    subst o1. destruct r1 as [sf|e]; [|discriminate].
    unfold bind at 1.
    destruct (ioutil_ReadAll_extends mf sf fs1) as (_ & r2 & R2).
    destruct (ioutil_ReadAll sf fs1) as [o2 fs2]; cbn in R2.
    subst o2. destruct r2 as [data|e]; [|discriminate].
    unfold bind at 1.
    destruct (file_Write_extends mf data fs2) as (_ & r3 & R3).
    destruct (file_Write mf data fs2) as [o3 fs3]; cbn in R3.
    subst o3. destruct r3 as [k|e]; [|discriminate].
    apply IH. unfold uint64_add, uint64. apply Z.mod_pos_bound. reflexivity.
Qed.

(** X26. The shard counter is an unsigned 64-bit number compared with
    [i <= ShardSize]: with the largest shard count, 2^64 - 1, the counter
    wraps around instead of passing the bound, so the call never returns
    nil; it ends only with the error of a shard operation. *)
Theorem SubmitOffChainData_max_shards_never_nil (fuel : nat) (now : string)
    (response : GetDataResponse) (tag : ShardTag) (fs : FS) :
  RespType response = DATA_GET_SUCCESS D ->
  RespShardTag response = Some tag ->
  ShardSize tag = two64 - 1 ->
  fst (SubmitOffChainData D OffChainPath fuel now response fs) <> Returns None.
Proof.
  intros Htype Htag Hsize. unfold SubmitOffChainData.
  rewrite Htype, Z.eqb_refl, Htag. unfold bind at 1, os_OpenFile.
  destruct (open_error fs _); [discriminate|].
  destruct (files fs !! _);
    apply shardLoop_max_never_done; try assumption; unfold two64; lia.
Qed.

End OffChainFrame.

Lemma SubmitOffChainData_touches_output_only_witness :
  OffChain.SubmitOffChainData Samples.offchain_deps "/out" 3 "2021.10.09-10:00:00"
    Samples.untagged_response Samples.two_shards
  = (Go.Panics "nil pointer dereference",
     OffChain.mkFS
       (<["/out/transfer-2021.10.09-10:00:00" := []]>
          (OffChain.files Samples.two_shards))
       Samples.no_error Samples.no_error Samples.no_write_error
       [OffChain.OpenFile_op "/out/transfer-2021.10.09-10:00:00"]).
Proof.
  apply (SubmitOffChainData_touches_output_only Samples.offchain_deps "/out" 3
           "2021.10.09-10:00:00" Samples.untagged_response Samples.two_shards).
  - reflexivity.
  - reflexivity.
  - reflexivity.
Defined.

Lemma SubmitOffChainData_no_shards_witness :
  OffChain.SubmitOffChainData Samples.offchain_deps "/out" 1 "2021.10.09-10:00:00"
    Samples.no_shard_response Samples.two_shards
  = (Go.Returns None,
     OffChain.mkFS
       (<["/out/transfer-2021.10.09-10:00:00" := []]>
          (OffChain.files Samples.two_shards))
       Samples.no_error Samples.no_error Samples.no_write_error
       [OffChain.OpenFile_op "/out/transfer-2021.10.09-10:00:00"]).
Proof.
  apply (SubmitOffChainData_no_shards Samples.offchain_deps "/out" 0
           "2021.10.09-10:00:00" Samples.no_shard_response (pb.mkShardTag 0)
           Samples.two_shards).
  - reflexivity.
  - reflexivity.
  - reflexivity.
  - reflexivity.
Defined.

Lemma SubmitOffChainData_max_shards_never_nil_witness :
  fst (OffChain.SubmitOffChainData Samples.offchain_deps "/out" 3
         "2021.10.09-10:00:00" Samples.max_shard_response Samples.two_shards)
  <> Go.Returns None.
Proof.
  apply (SubmitOffChainData_max_shards_never_nil Samples.offchain_deps "/out" 3
           "2021.10.09-10:00:00" Samples.max_shard_response
           (pb.mkShardTag 18446744073709551615) Samples.two_shards).
  - reflexivity.
  - reflexivity.
  - reflexivity.
Defined.

(* ===================================================================== *)
(** * The off-chain check at the head of SubmitReceipt *)
(* ===================================================================== *)

Section ReceiptOffChain.

Import Go pb Client Runs.

Variable D : Deps.
Variable c : Client.

Lemma offChainCheckReceipt_flagged (to : string) (idx : Z) (sid : string)
    (result_ : Result) (bxhID chainID : string) (ibtp : IBTP)
    (crest : list (result (string * string))) (orest : list (result IBTP))
    (w : World) :
  strings_EqualFold sid (OffChainAddr (config c)) = true ->
  chainid_answers w = Ok (bxhID, chainID) :: crest ->
  outmsg_answers w = Ok ibtp :: orest ->
  CheckReceiptOffChain D ibtp result_ = Ok true ->
  let from := bxhID +:+ ":" +:+ chainID +:+ ":" +:+ sid in
  let w1 := with_outmsg orest
              (record (GetOutMessage_call (from +:+ "-" +:+ to) idx)
                 (with_chainid crest (record (GetChainID_call (mode c)) w))) in
  offChainCheckReceipt D c to idx sid result_ w
  = bind (index (map ResData (Data result_)) 0)
         (fun r0 => bind (index r0 0)
            (fun r00 => bind (send (mkOffChainReq idx from to r00))
               (fun _ => ret None))) w1.
Proof.
  intros Hfold Hchain Hout Hneed from w1.
  unfold offChainCheckReceipt. rewrite Hfold.
  unfold bind at 1. unfold GetChainID at 1. rewrite Hchain.
  cbv beta iota zeta. fold from.
  unfold bind at 1. unfold GetOutMessage at 1. cbn [outmsg_answers with_chainid record].
  rewrite Hout. cbv beta iota. rewrite Hneed. reflexivity.
Qed.

(** X27. A receipt for the off-chain service whose result is flagged for
    off-chain data has its data fetched first: after the chain ID query and
    the out-message lookup, SubmitReceipt puts on the request channel, which
    holds 1024 requests, one request for the first byte string of the first
    result, addressed by "bxhID:chainID:serviceID", and only then goes on to
    the submission.  On a full request channel the send blocks after the
    lookup and nothing is submitted. *)
Theorem SubmitReceipt_requests_first_datum (n : nat) (to : string) (idx : Z)
    (sid : string) (ty : Z) (result_ : Result) (proof : BxhProof)
    (bxhID chainID : string) (ibtp : IBTP)
    (crest : list (result (string * string))) (orest : list (result IBTP))
    (r : ResultRes) (more : list ResultRes) (datum : bytes) (data : list bytes)
    (w : World) :
  strings_EqualFold sid (OffChainAddr (config c)) = true ->
  chainid_answers w = Ok (bxhID, chainID) :: crest ->
  outmsg_answers w = Ok ibtp :: orest ->
  CheckReceiptOffChain D ibtp result_ = Ok true ->
  Data result_ = r :: more ->
  ResData r = datum :: data ->
  let from := bxhID +:+ ":" +:+ chainID +:+ ":" +:+ sid in
  let looked_up :=
    with_outmsg orest
      (record (GetOutMessage_call (from +:+ "-" +:+ to) idx)
         (with_chainid crest (record (GetChainID_call (mode c)) w))) in
  let w1 := enqueue (mkOffChainReq idx from to datum) looked_up in
  ((length (reqCh w) < reqCh_cap)%nat ->
   offChainCheckReceipt D c to idx sid result_ w = (Returns None, w1)
   /\ SubmitReceipt D c n to idx sid ty result_ proof w
      = (if multiReceiptRoute D result_ proof
         then bind (InvokeMultiReceipt c n sid to idx (uint64 ty)
                      (map ResData (Data result_)) (MultiStatus result_)
                      (uint64 (TxStatus proof)) (MultiSign proof))
                   (report SubmitReceiptErr) w1
         else bind (invokeReceipt c n sid to idx (uint64 ty)
                      (map ResData (Data result_))
                      (uint64 (TxStatus proof)) (MultiSign proof))
                   (report SubmitReceiptErr) w1))
  /\ ((reqCh_cap <= length (reqCh w))%nat ->
      SubmitReceipt D c n to idx sid ty result_ proof w = (Hangs, looked_up)).
Proof.
  intros Hfold Hchain Hout Hneed Hdata Hres from looked_up w1.
  split; intros Hroom.
  - assert (Hcheck : offChainCheckReceipt D c to idx sid result_ w
                     = (Returns None, w1)).
    { rewrite (offChainCheckReceipt_flagged to idx sid result_ bxhID chainID ibtp
                 crest orest w Hfold Hchain Hout Hneed).
      rewrite Hdata. cbn [map]. rewrite Hres.
      erewrite bind_Returns by (apply index_Returns; reflexivity).
      erewrite bind_Returns by (apply index_Returns; reflexivity).
      erewrite bind_Returns by (apply send_room; exact Hroom).
      reflexivity. }
    split; [exact Hcheck|].
    unfold SubmitReceipt. erewrite bind_Returns by exact Hcheck.
    cbv beta iota zeta.
    destruct (multiReceiptRoute D result_ proof); reflexivity.
  - unfold SubmitReceipt. erewrite bind_Hangs; [reflexivity|].
    rewrite (offChainCheckReceipt_flagged to idx sid result_ bxhID chainID ibtp
               crest orest w Hfold Hchain Hout Hneed).
    rewrite Hdata. cbn [map]. rewrite Hres.
    erewrite bind_Returns by (apply index_Returns; reflexivity).
    erewrite bind_Returns by (apply index_Returns; reflexivity).
    erewrite bind_Hangs by (apply send_full; exact Hroom).
    reflexivity.
Qed.

(** X28. The same receipt without a datum makes SubmitReceipt panic: when
    the result is flagged for off-chain data and has no entry, or its first
    entry has no byte string, the run ends in an index panic after the chain
    ID query and the out-message lookup; no request is queued and no
    transaction is submitted. *)
Theorem SubmitReceipt_flagged_without_data_panics (n : nat) (to : string)
    (idx : Z) (sid : string) (ty : Z) (result_ : Result) (proof : BxhProof)
    (bxhID chainID : string) (ibtp : IBTP)
    (crest : list (result (string * string))) (orest : list (result IBTP))
    (w : World) :
  strings_EqualFold sid (OffChainAddr (config c)) = true ->
  chainid_answers w = Ok (bxhID, chainID) :: crest ->
  outmsg_answers w = Ok ibtp :: orest ->
  CheckReceiptOffChain D ibtp result_ = Ok true ->
  Data result_ = []
  \/ (exists r more, Data result_ = r :: more /\ ResData r = []) ->
  let from := bxhID +:+ ":" +:+ chainID +:+ ":" +:+ sid in
  SubmitReceipt D c n to idx sid ty result_ proof w
  = (Panics "index out of range",
     with_outmsg orest
       (record (GetOutMessage_call (from +:+ "-" +:+ to) idx)
          (with_chainid crest (record (GetChainID_call (mode c)) w)))).
Proof.
  intros Hfold Hchain Hout Hneed Hdata from.
  unfold SubmitReceipt. erewrite bind_Panics; [reflexivity|].
  rewrite (offChainCheckReceipt_flagged to idx sid result_ bxhID chainID ibtp
             crest orest w Hfold Hchain Hout Hneed).
  destruct Hdata as [Hdata|(r & more & Hdata & Hres)]; rewrite Hdata.
  - reflexivity.
  - cbn [map]. rewrite Hres. reflexivity.
Qed.

(** X29. An error of the off-chain check is returned as it is, without a
    response object and before any transaction: the error of the chain ID
    query, of the out-message lookup, or of the off-chain flag check. *)
Theorem SubmitReceipt_offchain_errors (n : nat) (to : string) (idx : Z)
    (sid : string) (ty : Z) (result_ : Result) (proof : BxhProof) (e : string)
    (w : World) :
  strings_EqualFold sid (OffChainAddr (config c)) = true ->
  (forall crest,
      chainid_answers w = Err e :: crest ->
      SubmitReceipt D c n to idx sid ty result_ proof w
      = (Returns (None, Some e),
         with_chainid crest (record (GetChainID_call (mode c)) w)))
  /\ (forall bxhID chainID crest orest,
        chainid_answers w = Ok (bxhID, chainID) :: crest ->
        let from := bxhID +:+ ":" +:+ chainID +:+ ":" +:+ sid in
        let w1 := with_outmsg orest
                    (record (GetOutMessage_call (from +:+ "-" +:+ to) idx)
                       (with_chainid crest
                          (record (GetChainID_call (mode c)) w))) in
        (outmsg_answers w = Err e :: orest ->
         SubmitReceipt D c n to idx sid ty result_ proof w
         = (Returns (None, Some e), w1))
        /\ (forall ibtp,
              outmsg_answers w = Ok ibtp :: orest ->
              CheckReceiptOffChain D ibtp result_ = Err e ->
              SubmitReceipt D c n to idx sid ty result_ proof w
              = (Returns (None, Some e), w1))).
Proof.
  intros Hfold. split.
  - intros crest Hchain. unfold SubmitReceipt, offChainCheckReceipt.
    rewrite Hfold. unfold bind, GetChainID. rewrite Hchain. reflexivity.
  - intros bxhID chainID crest orest Hchain from w1. split.
    + intros Hout. unfold SubmitReceipt, offChainCheckReceipt.
      rewrite Hfold. unfold bind, GetChainID, GetOutMessage. rewrite Hchain.
      cbn [outmsg_answers with_chainid record]. rewrite Hout. reflexivity.
    + intros ibtp Hout Herr. unfold SubmitReceipt, offChainCheckReceipt.
      rewrite Hfold. unfold bind, GetChainID, GetOutMessage. rewrite Hchain.
      cbn [outmsg_answers with_chainid record]. rewrite Hout. cbv beta iota.
      rewrite Herr. reflexivity.
Qed.

End ReceiptOffChain.

Lemma SubmitReceipt_requests_first_datum_witness :
  Client.offChainCheckReceipt Samples.offchain_client_deps Samples.relay_client
    "chainB" 1 "0xoffchain" Samples.one_datum_result Samples.chainid_up
  = (Go.Returns None,
     Client.enqueue
       (Client.mkOffChainReq 1 "bxh:chainA:0xoffchain" "chainB"
          (Samples.arg "file-7"))
       (Client.with_outmsg []
          (Client.record
             (Client.GetOutMessage_call "bxh:chainA:0xoffchain-chainB" 1)
             (Client.with_chainid []
                (Client.record (Client.GetChainID_call Client.Relay)
                   Samples.chainid_up))))).
Proof.
  apply (SubmitReceipt_requests_first_datum Samples.offchain_client_deps
           Samples.relay_client 3 "chainB" 1 "0xoffchain" 1
           Samples.one_datum_result Samples.proof_begin "bxh" "chainA"
           Samples.out_message [] [] (pb.mkResultRes [Samples.arg "file-7";
                                                       Samples.arg "more"])
           [] (Samples.arg "file-7") [Samples.arg "more"] Samples.chainid_up).
  - reflexivity.
  - reflexivity.
  - reflexivity.
  - reflexivity.
  - reflexivity.
  - reflexivity.
  - vm_compute. lia.
Defined.

Lemma SubmitReceipt_flagged_without_data_panics_witness :
  Client.SubmitReceipt Samples.offchain_client_deps Samples.relay_client 3
    "chainB" 1 "0xoffchain" 1 Samples.two_results Samples.proof_begin
    Samples.chainid_up
  = (Go.Panics "index out of range",
     Client.with_outmsg []
       (Client.record
          (Client.GetOutMessage_call "bxh:chainA:0xoffchain-chainB" 1)
          (Client.with_chainid []
             (Client.record (Client.GetChainID_call Client.Relay)
                Samples.chainid_up)))).
Proof.
  apply (SubmitReceipt_flagged_without_data_panics Samples.offchain_client_deps
           Samples.relay_client 3 "chainB" 1 "0xoffchain" 1 Samples.two_results
           Samples.proof_begin "bxh" "chainA" Samples.out_message [] []
           Samples.chainid_up).
  - reflexivity.
  - reflexivity.
  - reflexivity.
  - reflexivity.
  - left. reflexivity.
Defined.

Lemma SubmitReceipt_offchain_errors_witness :
  Client.SubmitReceipt Samples.client_deps Samples.relay_client 3 "chainB" 1
    "0xoffchain" 1 Samples.two_results Samples.proof_begin Samples.outmsg_down
  = (Go.Returns (None, Some "no such message"),
     Client.with_outmsg []
       (Client.record
          (Client.GetOutMessage_call "bxh:chainA:0xoffchain-chainB" 1)
          (Client.with_chainid []
             (Client.record (Client.GetChainID_call Client.Relay)
                Samples.outmsg_down)))).
Proof.
  apply (proj1 (proj2 (SubmitReceipt_offchain_errors Samples.client_deps
                         Samples.relay_client 3 "chainB" 1 "0xoffchain" 1
                         Samples.two_results Samples.proof_begin
                         "no such message" Samples.outmsg_down eq_refl)
                  "bxh" "chainA" [] [] eq_refl)).
  reflexivity.
Defined.
